(** * Gas Town work queue: metadata codec, dispatch arithmetic, idle backoff,
      usage-limit wake policy and the enqueue commit protocol.

    A shallow embedding of the Go sources under [internal/cmd] and
    [internal/daemon], followed by the properties of the specification. *)

From Stdlib Require Import List ZArith Lia Bool Ascii String Arith.
Import ListNotations.


(* ================================================================== *)
(** * Go strings and the [strings] / [strconv] functions the code calls *)
(* ================================================================== *)

Module GoStr.

(** A Go [string] is an immutable sequence of bytes. *)
Definition gostring := list ascii.

Definition str (s : string) : gostring := list_ascii_of_string s.

Definition nl : ascii := "010"%char.

Definition isEmpty (s : gostring) : bool :=
  match s with [] => true | _ :: _ => false end.

(** [a == b] on strings. *)
Fixpoint streq (a b : gostring) : bool :=
  match a, b with
  | [], [] => true
  | c :: a', d :: b' => Ascii.eqb c d && streq a' b'
  | _, _ => false
  end.

(** [strings.HasPrefix(s, p)]. *)
Fixpoint HasPrefix (s p : gostring) {struct p} : bool :=
  match p with
  | [] => true
  | c :: p' =>
      match s with
      | [] => false
      | d :: s' => Ascii.eqb d c && HasPrefix s' p'
      end
  end.

(** [strings.Index(s, sep)]: byte offset of the first occurrence of [sep]
    in [s]; [None] stands for Go's [-1]. *)
Fixpoint Index (s sep : gostring) : option nat :=
  match s with
  | [] => if HasPrefix [] sep then Some 0 else None
  | _ :: s' =>
      if HasPrefix s sep then Some 0
      else match Index s' sep with
           | Some i => Some (S i)
           | None => None
           end
  end.

(** [strings.Contains(s, sub)] is [Index(s, sub) >= 0]. *)
Definition Contains (s sub : gostring) : bool :=
  match Index s sub with Some _ => true | None => false end.

(** [strings.Split(s, sep)] for a one-byte separator, the only way the code
    calls it ("\n" and ","): the pieces between the occurrences of the
    separator, [n+1] pieces for [n] occurrences. *)
Fixpoint Split (s : gostring) (sep : ascii) : list gostring :=
  match s with
  | [] => [[]]
  | c :: s' =>
      if Ascii.eqb c sep then [] :: Split s' sep
      else match Split s' sep with
           | p :: ps => (c :: p) :: ps
           | [] => [[c]]
           end
  end.

(** [strings.Join(elems, sep)]. *)
Fixpoint Join (elems : list gostring) (sep : gostring) : gostring :=
  match elems with
  | [] => []
  | [e] => e
  | e :: rest => e ++ sep ++ Join rest sep
  end.

(** [strings.SplitN(s, sep, 2)]: cut at the first occurrence of [sep]. *)
Definition SplitN2 (s sep : gostring) : list gostring :=
  match Index s sep with
  | Some i => [firstn i s; skipn (i + List.length sep) s]
  | None => [s]
  end.

(** [strings.TrimRight(s, "\n")]: drop the trailing newline bytes. *)
Fixpoint dropWhileNl (s : gostring) : gostring :=
  match s with
  | [] => []
  | c :: s' => if Ascii.eqb c nl then dropWhileNl s' else s
  end.

Definition TrimRightNl (s : gostring) : gostring := rev (dropWhileNl (rev s)).

(** ** [strings.TrimSpace]

    Go trims the code points of [unicode.IsSpace] from both ends.  On the
    bytes of the string these are exactly the UTF-8 encodings below (Go's
    decoder accepts only the shortest encoding of a code point, and a byte
    that does not start a valid encoding decodes to U+FFFD, not a space):
    - one byte: TAB, LF, VT, FF, CR, SPACE;
    - two bytes: C2 85 (U+0085), C2 A0 (U+00A0);
    - three bytes: E1 9A 80 (U+1680), E2 80 80..8A (U+2000..U+200A),
      E2 80 A8 / A9 / AF (U+2028, U+2029, U+202F), E2 81 9F (U+205F),
      E3 80 80 (U+3000). *)

Definition byteIn (c : ascii) (codes : list nat) : bool :=
  existsb (Nat.eqb (nat_of_ascii c)) codes.

Definition space1 (b1 : ascii) : bool := byteIn b1 [9; 10; 11; 12; 13; 32].

Definition space2 (b1 b2 : ascii) : bool :=
  byteIn b1 [194] && byteIn b2 [133; 160].

Definition space3 (b1 b2 b3 : ascii) : bool :=
  (byteIn b1 [225] && byteIn b2 [154] && byteIn b3 [128])
  || (byteIn b1 [226] && byteIn b2 [128]
      && byteIn b3 [128; 129; 130; 131; 132; 133; 134; 135; 136; 137; 138;
                    168; 169; 175])
  || (byteIn b1 [226] && byteIn b2 [129] && byteIn b3 [159])
  || (byteIn b1 [227] && byteIn b2 [128] && byteIn b3 [128]).

(** Leading white space: decode from the left, drop while it is a space. *)
Fixpoint trimLeft (s : gostring) : gostring :=
  match s with
  | [] => []
  | b1 :: t1 =>
      if space1 b1 then trimLeft t1
      else match t1 with
           | [] => s
           | b2 :: t2 =>
               if space2 b1 b2 then trimLeft t2
               else match t2 with
                    | [] => s
                    | b3 :: t3 => if space3 b1 b2 b3 then trimLeft t3 else s
                    end
           end
  end.

(** Trailing white space, on the reversed string: the last code point is a
    space when the string ends with one of the encodings. *)
Fixpoint trimLeftRev (r : gostring) : gostring :=
  match r with
  | [] => []
  | b1 :: t1 =>
      if space1 b1 then trimLeftRev t1
      else match t1 with
           | [] => r
           | b2 :: t2 =>
               if space2 b2 b1 then trimLeftRev t2
               else match t2 with
                    | [] => r
                    | b3 :: t3 => if space3 b3 b2 b1 then trimLeftRev t3 else r
                    end
           end
  end.

Definition trimRight (s : gostring) : gostring := rev (trimLeftRev (rev s)).

Definition TrimSpace (s : gostring) : gostring := trimRight (trimLeft s).

(** [strings.ToLower] on ASCII text: [A-Z] go to [a-z], every other byte
    is kept.  This is what Go does with a string that has no byte from 0x80
    up.  In other strings Go also lowers the capitals outside ASCII (U+212A
    to [k], U+0130 to [i], ...), which this definition leaves as they are:
    it stands for [strings.ToLower] on ASCII text only, and what is stated
    of lowercased text is stated for ASCII text.  Every entry of the
    detection table is ASCII. *)
Definition lowerByte (c : ascii) : ascii :=
  let n := nat_of_ascii c in
  if (65 <=? n) && (n <=? 90) then ascii_of_nat (n + 32) else c.

Definition ToLower (s : gostring) : gostring := map lowerByte s.

(** ** Integers: [int] and [time.Duration] are 64-bit two's complement *)

Definition minInt64 : Z := - 2 ^ 63.
Definition maxInt64 : Z := 2 ^ 63 - 1.

Definition inInt64 (z : Z) : Prop := (minInt64 <= z <= maxInt64)%Z.

(** Wrap-around of a mathematical result into [int64]. *)
Definition wrap64 (z : Z) : Z := ((z + 2 ^ 63) mod 2 ^ 64 - 2 ^ 63)%Z.

(** ** [strconv.Atoi] and the ["%d"] verb *)

Definition digitVal (c : ascii) : option Z :=
  let n := nat_of_ascii c in
  if (48 <=? n) && (n <=? 57) then Some (Z.of_nat (n - 48)) else None.

Fixpoint parseDigits (acc : Z) (s : gostring) : option Z :=
  match s with
  | [] => Some acc
  | c :: s' =>
      match digitVal c with
      | Some d => parseDigits (acc * 10 + d)%Z s'
      | None => None
      end
  end.

Definition inRange64 (z : Z) : bool :=
  ((minInt64 <=? z) && (z <=? maxInt64))%Z.

(** [strconv.Atoi(s)]: an optional sign, then one or more decimal digits, the
    value within [int]; [None] stands for a non-nil error. *)
Definition Atoi (s : gostring) : option Z :=
  let unsigned (ds : gostring) : option Z :=
    match ds with
    | [] => None
    | _ :: _ => parseDigits 0 ds
    end in
  let checked (v : option Z) : option Z :=
    match v with
    | Some z => if inRange64 z then Some z else None
    | None => None
    end in
  match s with
  | c :: ds =>
      if Ascii.eqb c "+"%char then checked (unsigned ds)
      else if Ascii.eqb c "-"%char then checked (option_map Z.opp (unsigned ds))
      else checked (unsigned s)
  | [] => None
  end.

Definition digitChar (d : Z) : ascii := ascii_of_nat (48 + Z.to_nat d).

(** Decimal digits of a non-negative number, most significant first. *)
Fixpoint digitsOf (fuel : nat) (n : Z) (acc : gostring) : gostring :=
  match fuel with
  | O => acc
  | S f =>
      let acc' := digitChar (n mod 10) :: acc in
      if (n / 10 =? 0)%Z then acc' else digitsOf f (n / 10) acc'
  end.

(** [fmt.Sprintf("%d", n)] for an [int]: at most 19 digits. *)
Definition Itoa (n : Z) : gostring :=
  if (n <? 0)%Z then "-"%char :: digitsOf 20 (- n) []
  else digitsOf 20 n [].

End GoStr.

(* ================================================================== *)
(** * queue_metadata.go: the metadata codec *)
(* ================================================================== *)

Module Meta.
Import GoStr.

Record QueueMetadata := mkMeta {
  TargetRig : gostring;
  Formula : gostring;
  Args : gostring;
  Vars : gostring;            (* newline-separated key=value pairs *)
  EnqueuedAt : gostring;
  Merge : gostring;
  Convoy : gostring;
  BaseBranch : gostring;
  NoMerge : bool;
  Account : gostring;
  Agent : gostring;
  HookRawBead : bool;
  Owned : bool;
  DispatchFailures : Z;
  LastFailure : gostring
}.

(** The zero value [&QueueMetadata{}]. *)
Definition zeroMeta : QueueMetadata :=
  mkMeta [] [] [] [] [] [] [] [] false [] [] false false 0 [].

Definition setTargetRig v m := mkMeta v (Formula m) (Args m) (Vars m) (EnqueuedAt m) (Merge m) (Convoy m) (BaseBranch m) (NoMerge m) (Account m) (Agent m) (HookRawBead m) (Owned m) (DispatchFailures m) (LastFailure m).
Definition setFormula v m := mkMeta (TargetRig m) v (Args m) (Vars m) (EnqueuedAt m) (Merge m) (Convoy m) (BaseBranch m) (NoMerge m) (Account m) (Agent m) (HookRawBead m) (Owned m) (DispatchFailures m) (LastFailure m).
Definition setArgs v m := mkMeta (TargetRig m) (Formula m) v (Vars m) (EnqueuedAt m) (Merge m) (Convoy m) (BaseBranch m) (NoMerge m) (Account m) (Agent m) (HookRawBead m) (Owned m) (DispatchFailures m) (LastFailure m).
Definition setVars v m := mkMeta (TargetRig m) (Formula m) (Args m) v (EnqueuedAt m) (Merge m) (Convoy m) (BaseBranch m) (NoMerge m) (Account m) (Agent m) (HookRawBead m) (Owned m) (DispatchFailures m) (LastFailure m).
Definition setEnqueuedAt v m := mkMeta (TargetRig m) (Formula m) (Args m) (Vars m) v (Merge m) (Convoy m) (BaseBranch m) (NoMerge m) (Account m) (Agent m) (HookRawBead m) (Owned m) (DispatchFailures m) (LastFailure m).
Definition setMerge v m := mkMeta (TargetRig m) (Formula m) (Args m) (Vars m) (EnqueuedAt m) v (Convoy m) (BaseBranch m) (NoMerge m) (Account m) (Agent m) (HookRawBead m) (Owned m) (DispatchFailures m) (LastFailure m).
Definition setConvoy v m := mkMeta (TargetRig m) (Formula m) (Args m) (Vars m) (EnqueuedAt m) (Merge m) v (BaseBranch m) (NoMerge m) (Account m) (Agent m) (HookRawBead m) (Owned m) (DispatchFailures m) (LastFailure m).
Definition setBaseBranch v m := mkMeta (TargetRig m) (Formula m) (Args m) (Vars m) (EnqueuedAt m) (Merge m) (Convoy m) v (NoMerge m) (Account m) (Agent m) (HookRawBead m) (Owned m) (DispatchFailures m) (LastFailure m).
Definition setNoMerge v m := mkMeta (TargetRig m) (Formula m) (Args m) (Vars m) (EnqueuedAt m) (Merge m) (Convoy m) (BaseBranch m) v (Account m) (Agent m) (HookRawBead m) (Owned m) (DispatchFailures m) (LastFailure m).
Definition setAccount v m := mkMeta (TargetRig m) (Formula m) (Args m) (Vars m) (EnqueuedAt m) (Merge m) (Convoy m) (BaseBranch m) (NoMerge m) v (Agent m) (HookRawBead m) (Owned m) (DispatchFailures m) (LastFailure m).
Definition setAgent v m := mkMeta (TargetRig m) (Formula m) (Args m) (Vars m) (EnqueuedAt m) (Merge m) (Convoy m) (BaseBranch m) (NoMerge m) (Account m) v (HookRawBead m) (Owned m) (DispatchFailures m) (LastFailure m).
Definition setHookRawBead v m := mkMeta (TargetRig m) (Formula m) (Args m) (Vars m) (EnqueuedAt m) (Merge m) (Convoy m) (BaseBranch m) (NoMerge m) (Account m) (Agent m) v (Owned m) (DispatchFailures m) (LastFailure m).
Definition setOwned v m := mkMeta (TargetRig m) (Formula m) (Args m) (Vars m) (EnqueuedAt m) (Merge m) (Convoy m) (BaseBranch m) (NoMerge m) (Account m) (Agent m) (HookRawBead m) v (DispatchFailures m) (LastFailure m).
Definition setDispatchFailures v m := mkMeta (TargetRig m) (Formula m) (Args m) (Vars m) (EnqueuedAt m) (Merge m) (Convoy m) (BaseBranch m) (NoMerge m) (Account m) (Agent m) (HookRawBead m) (Owned m) v (LastFailure m).
Definition setLastFailure v m := mkMeta (TargetRig m) (Formula m) (Args m) (Vars m) (EnqueuedAt m) (Merge m) (Convoy m) (BaseBranch m) (NoMerge m) (Account m) (Agent m) (HookRawBead m) (Owned m) (DispatchFailures m) v.

Definition queueMetadataDelimiter : gostring := str "---gt:queue:v1---".

(** [fmt.Sprintf("key: %s", v)]. *)
Definition kvLine (key : string) (v : gostring) : gostring :=
  str key ++ str ": " ++ v.

(** [if v != "" { lines = append(lines, "key: v") }]. *)
Definition strLine (key : string) (v : gostring) : list gostring :=
  if isEmpty v then [] else [kvLine key v].

(** [if b { lines = append(lines, "key: true") }]. *)
Definition boolLine (key : string) (b : bool) : list gostring :=
  if b then [kvLine key (str "true")] else [].

(** The loop over [strings.Split(m.Vars, "\n")]: one "var:" line per
    non-blank entry. *)
Definition varLinesOf (vars : gostring) : list gostring :=
  flat_map (fun v => strLine "var" (TrimSpace v)) (Split vars nl).

Definition formatLines (m : QueueMetadata) : list gostring :=
  [queueMetadataDelimiter]
  ++ strLine "target_rig" (TargetRig m)
  ++ strLine "formula" (Formula m)
  ++ strLine "args" (Args m)
  ++ varLinesOf (Vars m)
  ++ strLine "enqueued_at" (EnqueuedAt m)
  ++ strLine "merge" (Merge m)
  ++ strLine "convoy" (Convoy m)
  ++ strLine "base_branch" (BaseBranch m)
  ++ boolLine "no_merge" (NoMerge m)
  ++ strLine "account" (Account m)
  ++ strLine "agent" (Agent m)
  ++ boolLine "hook_raw_bead" (HookRawBead m)
  ++ boolLine "owned" (Owned m)
  ++ (if (DispatchFailures m >? 0)%Z
      then [kvLine "dispatch_failures" (Itoa (DispatchFailures m))] else [])
  ++ strLine "last_failure" (LastFailure m).

Definition FormatQueueMetadata (m : QueueMetadata) : gostring :=
  Join (formatLines m) [nl].

(** The [switch key] of the parser, on the record under construction and the
    accumulated [varLines]. *)
Definition applyKey (key val : gostring) (m : QueueMetadata)
    (varLines : list gostring) : QueueMetadata * list gostring :=
  if streq key (str "target_rig") then (setTargetRig val m, varLines)
  else if streq key (str "formula") then (setFormula val m, varLines)
  else if streq key (str "args") then (setArgs val m, varLines)
  else if streq key (str "var") then (m, varLines ++ [val])
  else if streq key (str "vars") then (m, varLines ++ Split val ","%char)
  else if streq key (str "enqueued_at") then (setEnqueuedAt val m, varLines)
  else if streq key (str "merge") then (setMerge val m, varLines)
  else if streq key (str "convoy") then (setConvoy val m, varLines)
  else if streq key (str "base_branch") then (setBaseBranch val m, varLines)
  else if streq key (str "no_merge")
       then (setNoMerge (streq val (str "true")) m, varLines)
  else if streq key (str "account") then (setAccount val m, varLines)
  else if streq key (str "agent") then (setAgent val m, varLines)
  else if streq key (str "hook_raw_bead")
       then (setHookRawBead (streq val (str "true")) m, varLines)
  else if streq key (str "no_boot") then (m, varLines)
  else if streq key (str "owned")
       then (setOwned (streq val (str "true")) m, varLines)
  else if streq key (str "dispatch_failures")
       then match Atoi val with
            | Some n => (setDispatchFailures n m, varLines)
            | None => (m, varLines)
            end
  else if streq key (str "last_failure") then (setLastFailure val m, varLines)
  else (m, varLines).

(** The body of [for _, line := range strings.Split(section, "\n")], with its
    [continue]s and its [break] at a second delimiter. *)
Fixpoint parseLines (lines : list gostring) (m : QueueMetadata)
    (varLines : list gostring) : QueueMetadata * list gostring :=
  match lines with
  | [] => (m, varLines)
  | raw :: rest =>
      let line := TrimSpace raw in
      if isEmpty line then parseLines rest m varLines
      else if streq line queueMetadataDelimiter then (m, varLines)
      else match SplitN2 line (str ": ") with
           | [p0; p1] =>
               let '(m', vl') :=
                 applyKey (TrimSpace p0) (TrimSpace p1) m varLines in
               parseLines rest m' vl'
           | _ => parseLines rest m varLines
           end
  end.

(** [ParseQueueMetadata]; [None] is the nil pointer. *)
Definition ParseQueueMetadata (description : gostring) : option QueueMetadata :=
  match Index description queueMetadataDelimiter with
  | None => None
  | Some idx =>
      let section :=
        skipn (idx + List.length queueMetadataDelimiter) description in
      let '(m, varLines) := parseLines (Split section nl) zeroMeta [] in
      Some (match varLines with
            | [] => m
            | _ :: _ => setVars (Join varLines [nl]) m
            end)
  end.

(** [StripQueueMetadata]. *)
Definition StripQueueMetadata (description : gostring) : gostring :=
  match Index description queueMetadataDelimiter with
  | None => description
  | Some idx => TrimRightNl (firstn idx description)
  end.

End Meta.

(* ================================================================== *)
(** * queue_dispatch.go: ready-set selection and dispatch count *)
(* ================================================================== *)

Module Dispatch.
Import GoStr.

Definition maxDispatchFailures : Z := 3.

(** One element of the JSON array printed by [bd ready --json]. *)
Record rawBead := mkRaw {
  rawID : gostring;
  rawTitle : gostring;
  rawDescription : gostring;
  rawLabels : list gostring
}.

Record readyQueuedBead := mkReady {
  ID : gostring;
  Title : gostring;
  TargetRig : gostring;
  Description : gostring;
  Labels : list gostring
}.

(** The loop [for _, r := range raw] of [getReadyQueuedBeadsFrom]. *)
Fixpoint readyLoop (raw : list rawBead) : list readyQueuedBead :=
  match raw with
  | [] => []
  | r :: rest =>
      match Meta.ParseQueueMetadata (rawDescription r) with
      | Some meta =>
          (* Circuit breaker: skip beads that exceeded max dispatch failures *)
          if (Meta.DispatchFailures meta >=? maxDispatchFailures)%Z
          then readyLoop rest
          else mkReady (rawID r) (rawTitle r) (Meta.TargetRig meta)
                 (rawDescription r) (rawLabels r) :: readyLoop rest
      | None =>
          mkReady (rawID r) (rawTitle r) [] (rawDescription r) (rawLabels r)
            :: readyLoop rest
      end
  end.

(** [getReadyQueuedBeadsFrom]: [bdReady] is what running [bd ready] and
    decoding its JSON output gave, [None] when either step failed. *)
Definition getReadyQueuedBeadsFrom (bdReady : option (list rawBead))
    : option (list readyQueuedBead) :=
  match bdReady with
  | None => None
  | Some raw => Some (readyLoop raw)
  end.

(** [computeDispatchCount(capacity, batchSize, readyCount)]. *)
Definition computeDispatchCount (capacity batchSize readyCount : Z) : Z :=
  let toDispatch := batchSize in
  let toDispatch :=
    if ((capacity >? 0) && (capacity <? toDispatch))%Z then capacity
    else toDispatch in
  let toDispatch :=
    if (readyCount <? toDispatch)%Z then readyCount else toDispatch in
  toDispatch.

End Dispatch.

(* ================================================================== *)
(** * daemon idle state and [gt deacon idle-wait] *)
(* ================================================================== *)

Module Idle.
Import GoStr.
Local Open Scope Z_scope.

(** [time.Duration] counts nanoseconds in an [int64]. *)
Definition Second : Z := 1000000000.
Definition Minute : Z := 60 * Second.
Definition Hour : Z := 60 * Minute.

Record IdleState := mkIdle {
  IsIdle : bool;                (* field [Idle] *)
  PolecatCount : Z;
  ConvoyCount : Z;
  DoltStopped : bool;
  BackoffInterval : Z
}.

(** [nextBackoffInterval(current)]; [current * 2] is an [int64] product. *)
Definition nextBackoffInterval (current : Z) : Z :=
  let minBackoff := 30 * Second in
  let maxBackoff := 5 * Minute in
  if (current <? minBackoff)%Z then minBackoff
  else
    let next := wrap64 (current * 2) in
    if (next >? maxBackoff)%Z then maxBackoff else next.

(** The head of [runDeaconIdleWait]: [None] when it returns at once (no
    state file or system active), otherwise the [sleepDuration] it settles
    on before the ticker loop; [idleWaitMax] is the [--max] flag. *)
Definition idleWaitSleep (state : option IdleState) (idleWaitMax : Z)
    : option Z :=
  match state with
  | None => None
  | Some st =>
      if negb (IsIdle st) then None
      else
        let sleepDuration := BackoffInterval st in
        let sleepDuration :=
          if (sleepDuration <=? 0)%Z then 30 * Second else sleepDuration in
        let sleepDuration :=
          if (sleepDuration >? idleWaitMax)%Z then idleWaitMax
          else sleepDuration in
        Some sleepDuration
  end.

End Idle.

(* ================================================================== *)
(** * usage-limit state and transcript detection *)
(* ================================================================== *)

Module UsageLimit.
Import GoStr.
Local Open Scope Z_scope.

(** A [time.Time] as an instant: nanoseconds since the zero time
    (January 1, year 1, 00:00 UTC), so that [IsZero] is [t = 0]. *)
Definition Time := Z.

Definition Add (t : Time) (d : Z) : Time := (t + d)%Z.
Definition Before (t u : Time) : bool := (t <? u)%Z.
Definition IsZero (t : Time) : bool := (t =? 0)%Z.

(** [t.Sub(u)] saturates at the largest and smallest [Duration]. *)
Definition Sub (t u : Time) : Z :=
  let d := (t - u)%Z in
  if (d >? maxInt64)%Z then maxInt64
  else if (d <? minInt64)%Z then minInt64
  else d.

Record State := mkState {
  Active : bool;
  ResetAt : Time;
  RecordedAt : Time;
  RecordedBy : gostring;
  Reason : gostring;
  RetryAfterSeconds : Z;
  WakeAttempts : Z;
  LastWakeAttempt : Time
}.

Definition WakeBuffer : Z := 2 * Idle.Minute.
Definition MaxWakeAttempts : Z := 3.
Definition WakeAttemptCooldown : Z := 5 * Idle.Minute.

(** [(s *State) ShouldWake()], with the reading of [time.Now()] passed in. *)
Definition ShouldWake (s : State) (now : Time) : bool :=
  if negb (Active s) then false
  else
    let wakeTime := Add (ResetAt s) WakeBuffer in
    if Before now wakeTime then false
    else if (WakeAttempts s >=? MaxWakeAttempts)%Z then false
    else if negb (IsZero (LastWakeAttempt s))
            && (Sub now (LastWakeAttempt s) <? WakeAttemptCooldown)%Z
         then false
    else true.

(** The table of [detectUsageLimit], in source order. *)
Definition usageLimitPatterns : list (gostring * gostring) :=
  map (fun pr => (str (fst pr), str (snd pr)))
  [ ("rate_limit_error", "Anthropic API rate_limit_error");
    ("status.*429", "HTTP 429 Too Many Requests");
    ("error.*429", "HTTP 429 error");
    ("429", "HTTP 429");
    ("overloaded_error", "Anthropic API overloaded_error (529)");
    ("rate limit", "rate limit detected");
    ("ratelimit", "ratelimit detected");
    ("too many requests", "too many requests");
    ("usage limit", "usage limit reached");
    ("you've reached your limit", "subscription limit reached");
    ("you have reached your limit", "subscription limit reached");
    ("exceeded your limit", "limit exceeded");
    ("reached your usage limit", "usage limit reached");
    ("usage cap", "usage cap reached");
    ("token limit", "token limit reached");
    ("tokens per minute", "TPM limit");
    ("requests per minute", "RPM limit");
    ("api limit", "API limit");
    ("request limit", "request limit") ]%string.

(** The scan [for _, p := range usageLimitPatterns] with its [break]. *)
Fixpoint firstPattern (lower : gostring) (ps : list (gostring * gostring))
    : option gostring :=
  match ps with
  | [] => None
  | (pattern, reason) :: rest =>
      if Contains lower pattern then Some reason else firstPattern lower rest
  end.

Section Detect.
(** [extractResetDuration] works with regular expressions and the wall
    clock; the detection only looks at whether its result is zero. *)
Variable extractResetDuration : gostring -> Z.

(** [detectUsageLimit(transcript)] = (isLimited, resetDuration, reason). *)
Definition detectUsageLimit (transcript : gostring)
    : bool * Z * gostring :=
  let lower := ToLower transcript in
  match firstPattern lower usageLimitPatterns with
  | None => (false, 0%Z, [])
  | Some reason =>
      let resetDuration := extractResetDuration transcript in
      if (resetDuration =? 0)%Z
      then (true, Idle.Hour, reason ++ str " (default 1h reset)")
      else (true, resetDuration, reason)
  end.
End Detect.

End UsageLimit.

(* ================================================================== *)
(** * sling_queue.go: the enqueue commit protocol *)
(* ================================================================== *)

Module Enqueue.
Import GoStr.

Definition LabelQueued : gostring := str "gt:queued".

Module Opt.
Record EnqueueOptions := mk {
  Formula : gostring;
  Args : gostring;
  Vars : list gostring;
  Merge : gostring;
  BaseBranch : gostring;
  NoConvoy : bool;
  Owned : bool;
  DryRun : bool;
  Force : bool;
  NoMerge : bool;
  Account : gostring;
  Agent : gostring;
  HookRawBead : bool
}.
End Opt.

(** A bead as the issue store shows it ([getBeadInfo]). *)
Record Bead := mkBead {
  Status : gostring;
  Assignee : gostring;
  Labels : list gostring;
  Description : gostring;
  Title : gostring
}.

(** The issue store, keyed by bead ID. *)
Definition Store := gostring -> option Bead.

Definition putBead (st : Store) (id : gostring) (b : Bead) : Store :=
  fun k => if streq k id then Some b else st k.

(** The two [bd update] invocations of the enqueue path. *)
Inductive BdUpdate :=
| SetDescription (id desc : gostring)   (* bd update id --description=desc *)
| AddLabel (id label : gostring).       (* bd update id --add-label=label *)

(** Modelled from the spec: the effect of a successful [bd update] on the
    store, which is an external program: [--description] replaces the
    description, [--add-label] is a set insertion. *)
Definition applyUpdate (u : BdUpdate) (st : Store) : option Store :=
  match u with
  | SetDescription id desc =>
      match st id with
      | Some b => Some (putBead st id
                    (mkBead (Status b) (Assignee b) (Labels b) desc (Title b)))
      | None => None
      end
  | AddLabel id label =>
      match st id with
      | Some b =>
          let labels := if existsb (streq label) (Labels b) then Labels b
                        else Labels b ++ [label] in
          Some (putBead st id
                  (mkBead (Status b) (Assignee b) labels (Description b)
                     (Title b)))
      | None => None
      end
  end.

(** The store together with the record of the [bd update] runs so far, each
    with whether it exited zero. *)
Record World := mkWorld {
  store : Store;
  bdLog : list (BdUpdate * bool)
}.

(** Everything [enqueueBead] asks of its collaborators. *)
Record Env := mkEnv {
  (* workspace.FindFromCwdOrError: the town root, or an error *)
  findTownRoot : option gostring;
  (* IsRigName(rigName) *)
  IsRigName : gostring -> bool;
  (* checkCrossRigGuard(beadID, target, townRoot) returned nil *)
  crossRigOk : gostring -> gostring -> gostring -> bool;
  (* verifyFormulaExists(formula) returned nil *)
  formulaExists : gostring -> bool;
  (* CookFormula(formula, workDir, townRoot) returned nil *)
  cookOk : gostring -> bool;
  (* time.Now().UTC().Format(time.RFC3339) *)
  nowRFC3339 : gostring;
  (* whether the n-th [bd update] of the process is let through *)
  bdSucceeds : nat -> bool;
  (* isTrackedByConvoy(beadID): a convoy ID, or "" *)
  isTrackedByConvoy : gostring -> gostring;
  (* createAutoConvoy(beadID, title, owned, merge): the ID of the new convoy
     and the record the store gets for it, or an error *)
  createAutoConvoy :
    gostring -> gostring -> bool -> gostring -> option (gostring * Bead)
}.

Inductive error :=
| ErrNoWorkspace          (* from workspace.FindFromCwdOrError *)
| ErrBeadNotFound         (* "bead '%s' not found" *)
| ErrNotARig              (* "'%s' is not a known rig" *)
| ErrCrossRig             (* from checkCrossRigGuard *)
| ErrBeadStatus           (* "checking bead status: %w" *)
| ErrAlreadyHooked        (* "bead %s is already %s to %s" *)
| ErrFormulaNotFound      (* "formula %q not found: %w" *)
| ErrFormulaCook          (* "formula %q failed to cook: %w" *)
| ErrWriteMetadata        (* "writing queue metadata: %w" *)
| ErrAddLabel.            (* "adding queue label: ..." *)

(** A computation either returns from the function ([Return], with the
    function's [error] result, [None] for nil) or goes on with a value. *)
Inductive outcome (A : Type) :=
| Return (e : option error)
| Next (a : A).
Arguments Return {A} e.
Arguments Next {A} a.

Definition M (A : Type) := World -> outcome A * World.

Definition ret {A} (a : A) : M A := fun w => (Next a, w).
Definition exit {A} (e : option error) : M A := fun w => (Return e, w).
Definition bind {A B} (m : M A) (f : A -> M B) : M B :=
  fun w => match m w with
           | (Return e, w') => (Return e, w')
           | (Next a, w') => f a w'
           end.

Notation "x <- m ;; k" := (bind m (fun x => k))
  (at level 61, m at next level, right associativity).
Notation "m ;;; k" := (bind m (fun _ => k))
  (at level 61, right associativity).

(** [if !cond { return err }]. *)
Definition guard (cond : bool) (e : error) : M unit :=
  if cond then ret tt else exit (Some e).

Section WithEnv.
Variable env : Env.

(** [cmd.Run()] of a [bd update]: it exits zero when the store accepts it
    and nothing outside made it fail; a failed run leaves the store as it
    was.  The result is [err == nil]. *)
Definition runBd (u : BdUpdate) : M bool :=
  fun w =>
    let allowed := bdSucceeds env (List.length (bdLog w)) in
    match (if allowed then applyUpdate u (store w) else None) with
    | Some st' => (Next true, mkWorld st' (bdLog w ++ [(u, true)]))
    | None => (Next false, mkWorld (store w) (bdLog w ++ [(u, false)]))
    end.

(** Modelled from the spec: [verifyBeadExists] and [getBeadInfo] are not
    among the sources; they look the bead up in the issue store. *)
Definition verifyBeadExists (beadID : gostring) : M bool :=
  fun w => (Next (match store w beadID with Some _ => true | None => false end), w).

Definition getBeadInfo (beadID : gostring) : M Bead :=
  fun w => match store w beadID with
           | Some b => (Next b, w)
           | None => (Return (Some ErrBeadStatus), w)
           end.

(** [NewQueueMetadata(rigName)] followed by the option copies. *)
Definition buildMetadata (rigName : gostring) (opts : Opt.EnqueueOptions)
    : Meta.QueueMetadata :=
  let meta := Meta.setEnqueuedAt (nowRFC3339 env)
                (Meta.setTargetRig rigName Meta.zeroMeta) in
  let meta := if negb (isEmpty (Opt.Formula opts))
              then Meta.setFormula (Opt.Formula opts) meta else meta in
  let meta := if negb (isEmpty (Opt.Args opts))
              then Meta.setArgs (Opt.Args opts) meta else meta in
  let meta := if (0 <? List.length (Opt.Vars opts))%nat
              then Meta.setVars (Join (Opt.Vars opts) [nl]) meta else meta in
  let meta := if negb (isEmpty (Opt.Merge opts))
              then Meta.setMerge (Opt.Merge opts) meta else meta in
  let meta := if negb (isEmpty (Opt.BaseBranch opts))
              then Meta.setBaseBranch (Opt.BaseBranch opts) meta else meta in
  let meta := Meta.setNoMerge (Opt.NoMerge opts) meta in
  let meta := if negb (isEmpty (Opt.Account opts))
              then Meta.setAccount (Opt.Account opts) meta else meta in
  let meta := if negb (isEmpty (Opt.Agent opts))
              then Meta.setAgent (Opt.Agent opts) meta else meta in
  let meta := Meta.setHookRawBead (Opt.HookRawBead opts) meta in
  Meta.setOwned (Opt.Owned opts) meta.

(** [desc := baseDesc; if desc != "" { desc += "\n" }; desc += block]. *)
Definition appendBlock (baseDesc block : gostring) : gostring :=
  (if negb (isEmpty baseDesc) then baseDesc ++ [nl] else baseDesc) ++ block.

(** Modelled from the spec: [createAutoConvoy] is not among the sources.
    A convoy is "a tracking container grouping related beads" and is itself
    a record of the issue store ([gt convoy queue] looks it up with
    [verifyBeadExists]): a creation that goes through adds the convoy's
    record to the store under the ID it returns, a failed one leaves the
    store as it was.  The result is the convoy ID, [None] for an error. *)
Definition createConvoy (beadID title : gostring) (owned : bool)
    (merge : gostring) : M (option gostring) :=
  fun w =>
    match createAutoConvoy env beadID title owned merge with
    | Some (convoyID, record) =>
        (Next (Some convoyID),
         mkWorld (putBead (store w) convoyID record) (bdLog w))
    | None => (Next None, w)
    end.

(** The auto-convoy step; every failure in it is only a warning. *)
Definition autoConvoy (beadID title : gostring) (opts : Opt.EnqueueOptions)
    (meta : Meta.QueueMetadata) (baseDesc : gostring) : M unit :=
  if negb (Opt.NoConvoy opts) then
    if isEmpty (isTrackedByConvoy env beadID) then
      created <- createConvoy beadID title (Opt.Owned opts)
                   (Opt.Merge opts) ;;
      match created with
      | None => ret tt
      | Some convoyID =>
          (* Re-persist metadata with convoy ID so dispatch can see it *)
          let meta := Meta.setConvoy convoyID meta in
          let updatedDesc :=
            appendBlock baseDesc (Meta.FormatQueueMetadata meta) in
          runBd (SetDescription beadID updatedDesc) ;;; ret tt
      end
    else ret tt
  else ret tt.

(** [enqueueBead(beadID, rigName, opts)].  Printing and the event feed
    are left out. *)
Definition enqueueBeadM (beadID rigName : gostring)
    (opts : Opt.EnqueueOptions) : M unit :=
  townRoot <- (match findTownRoot env with
               | Some r => ret r
               | None => exit (Some ErrNoWorkspace)
               end) ;;
  (* Validate bead exists *)
  found <- verifyBeadExists beadID ;;
  guard found ErrBeadNotFound ;;;
  (* Validate rig exists *)
  guard (IsRigName env rigName) ErrNotARig ;;;
  (* Cross-rig guard, skipped when Force is set *)
  (if negb (Opt.Force opts)
   then guard (crossRigOk env beadID (rigName ++ str "/polecats/_") townRoot)
          ErrCrossRig
   else ret tt) ;;;
  (* Get bead info for status/label checks *)
  info <- getBeadInfo beadID ;;
  (* Idempotency: skip if bead is actively queued *)
  let hasQueuedLabel := existsb (fun label => streq label LabelQueued)
                          (Labels info) in
  if hasQueuedLabel && streq (Status info) (str "open") then exit None
  else
  (* Check status: error if hooked/in_progress (unless --force) *)
  if (streq (Status info) (str "pinned") || streq (Status info) (str "hooked"))
     && negb (Opt.Force opts)
  then exit (Some ErrAlreadyHooked)
  else
  (if negb (isEmpty (Opt.Formula opts))
   then guard (formulaExists env (Opt.Formula opts)) ErrFormulaNotFound
   else ret tt) ;;;
  if Opt.DryRun opts then exit None
  else
  (if negb (isEmpty (Opt.Formula opts))
   then guard (cookOk env (Opt.Formula opts)) ErrFormulaCook
   else ret tt) ;;;
  let meta := buildMetadata rigName opts in
  (* Strip any existing queue metadata before appending new metadata *)
  let baseDesc := Meta.StripQueueMetadata (Description info) in
  let newDesc := appendBlock baseDesc (Meta.FormatQueueMetadata meta) in
  (* Write metadata FIRST, then add label *)
  wrote <- runBd (SetDescription beadID newDesc) ;;
  guard wrote ErrWriteMetadata ;;;
  labelled <- runBd (AddLabel beadID LabelQueued) ;;
  (if labelled then ret tt
   else
     (* Roll back metadata; best effort *)
     runBd (SetDescription beadID baseDesc) ;;;
     exit (Some ErrAddLabel)) ;;;
  autoConvoy beadID (Title info) opts meta baseDesc ;;;
  exit None.

(** The function's result and the world it leaves. *)
Definition enqueueBead (beadID rigName : gostring)
    (opts : Opt.EnqueueOptions) (w : World) : option error * World :=
  match enqueueBeadM beadID rigName opts w with
  | (Return e, w') => (e, w')
  | (Next _, w') => (None, w')
  end.

End WithEnv.

End Enqueue.

(* ================================================================== *)
(** * More of queue_dispatch.go: vars, ready set across directories *)
(* ================================================================== *)

Module Ready.
Import GoStr Dispatch.

(** [splitVars(vars)]: the non-blank lines, trimmed (nil for ""). *)
Definition splitVars (vars : gostring) : list gostring :=
  if isEmpty vars then []
  else flat_map (fun line =>
                   let line := TrimSpace line in
                   if negb (isEmpty line) then [line] else [])
                (Split vars nl).

(** The inner loop of [getReadyQueuedBeads]: append the beads of one
    directory whose ID was not seen yet.  [seen] is the [map[string]bool],
    kept as the list of its keys. *)
Fixpoint addUnseen (beads : list readyQueuedBead) (seen : list gostring)
    (result : list readyQueuedBead)
    : list gostring * list readyQueuedBead :=
  match beads with
  | [] => (seen, result)
  | b :: rest =>
      if negb (existsb (streq (ID b)) seen)
      then addUnseen rest (ID b :: seen) (result ++ [b])
      else addUnseen rest seen result
  end.

(** The outer loop [for _, dir := range dirs]; each directory is given by
    what [bd ready] printed there ([None] when it failed). *)
Fixpoint scanDirs (dirs : list (option (list rawBead)))
    (seen : list gostring) (result : list readyQueuedBead) (failCount : nat)
    : list readyQueuedBead * nat :=
  match dirs with
  | [] => (result, failCount)
  | dir :: rest =>
      match getReadyQueuedBeadsFrom dir with
      | None => scanDirs rest seen result (S failCount)
      | Some beads =>
          let '(seen', result') := addUnseen beads seen result in
          scanDirs rest seen' result' failCount
      end
  end.

(** [getReadyQueuedBeads]; [None] is the "all directories failed" error. *)
Definition getReadyQueuedBeads (dirs : list (option (list rawBead)))
    : option (list readyQueuedBead) :=
  let '(result, failCount) := scanDirs dirs [] [] 0 in
  if Nat.eqb failCount (List.length dirs) && (0 <? failCount)%nat
  then None
  else Some result.

End Ready.

(* ================================================================== *)
(** * queue_state.go: the runtime state record *)
(* ================================================================== *)

Module QState.
Import GoStr.

Record QueueState := mkQS {
  Paused : bool;
  PausedBy : gostring;
  PausedAt : gostring;
  LastDispatchAt : gostring;
  LastDispatchCount : Z
}.

(** [&QueueState{}], what a missing file loads as. *)
Definition zeroState : QueueState := mkQS false [] [] [] 0.

(** The three methods; [now] is [time.Now().UTC().Format(time.RFC3339)]. *)
Definition SetPaused (by_ now : gostring) (s : QueueState) : QueueState :=
  mkQS true by_ now (LastDispatchAt s) (LastDispatchCount s).

Definition SetResumed (s : QueueState) : QueueState :=
  mkQS false [] [] (LastDispatchAt s) (LastDispatchCount s).

Definition RecordDispatch (count : Z) (now : gostring) (s : QueueState)
    : QueueState :=
  mkQS (Paused s) (PausedBy s) (PausedAt s) now count.

End QState.

(* ================================================================== *)
(** * Wake attempts and amounts (usage-limit state) *)
(* ================================================================== *)

Module UsageMore.
Import GoStr UsageLimit.

(** [(s *State) RecordWakeAttempt()], with the reading of [time.Now()]. *)
Definition RecordWakeAttempt (s : State) (now : Time) : State :=
  mkState (Active s) (ResetAt s) (RecordedAt s) (RecordedBy s) (Reason s)
    (RetryAfterSeconds s) (wrap64 (WakeAttempts s + 1)) now.

(** The loop of [parseAmount]: digits accumulate until the first byte that
    is not one (a byte of a multi-byte rune is not a digit either). *)
Fixpoint parseAmountFrom (s : gostring) (n : Z) : Z :=
  match s with
  | [] => n
  | c :: s' =>
      match digitVal c with
      | Some d => parseAmountFrom s' (wrap64 (n * 10 + d))
      | None => n
      end
  end.

(** [parseAmount(s, &result)]: the value; the error is always nil. *)
Definition parseAmount (s : gostring) : Z := parseAmountFrom s 0.

End UsageMore.

(* ================================================================== *)
(** * The wake signal file (daemon idle state) *)
(* ================================================================== *)

Module Wake.
Import GoStr.

(** The files of the daemon directory, by path. *)
Definition Files := gostring -> option gostring.

Definition writeFile (fs : Files) (path content : gostring) : Files :=
  fun p => if streq p path then Some content else fs p.

Definition removeFile (fs : Files) (path : gostring) : Files :=
  fun p => if streq p path then None else fs p.

(** [SignalWake]: [wakePath] is [IdleWakePath(townRoot)]; [mkdirOk] and
    [writeOk] say whether [os.MkdirAll] and [os.WriteFile] went through.
    The result is [err == nil]. *)
Definition SignalWake (mkdirOk writeOk : bool) (wakePath now : gostring)
    (fs : Files) : bool * Files :=
  if negb mkdirOk then (false, fs)
  else if writeOk then (true, writeFile fs wakePath now)
  else (false, fs).

(** [ConsumeWakeSignal]: [os.Stat] then [os.Remove], whose error is dropped;
    [removeOk] says whether the removal went through. *)
Definition ConsumeWakeSignal (removeOk : bool) (wakePath : gostring)
    (fs : Files) : bool * Files :=
  match fs wakePath with
  | None => (false, fs)
  | Some _ => (true, if removeOk then removeFile fs wakePath else fs)
  end.

End Wake.

(* ================================================================== *)
(** * The candidate filter of [gt queue epic] *)
(* ================================================================== *)

Module Epic.
Import GoStr.

Record epicChild := mkChild {
  ID : gostring;
  Title : gostring;
  Status : gostring;
  Assignee : gostring;
  Labels : list gostring
}.

(** [hasQueuedLabel(labels)] of sling_queue.go. *)
Fixpoint hasQueuedLabel (labels : list gostring) : bool :=
  match labels with
  | [] => false
  | l :: rest => if streq l Enqueue.LabelQueued then true else hasQueuedLabel rest
  end.

Record Tally := mkTally {
  candidates : list (gostring * gostring);   (* ID, Title *)
  skippedClosed : Z;
  skippedAssigned : Z;
  skippedQueued : Z
}.

(** The loop [for _, c := range children] of [runQueueEpic]; [force] is the
    [--force] flag.  The counters are bounded by [len(children)], so the
    increments cannot overflow. *)
Fixpoint filterChildren (children : list epicChild) (force : bool)
    (t : Tally) : Tally :=
  match children with
  | [] => t
  | c :: rest =>
      if streq (Status c) (str "closed") || streq (Status c) (str "tombstone")
      then filterChildren rest force
             (mkTally (candidates t) (skippedClosed t + 1) (skippedAssigned t)
                (skippedQueued t))
      else if negb (isEmpty (Assignee c)) && negb force
      then filterChildren rest force
             (mkTally (candidates t) (skippedClosed t) (skippedAssigned t + 1)
                (skippedQueued t))
      else if hasQueuedLabel (Labels c)
      then filterChildren rest force
             (mkTally (candidates t) (skippedClosed t) (skippedAssigned t)
                (skippedQueued t + 1))
      else filterChildren rest force
             (mkTally (candidates t ++ [(ID c, Title c)]) (skippedClosed t)
                (skippedAssigned t) (skippedQueued t))
  end.

Definition emptyTally : Tally := mkTally [] 0 0 0.

End Epic.

(* ================================================================== *)
(** * queue_dispatch.go: one bead, one failure record, one cycle *)
(* ================================================================== *)

Module Run.
Import GoStr Dispatch.

(** The fields of [SlingParams] that [dispatchSingleBead] fills in. *)
Record SlingParams := mkParams {
  BeadID : gostring;
  RigName : gostring;
  FormulaFailFatal : bool;
  CallerContext : gostring;
  NoConvoy : bool;
  NoBoot : bool;
  TownRoot : gostring;
  BeadsDir : gostring;
  FormulaName : gostring;
  Args : gostring;
  Vars : list gostring;
  Merge : gostring;
  BaseBranch : gostring;
  NoMerge : bool;
  Account : gostring;
  Agent : gostring;
  HookRawBead : bool
}.

(** What a dispatch does to the outside world. *)
Inductive Action :=
| BdSetDescription (id desc : gostring)
    (* bd update id --description=desc *)
| BdSwapLabels (id add remove : gostring)
    (* bd update id --add-label=add --remove-label=remove *)
| Sling (p : SlingParams)                  (* executeSling(params) *)
| Sleep (d : Z)                            (* time.Sleep(spawnDelay) *)
| WakeRig (rig : gostring)                 (* wakeRigAgents(rig) *)
| SaveState (s : QState.QueueState).       (* SaveQueueState(townRoot, s) *)

(** The actions of a run in order, each with whether it went through. *)
Definition Trace := list (Action * bool).

(** The values of the work-queue configuration the cycle reads. *)
Record QueueCfg := mkCfg {
  Enabled : bool;
  MaxPolecats : Z;     (* GetMaxPolecats() *)
  BatchSize : Z;       (* GetBatchSize() *)
  SpawnDelay : Z       (* GetSpawnDelay() *)
}.

(** Everything the cycle asks of its collaborators. *)
Record Env := mkEnv {
  (* fileLock.TryLock(): an error, or whether the lock was taken *)
  tryLock : option bool;
  (* the first LoadQueueState and the reload after the batch *)
  firstLoad : option QState.QueueState;
  reload : option QState.QueueState;
  (* LoadOrCreateTownSettings: an error, or settings.Queue (maybe nil) *)
  townSettings : option (option QueueCfg);
  defaultCfg : QueueCfg;                   (* DefaultWorkQueueConfig() *)
  daemonDispatch : bool;                   (* isDaemonDispatch() *)
  activePolecats : Z;                      (* countActivePolecats() *)
  (* what bd ready printed in each directory of beadsSearchDirs *)
  readyDirs : list (option (list rawBead));
  (* whether the bd update issued as the n-th action goes through *)
  bdOk : nat -> bool;
  (* executeSling: the error text, or the name of the spawned polecat *)
  executeSling : SlingParams -> gostring + gostring;
  saveOk : bool;                           (* SaveQueueState returned nil *)
  nowRFC3339 : gostring;
  joinPath : gostring -> gostring -> gostring   (* filepath.Join *)
}.

Definition dispatchFailedLabel : gostring := str "gt:dispatch-failed".
Definition dispatchedLabel : gostring := str "gt:queue-dispatched".

Section WithEnv.
Variable env : Env.

(** [cmd.Run()] of a [bd update], appended to the trace. *)
Definition runBd (a : Action) (tr : Trace) : Trace :=
  tr ++ [(a, bdOk env (List.length tr))].

(** [recordDispatchFailure(b, dispatchErr)]; [err] is [dispatchErr.Error()].
    The counter is an [int]; printing is left out. *)
Definition bumpFailure (description err : gostring) : Meta.QueueMetadata :=
  let meta := match Meta.ParseQueueMetadata description with
              | Some m => m
              | None => Meta.zeroMeta
              end in
  Meta.setLastFailure err
    (Meta.setDispatchFailures (wrap64 (Meta.DispatchFailures meta + 1)) meta).

Definition recordDispatchFailure (b : readyQueuedBead) (err : gostring)
    (tr : Trace) : Trace :=
  let meta := bumpFailure (Description b) err in
  let baseDesc := Meta.StripQueueMetadata (Description b) in
  let newDesc := Enqueue.appendBlock baseDesc (Meta.FormatQueueMetadata meta) in
  let tr := runBd (BdSetDescription (ID b) newDesc) tr in
  if (Meta.DispatchFailures meta >=? maxDispatchFailures)%Z
  then runBd (BdSwapLabels (ID b) dispatchFailedLabel Enqueue.LabelQueued) tr
  else tr.

(** The parameters rebuilt from the metadata. *)
Definition slingParams (b : readyQueuedBead) (meta : Meta.QueueMetadata)
    (townRoot : gostring) : SlingParams :=
  let rigName := if isEmpty (TargetRig b) then Meta.TargetRig meta
                 else TargetRig b in
  mkParams (ID b) rigName true (str "queue-dispatch") true true townRoot
    (joinPath env townRoot (str ".beads"))
    (Meta.Formula meta) (Meta.Args meta)
    (if negb (isEmpty (Meta.Vars meta)) then Ready.splitVars (Meta.Vars meta)
     else [])
    (Meta.Merge meta) (Meta.BaseBranch meta) (Meta.NoMerge meta)
    (Meta.Account meta) (Meta.Agent meta) (Meta.HookRawBead meta).

(** [dispatchSingleBead(b, townRoot, actor)]: the error text ([None] for
    nil) and the trace.  The event feed is left out. *)
Definition dispatchSingleBead (b : readyQueuedBead) (townRoot : gostring)
    (tr : Trace) : option gostring * Trace :=
  let quarantine :=
    (Some (str "missing queue metadata or target_rig"),
     runBd (BdSwapLabels (ID b) dispatchFailedLabel Enqueue.LabelQueued) tr) in
  match Meta.ParseQueueMetadata (Description b) with
  | None => quarantine
  | Some meta =>
      if isEmpty (Meta.TargetRig meta) then quarantine
      else
        let params := slingParams b meta townRoot in
        match executeSling env params with
        | inl err =>
            let tr := tr ++ [(Sling params, false)] in
            (Some (str "sling failed: " ++ err),
             recordDispatchFailure b err tr)
        | inr _ =>
            let tr := tr ++ [(Sling params, true)] in
            let cleanDesc := Meta.StripQueueMetadata (Description b) in
            let tr := if negb (streq cleanDesc (Description b))
                      then runBd (BdSetDescription (ID b) cleanDesc) tr
                      else tr in
            (None,
             runBd (BdSwapLabels (ID b) dispatchedLabel Enqueue.LabelQueued)
               tr)
        end
  end.

(** The loop [for i := 0; i < toDispatch; i++] over the beads it visits
    ([readyBeads[:toDispatch]]): the count of successes, the rigs that had
    one (in order of first success), and the trace.  The delay is slept
    after a success that is not the last visit. *)
Fixpoint dispatchLoop (beads : list readyQueuedBead) (townRoot : gostring)
    (spawnDelay : Z) (dispatched : Z) (rigs : list gostring) (tr : Trace)
    : Z * list gostring * Trace :=
  match beads with
  | [] => (dispatched, rigs, tr)
  | b :: rest =>
      match dispatchSingleBead b townRoot tr with
      | (Some _, tr') =>
          dispatchLoop rest townRoot spawnDelay dispatched rigs tr'
      | (None, tr') =>
          let rigs' :=
            if negb (isEmpty (TargetRig b))
               && negb (existsb (streq (TargetRig b)) rigs)
            then rigs ++ [TargetRig b] else rigs in
          let tr'' :=
            if negb (Nat.eqb (List.length rest) 0) && (spawnDelay >? 0)%Z
            then tr' ++ [(Sleep spawnDelay, true)] else tr' in
          dispatchLoop rest townRoot spawnDelay (dispatched + 1) rigs' tr''
      end
  end.

Inductive cycleError :=
| ErrLock            (* "acquiring dispatch lock: %w" *)
| ErrLoadState       (* "loading queue state: %w" *)
| ErrSettings        (* "loading town settings: %w" *)
| ErrReady.          (* "querying ready beads: %w" *)

(** [dispatchQueuedWork(townRoot, actor, batchOverride, maxPolOverride,
    dryRun)]: the count, the error and the trace.  The set of successful
    rigs is woken in the order of first success (Go leaves the order of a
    map open). *)
Definition dispatchQueuedWork (townRoot : gostring)
    (batchOverride maxPolOverride : Z) (dryRun : bool)
    : Z * option cycleError * Trace :=
  match tryLock env with
  | None => (0%Z, Some ErrLock, [])
  | Some false => (0%Z, None, [])
  | Some true =>
  match firstLoad env with
  | None => (0%Z, Some ErrLoadState, [])
  | Some queueState =>
  if QState.Paused queueState then (0%Z, None, [])
  else
  match townSettings env with
  | None => (0%Z, Some ErrSettings, [])
  | Some queue =>
  let queueCfg := match queue with
                  | Some c => c
                  | None => defaultCfg env
                  end in
  if negb (Enabled queueCfg) && negb dryRun && daemonDispatch env
  then (0%Z, None, [])
  else
  let maxPolecats := if (maxPolOverride >? 0)%Z then maxPolOverride
                     else MaxPolecats queueCfg in
  let batchSize := if (batchOverride >? 0)%Z then batchOverride
                   else BatchSize queueCfg in
  let spawnDelay := SpawnDelay queueCfg in
  let capacity := if (maxPolecats >? 0)%Z
                  then wrap64 (maxPolecats - activePolecats env)
                  else 0%Z in
  if (maxPolecats >? 0)%Z && (capacity <=? 0)%Z then (0%Z, None, [])
  else
  match Ready.getReadyQueuedBeads (readyDirs env) with
  | None => (0%Z, Some ErrReady, [])
  | Some readyBeads =>
  if Nat.eqb (List.length readyBeads) 0 then (0%Z, None, [])
  else
  let toDispatch :=
    computeDispatchCount capacity batchSize
      (Z.of_nat (List.length readyBeads)) in
  if dryRun then (0%Z, None, [])
  else
  let '(dispatched, rigs, tr) :=
    dispatchLoop (firstn (Z.to_nat toDispatch) readyBeads) townRoot
      spawnDelay 0 [] [] in
  let tr := tr ++ map (fun rig => (WakeRig rig, true)) rigs in
  let tr :=
    if (dispatched >? 0)%Z then
      match reload env with
      | None => tr
      | Some freshState =>
          tr ++ [(SaveState
                    (QState.RecordDispatch dispatched (nowRFC3339 env)
                       freshState),
                  saveOk env)]
      end
    else tr in
  (dispatched, None, tr)
  end end end end.

End WithEnv.

End Run.

(* ================================================================== *)
(** * Notions of the specification *)
(* ================================================================== *)

Module Spec.
Import GoStr.

(** [clamp(x, lo, hi)] as the specification of the idle wait words it. *)
Definition clampSleep (backoff lo hi : Z) : Z := Z.min hi (Z.max lo backoff).

(** "A bead whose description parses to metadata with
    dispatch_failures >= 3". *)
Definition breakerTripped (description : gostring) : bool :=
  match Meta.ParseQueueMetadata description with
  | Some meta => (3 <=? Meta.DispatchFailures meta)%Z
  | None => false
  end.

(** The ready-set entry made from a store record. *)
Definition toReady (r : Dispatch.rawBead) : Dispatch.readyQueuedBead :=
  Dispatch.mkReady (Dispatch.rawID r) (Dispatch.rawTitle r)
    (match Meta.ParseQueueMetadata (Dispatch.rawDescription r) with
     | Some meta => Meta.TargetRig meta
     | None => []
     end)
    (Dispatch.rawDescription r) (Dispatch.rawLabels r).

(** The lines of the metadata block: what follows the first delimiter. *)
Definition blockLines (description : gostring) : list gostring :=
  match Index description Meta.queueMetadataDelimiter with
  | None => []
  | Some idx =>
      Split (skipn (idx + List.length Meta.queueMetadataDelimiter) description)
        nl
  end.

(** The key and value the parser reads off one line, if it has both. *)
Definition lineKV (raw : gostring) : option (gostring * gostring) :=
  match SplitN2 (TrimSpace raw) (str ": ") with
  | [p0; p1] => Some (TrimSpace p0, TrimSpace p1)
  | _ => None
  end.

Definition failuresKey : gostring := str "dispatch_failures".

(** A line that cannot set the counter: not a [dispatch_failures] line, or
    one whose value [Atoi] rejects. *)
Definition lineHarmless (raw : gostring) : bool :=
  match lineKV raw with
  | Some (k, v) =>
      if streq k failuresKey
      then match Atoi v with Some _ => false | None => true end
      else true
  | None => true
  end.

(** "The dispatch_failures value does not parse as an integer": no
    [dispatch_failures] line of the block carries a value [Atoi] accepts. *)
Definition counterCorrupted (description : gostring) : bool :=
  forallb lineHarmless (blockLines description).

(** ** Records the codec carries unchanged *)

(** A byte below 0x80 that is not one of the six ASCII spaces. *)
Definition asciiByte (c : ascii) : bool := (nat_of_ascii c <? 128)%nat.
Definition plain (c : ascii) : bool := asciiByte c && negb (space1 c).

(** A key of the block: plain bytes, no colon, not starting like the
    delimiter. *)
Definition keyOk (k : gostring) : bool :=
  match k with
  | [] => false
  | c :: _ =>
      negb (Ascii.eqb c "-"%char)
      && forallb (fun c => plain c && negb (Ascii.eqb c ":"%char)) k
  end.

(** No line break inside. *)
Definition noNl (l : gostring) : bool := negb (existsb (Ascii.eqb nl) l).

(** A string value survives a line of the block when it has no white space
    at either end and no line break inside. *)
Definition cleanValue (v : gostring) : bool :=
  streq (TrimSpace v) v && noNl v.

(** [Vars] survives when it is empty or each of its lines is non-blank and
    has no white space at either end. *)
Definition cleanVar (v : gostring) : bool :=
  negb (isEmpty v) && streq (TrimSpace v) v.

Definition cleanVars (vars : gostring) : bool :=
  isEmpty vars || forallb cleanVar (Split vars nl).

Definition wellFormed (m : Meta.QueueMetadata) : bool :=
  cleanValue (Meta.TargetRig m)
  && cleanValue (Meta.Formula m)
  && cleanValue (Meta.Args m)
  && cleanVars (Meta.Vars m)
  && cleanValue (Meta.EnqueuedAt m)
  && cleanValue (Meta.Merge m)
  && cleanValue (Meta.Convoy m)
  && cleanValue (Meta.BaseBranch m)
  && cleanValue (Meta.Account m)
  && cleanValue (Meta.Agent m)
  && cleanValue (Meta.LastFailure m)
  && ((0 <=? Meta.DispatchFailures m) && (Meta.DispatchFailures m <=? maxInt64))%Z.

End Spec.

(* ================================================================== *)
(** * Notions used by the further properties *)
(* ================================================================== *)

Module SpecMore.
Import GoStr.

(** Text without a byte from 0x80 up, on which [strings.ToLower] is the
    byte-wise lowering of [A-Z]. *)
Definition isASCII (s : gostring) : bool := forallb Spec.asciiByte s.

(** A child [gt queue epic] enqueues: not closed, not assigned (unless
    forced), not already queued. *)
Definition queueable (force : bool) (c : Epic.epicChild) : bool :=
  negb (streq (Epic.Status c) (str "closed")
        || streq (Epic.Status c) (str "tombstone"))
  && negb (negb (isEmpty (Epic.Assignee c)) && negb force)
  && negb (Epic.hasQueuedLabel (Epic.Labels c)).

Definition isClosed (c : Epic.epicChild) : bool :=
  streq (Epic.Status c) (str "closed")
  || streq (Epic.Status c) (str "tombstone").

(** The keys [ParseQueueMetadata] acts on or knowingly skips. *)
Definition recognizedKeys : list gostring :=
  map str
    [ "target_rig"; "formula"; "args"; "var"; "vars"; "enqueued_at"; "merge";
      "convoy"; "base_branch"; "no_merge"; "account"; "agent";
      "hook_raw_bead"; "no_boot"; "owned"; "dispatch_failures";
      "last_failure" ]%string.

Definition unknownKey (k : gostring) : bool :=
  forallb (fun r => negb (streq k r)) recognizedKeys.

(** Some line of the list is the delimiter: the parser's loop breaks. *)
Definition stops (lines : list gostring) : bool :=
  existsb (fun raw => streq (TrimSpace raw) Meta.queueMetadataDelimiter) lines.

(** The convoy an enqueue of [id] creates for a bead titled [title], with
    the record the store gets for it: none with [NoConvoy], none for a bead
    that a convoy tracks already, none when the creation fails. *)
Definition convoyCreated (env : Enqueue.Env) (opts : Enqueue.Opt.EnqueueOptions)
    (id title : gostring) : option (gostring * Enqueue.Bead) :=
  if negb (Enqueue.Opt.NoConvoy opts)
     && isEmpty (Enqueue.isTrackedByConvoy env id)
  then Enqueue.createAutoConvoy env id title (Enqueue.Opt.Owned opts)
         (Enqueue.Opt.Merge opts)
  else None.





(** The loop invariant of [getReadyQueuedBeads]: [seen] holds the IDs of
    [result], and no ID twice. *)
Definition coherent (seen : list gostring)
    (result : list Dispatch.readyQueuedBead) : Prop :=
  (forall id, In id seen <-> In id (map Dispatch.ID result))
  /\ NoDup (map Dispatch.ID result).

End SpecMore.

(* ================================================================== *)
(** * Notions used by the properties of a dispatch cycle *)
(* ================================================================== *)

Module SpecRun.
Import GoStr Run.

(** The parameters of the executor calls of a trace, in order. *)
Definition slings (tr : Trace) : list SlingParams :=
  flat_map (fun e => match fst e with Sling p => [p] | _ => [] end) tr.

(** Those of the calls that went through. *)
Definition okSlings (tr : Trace) : list SlingParams :=
  flat_map (fun e => match e with (Sling p, true) => [p] | _ => [] end) tr.

(** The descriptions handed to [bd update --description], with the bead. *)
Definition descriptions (tr : Trace) : list (gostring * gostring) :=
  flat_map (fun e => match fst e with
                     | BdSetDescription id d => [(id, d)]
                     | _ => []
                     end) tr.

(** The label swaps asked of [bd update]: bead, label added, label removed. *)
Definition swaps (tr : Trace) : list (gostring * gostring * gostring) :=
  flat_map (fun e => match fst e with
                     | BdSwapLabels id add remove => [(id, add, remove)]
                     | _ => []
                     end) tr.

(** The rigs woken and the states handed to [SaveQueueState]. *)
Definition woken (tr : Trace) : list gostring :=
  flat_map (fun e => match fst e with WakeRig r => [r] | _ => [] end) tr.

Definition saved (tr : Trace) : list QState.QueueState :=
  flat_map (fun e => match fst e with SaveState s => [s] | _ => [] end) tr.

(** The bead's description holds metadata that names a rig. *)
Definition hasTarget (b : Dispatch.readyQueuedBead) : bool :=
  match Meta.ParseQueueMetadata (Dispatch.Description b) with
  | Some meta => negb (isEmpty (Meta.TargetRig meta))
  | None => false
  end.

(** The limits a cycle works with: the override when positive, else the
    configured value (of the default configuration when the town has
    none). *)
Definition queueCfgOf (env : Env) : option QueueCfg :=
  match townSettings env with
  | Some (Some c) => Some c
  | Some None => Some (defaultCfg env)
  | None => None
  end.

Definition effectiveMax (env : Env) (maxPolOverride : Z) : Z :=
  if (maxPolOverride >? 0)%Z then maxPolOverride
  else match queueCfgOf env with
       | Some c => MaxPolecats c
       | None => 0%Z
       end.

Definition effectiveBatch (env : Env) (batchOverride : Z) : Z :=
  if (batchOverride >? 0)%Z then batchOverride
  else match queueCfgOf env with
       | Some c => BatchSize c
       | None => 0%Z
       end.

(** What every queue dispatch fixes in the parameters: a rig, rollback on
    a formula failure, no new convoy, no boot. *)
Definition queueParams (p : SlingParams) : Prop :=
  RigName p <> []
  /\ FormulaFailFatal p = true
  /\ NoConvoy p = true
  /\ NoBoot p = true
  /\ CallerContext p = str "queue-dispatch".

(** A bead as the ready query builds it: its rig is the one its metadata
    names, and empty without metadata. *)
Definition consistent (b : Dispatch.readyQueuedBead) : Prop :=
  Dispatch.TargetRig b
  = match Meta.ParseQueueMetadata (Dispatch.Description b) with
    | Some meta => Meta.TargetRig meta
    | None => []
    end.

End SpecRun.

(* ================================================================== *)
(** * A small town for concrete runs *)
(* ================================================================== *)

Module Scenario.
Import GoStr Enqueue.

(** A town with one rig, [rig1], in which [bd] refuses the second update of
    the process (for an enqueue: the label add). *)
Definition town : Env :=
  mkEnv (Some (str "/town"))
        (fun rig => streq rig (str "rig1"))
        (fun _ _ _ => true)
        (fun _ => true)
        (fun _ => true)
        (str "2026-01-15T10:00:00Z")
        (fun n => negb (Nat.eqb n 1))
        (fun _ => [])
        (fun _ _ _ _ => None).


(** An open bead that was quarantined after three failed dispatches: the
    metadata block is still in its description, [gt:queued] is gone. *)
Definition quarantined : Bead :=
  mkBead (str "open") []
         [str "gt:dispatch-failed"]
         (str "Fix the parser
---gt:queue:v1---
target_rig: rig1
enqueued_at: 2026-01-10T08:00:00Z
dispatch_failures: 3
last_failure: sling failed")
         (str "Fix the parser").

(** An open bead without queue metadata. *)
Definition fresh : Bead :=
  mkBead (str "open") [] [] (str "Write the docs") (str "Write the docs").

(** An actively queued bead. *)
Definition queued : Bead :=
  mkBead (str "open") []
         [str "gt:queued"]
         (str "Ship it
---gt:queue:v1---
target_rig: rig1
enqueued_at: 2026-01-10T08:00:00Z")
         (str "Ship it").

Definition beads : Store :=
  fun id =>
    if streq id (str "b1") then Some quarantined
    else if streq id (str "b2") then Some fresh
    else if streq id (str "q1") then Some queued
    else None.

Definition world0 : World := mkWorld beads [].

Definition plainOpts : Opt.EnqueueOptions :=
  Opt.mk [] [] [] [] [] true false false false false [] [] false.

End Scenario.

Module Scenario2.
Import GoStr Enqueue.

(** A town in which every [bd update] goes through and a convoy, [hq-cv-1],
    is created for every bead that has none. *)
Definition calmTown : Env :=
  mkEnv (Some (str "/town"))
        (fun rig => streq rig (str "rig1"))
        (fun _ _ _ => true)
        (fun _ => true)
        (fun _ => true)
        (str "2026-01-15T10:00:00Z")
        (fun _ => true)
        (fun _ => [])
        (fun _ title _ _ =>
           Some (str "hq-cv-1",
                 mkBead (str "open") [] [] [] (str "Work: " ++ title))).

Definition workOpts : Opt.EnqueueOptions :=
  Opt.mk (str "mol-polecat-work") (str "do the thing")
         [str "a=1"; str "b=2"] [] [] false false false false false [] []
         false.

End Scenario2.

(* ================================================================== *)
(** * A town with three queued beads, used to exercise a dispatch cycle *)
(* ================================================================== *)

Module Scenario3.
Import GoStr Dispatch.

Definition metaFor (rig : string) (failures : Z) : Meta.QueueMetadata :=
  Meta.setDispatchFailures failures
    (Meta.setEnqueuedAt (str "2026-01-02T03:04:05Z")
       (Meta.setTargetRig (str rig) Meta.zeroMeta)).

Definition queuedFor (rig : string) (failures : Z) : gostring :=
  Enqueue.appendBlock (str "Fix it")
    (Meta.FormatQueueMetadata (metaFor rig failures)).

Definition good : rawBead :=
  mkRaw (str "gt-good") (str "Good") (queuedFor "depot" 0) [str "gt:queued"].

(** The executor refuses this one; it has failed twice before. *)
Definition hooked : rawBead :=
  mkRaw (str "gt-hooked") (str "Hooked") (queuedFor "depot" 2)
    [str "gt:queued"].

(** Labelled by hand: no metadata. *)
Definition bare : rawBead :=
  mkRaw (str "gt-bare") (str "Bare") (str "No block here") [str "gt:queued"].

Definition other : rawBead :=
  mkRaw (str "gt-other") (str "Other") (queuedFor "yard" 0) [str "gt:queued"].

(** Three slots of four are free, every [bd update] goes through, and the
    executor refuses [gt-hooked] only. *)
Definition depot : Run.Env :=
  Run.mkEnv (Some true) (Some QState.zeroState)
    (Some (QState.SetPaused (str "mayor") (str "2026-01-02T03:05:00Z")
             QState.zeroState))
    (Some (Some (Run.mkCfg true 4 5 1000000000))) (Run.mkCfg false 0 0 0)
    false 1
    [Some [bare; hooked; good]; None; Some [good; other]]
    (fun _ => true)
    (fun p => if streq (Run.BeadID p) (str "gt-hooked")
              then inl (str "bead already hooked")
              else inr (str "polecat-1"))
    true (str "2026-01-02T03:06:00Z")
    (fun a b => a ++ str "/" ++ b).

Definition root : gostring := str "/town".

End Scenario3.
Module MetaTests.
Import GoStr Meta.

Example parse_preamble :
  option_map TargetRig (ParseQueueMetadata (str
    "This is a task description.
---gt:queue:v1---
target_rig: myrig
formula: test-formula")) = Some (str "myrig").
Proof. vm_compute. reflexivity. Qed.

Example strip_user_content :
  StripQueueMetadata (str "User wrote ---gt:queue:v1--- as text
---gt:queue:v1---
target_rig: rig1") = str "User wrote ".
Proof. vm_compute. reflexivity. Qed.

Example roundtrip_test :
  let m := mkMeta (str "myrig") (str "mol-polecat-work") (str "do the thing")
             (str "x=1
y=2") (str "2026-01-15T10:00:00Z") (str "mr") (str "hq-cv-abc") (str "main")
             true (str "test-acct") (str "codex") true true 1
             (str "sling failed: rig not found") in
  ParseQueueMetadata (FormatQueueMetadata m) = Some m.
Proof. vm_compute. reflexivity. Qed.

Example corrupted_counter :
  option_map DispatchFailures (ParseQueueMetadata (str
    "---gt:queue:v1---
target_rig: rig1
dispatch_failures: not_a_number")) = Some 0%Z.
Proof. vm_compute. reflexivity. Qed.

End MetaTests.

(* ================================================================== *)
(** * Dispatch count, backoff, idle wait, wake policy *)
(* ================================================================== *)

Section Arithmetic.
Import GoStr Idle.
Local Open Scope Z_scope.

Lemma wrap64_id (z : Z) : inInt64 z -> wrap64 z = z.
Proof.
  unfold inInt64, wrap64, minInt64, maxInt64. intros H.
  rewrite Z.mod_small by lia. lia.
Qed.

(** C3. For non-negative arguments, [computeDispatchCount] is the minimum of
    batch size and ready count when the capacity is 0 (unlimited), and the
    minimum of all three when the capacity is positive. *)
Theorem computeDispatchCount_min (capacity batchSize readyCount : Z) :
  0 <= capacity -> 0 <= batchSize -> 0 <= readyCount ->
  (capacity = 0 ->
   Dispatch.computeDispatchCount capacity batchSize readyCount
   = Z.min batchSize readyCount)
  /\ (capacity > 0 ->
      Dispatch.computeDispatchCount capacity batchSize readyCount
      = Z.min capacity (Z.min batchSize readyCount)).
Proof.
  intros Hc Hb Hr. unfold Dispatch.computeDispatchCount.
  split; intros Hcap.
  - subst capacity. cbn [Z.gtb Z.compare andb].
    destruct (Z.ltb_spec readyCount batchSize); lia.
  - destruct (Z.gtb_spec capacity 0); [|lia].
    cbn [andb].
    destruct (Z.ltb_spec capacity batchSize).
    + destruct (Z.ltb_spec readyCount capacity); lia.
    + destruct (Z.ltb_spec readyCount batchSize); lia.
Qed.

Lemma computeDispatchCount_min_witness :
  Dispatch.computeDispatchCount 0 3 10 = Z.min 3 10
  /\ Dispatch.computeDispatchCount 4 10 20 = Z.min 4 (Z.min 10 20).
Proof.
  split.
  - apply (proj1 (computeDispatchCount_min 0 3 10
                    ltac:(lia) ltac:(lia) ltac:(lia))). reflexivity.
  - apply (proj2 (computeDispatchCount_min 4 10 20
                    ltac:(lia) ltac:(lia) ltac:(lia))). lia.
Defined.

(** C4, as stated, fails where the doubling leaves [int64]: at
    [current = 2^62] ns the product wraps to [-2^63], which is not above the
    cap and is returned as it is, not the 5 min cap. *)
Lemma nextBackoffInterval_overflow :
  inInt64 (2 ^ 62) /\ 5 * Minute <= 2 ^ 62
  /\ nextBackoffInterval (2 ^ 62) = - 2 ^ 63
  /\ nextBackoffInterval (2 ^ 62) <> Z.min (2 ^ 62 * 2) (5 * Minute).
Proof.
  unfold inInt64, minInt64, maxInt64. vm_compute.
  repeat split; intros; discriminate.
Qed.

(** C4, amended. For every duration below [2^62] ns (so that doubling stays
    inside [int64]), [nextBackoffInterval] is 30 s below 30 s and otherwise
    the smaller of the double and 5 min; the table of the specification
    holds, the last row for every duration from 5 min up to that bound. *)
Theorem nextBackoffInterval_step (current : Z) :
  current < 2 ^ 62 ->
  nextBackoffInterval current
  = (if current <? 30 * Second then 30 * Second
     else Z.min (current * 2) (5 * Minute))
  /\ nextBackoffInterval 0 = 30 * Second
  /\ nextBackoffInterval (30 * Second) = 60 * Second
  /\ nextBackoffInterval (60 * Second) = 120 * Second
  /\ nextBackoffInterval (2 * Minute) = 4 * Minute
  /\ nextBackoffInterval (4 * Minute) = 5 * Minute
  /\ (5 * Minute <= current -> nextBackoffInterval current = 5 * Minute).
Proof.
  intros Hb.
  assert (Hgen : nextBackoffInterval current
                 = (if current <? 30 * Second then 30 * Second
                    else Z.min (current * 2) (5 * Minute))).
  { unfold nextBackoffInterval. cbv zeta.
    destruct (Z.ltb_spec current (30 * Second)) as [Hlt|Hge]; [reflexivity|].
    unfold Second in Hge.
    rewrite wrap64_id by (unfold inInt64, minInt64, maxInt64; lia).
    destruct (Z.gtb_spec (current * 2) (5 * Minute)); lia. }
  split; [exact Hgen|].
  repeat (split; [vm_compute; reflexivity|]).
  intros H5. rewrite Hgen.
  unfold Minute, Second in *.
  destruct (Z.ltb_spec current (30 * 1000000000)); lia.
Qed.

Lemma nextBackoffInterval_step_witness :
  nextBackoffInterval (10 * Minute) = 5 * Minute.
Proof.
  refine (proj2 (proj2 (proj2 (proj2 (proj2 (proj2
    (nextBackoffInterval_step (10 * Minute) _)))))) _);
  vm_compute; [reflexivity | discriminate].
Defined.

(** C5, as stated, fails for a backoff strictly between 0 and 30 s: with
    10 s and the default [--max] of 5 min the command sleeps 10 s, below the
    30 s floor of the clamp. *)
Lemma idleWaitSleep_below_floor :
  let st := mkIdle true 0 0 false (10 * Second) in
  idleWaitSleep (Some st) (5 * Minute) = Some (10 * Second)
  /\ idleWaitSleep (Some st) (5 * Minute)
     <> Some (Spec.clampSleep (BackoffInterval st) (30 * Second) (5 * Minute)).
Proof. vm_compute. split; [reflexivity | discriminate]. Qed.

(** C5, amended. For an idle state and every [--max], the sleep is the
    smaller of [--max] and B', where B' is 30 s for a backoff that is not
    positive and the backoff itself otherwise.  So it never exceeds
    [--max]; it is the backoff clamped to [30s, max] when the backoff is at
    least 30 s or is not positive (and [max] is at least 30 s); a backoff
    strictly between 0 and 30 s is not raised: the sleep is the smaller of
    it and [--max]. *)
Theorem idleWaitSleep_clamp (st : IdleState) (idleWaitMax : Z) :
  IsIdle st = true ->
  exists sleep,
    idleWaitSleep (Some st) idleWaitMax = Some sleep
    /\ sleep <= idleWaitMax
    /\ (30 * Second <= idleWaitMax ->
        (BackoffInterval st <= 0 \/ 30 * Second <= BackoffInterval st) ->
        sleep = Spec.clampSleep (BackoffInterval st) (30 * Second) idleWaitMax
        /\ 30 * Second <= sleep)
    /\ (0 < BackoffInterval st < 30 * Second ->
        sleep = Z.min (BackoffInterval st) idleWaitMax)
    /\ sleep
       = Z.min idleWaitMax
           (if BackoffInterval st <=? 0 then 30 * Second
            else BackoffInterval st).
Proof.
  intros Hidle. unfold idleWaitSleep. rewrite Hidle. cbn [negb]. cbv zeta.
  eexists. split; [reflexivity|]. unfold Spec.clampSleep, Second.
  destruct (Z.leb_spec (BackoffInterval st) 0);
    match goal with
    | |- context [?a >? ?b] => destruct (Z.gtb_spec a b)
    end; repeat split; intros; lia.
Qed.

Lemma idleWaitSleep_clamp_witness :
  exists sleep,
    idleWaitSleep (Some (mkIdle true 0 0 false (2 * Minute))) (1 * Minute)
    = Some sleep /\ sleep <= 1 * Minute.
Proof.
  destruct (idleWaitSleep_clamp (mkIdle true 0 0 false (2 * Minute))
              (1 * Minute) eq_refl) as [sleep [H1 [H2 _]]].
  exists sleep. split; assumption.
Defined.

End Arithmetic.

Section WakePolicy.
Import GoStr Idle UsageLimit.
Local Open Scope Z_scope.

(** C6. [ShouldWake] is true exactly when the limit is active, the clock is at
    or past [ResetAt] plus the 2-minute buffer, fewer than 3 wake attempts
    were made, and the last attempt is the zero time or lies at least the
    5-minute cooldown back. *)
Theorem ShouldWake_iff (s : State) (now : Time) :
  ShouldWake s now = true <->
  Active s = true
  /\ ResetAt s + 2 * Minute <= now
  /\ WakeAttempts s < 3
  /\ (LastWakeAttempt s = 0 \/ 5 * Minute <= now - LastWakeAttempt s).
Proof.
  unfold ShouldWake, Add, Before, IsZero, Sub, WakeBuffer, MaxWakeAttempts,
    WakeAttemptCooldown, maxInt64, minInt64, Minute, Second.
  destruct (Active s); cbn [negb]; [|intuition discriminate].
  destruct (Z.ltb_spec now (ResetAt s + 2 * (60 * 1000000000)));
    [split; [discriminate | lia]|].
  destruct (Z.geb_spec (WakeAttempts s) 3);
    [split; [discriminate | lia]|].
  destruct (Z.eqb_spec (LastWakeAttempt s) 0); cbn [negb andb];
    [split; intros; [repeat split; auto; lia | reflexivity]|].
  destruct (Z.gtb_spec (now - LastWakeAttempt s) (2 ^ 63 - 1)).
  - cbn. split; intros; [repeat split; auto; lia | reflexivity].
  - destruct (Z.ltb_spec (now - LastWakeAttempt s) (- 2 ^ 63)).
    + cbn. split; [discriminate | lia].
    + destruct (Z.ltb_spec (now - LastWakeAttempt s) (5 * (60 * 1000000000))).
      * split; [discriminate | lia].
      * split; intros; [repeat split; auto; lia | reflexivity].
Qed.

End WakePolicy.

(* ================================================================== *)
(** * Facts about the string functions *)
(* ================================================================== *)

Module StrFacts.
Import GoStr.

Lemma streq_refl (a : gostring) : streq a a = true.
Proof.
  induction a as [|c a IH]; cbn; [reflexivity|].
  rewrite Ascii.eqb_refl. exact IH.
Qed.

Lemma streq_eq (a b : gostring) : streq a b = true <-> a = b.
Proof.
  split; [|intros ->; apply streq_refl].
  revert b. induction a as [|c a IH]; intros [|d b]; cbn; try discriminate; auto.
  intros H. apply andb_true_iff in H. destruct H as [Hc Hr].
  apply Ascii.eqb_eq in Hc. f_equal; auto.
Qed.

Lemma HasPrefix_app (p t : gostring) : HasPrefix (p ++ t) p = true.
Proof.
  induction p as [|c p IH]; cbn; [reflexivity|].
  rewrite Ascii.eqb_refl. exact IH.
Qed.

Lemma HasPrefix_inv (s p : gostring) :
  HasPrefix s p = true -> exists t, s = p ++ t.
Proof.
  revert s. induction p as [|c p IH]; intros s H; cbn in *.
  - exists s. reflexivity.
  - destruct s as [|d s]; [discriminate|].
    apply andb_true_iff in H. destruct H as [Hc Hr].
    apply Ascii.eqb_eq in Hc. subst d.
    destruct (IH _ Hr) as [t ->]. exists t. reflexivity.
Qed.

(** A prefix of [s] that starts with [sep] makes [s] start with [sep]. *)
Lemma HasPrefix_extend (p t sep : gostring) :
  HasPrefix p sep = true -> HasPrefix (p ++ t) sep = true.
Proof.
  intros H. destruct (HasPrefix_inv _ _ H) as [u ->].
  rewrite <- app_assoc. apply HasPrefix_app.
Qed.

Lemma Index_nil (sep : gostring) : sep <> [] -> Index [] sep = None.
Proof. destruct sep; [congruence | reflexivity]. Qed.

(** No occurrence in a string, none in its prefixes. *)
Lemma Index_None_prefix (p t sep : gostring) :
  Index (p ++ t) sep = None -> Index p sep = None.
Proof.
  induction p as [|c p IH]; intros H.
  - destruct sep as [|d sep]; [|reflexivity].
    destruct t; cbn in H; discriminate.
  - cbn [app] in H. cbn [Index] in *.
    destruct (HasPrefix (c :: p ++ t) sep) eqn:Hp; [discriminate|].
    destruct (HasPrefix (c :: p) sep) eqn:Hq.
    + apply (HasPrefix_extend _ t) in Hq. cbn [app] in Hq. congruence.
    + destruct (Index (p ++ t) sep); [discriminate|].
      rewrite IH; reflexivity.
Qed.

(** The text before the first occurrence holds no occurrence. *)
Lemma Index_firstn (s sep : gostring) (i : nat) :
  sep <> [] -> Index s sep = Some i -> Index (firstn i s) sep = None.
Proof.
  intros Hsep. revert i. induction s as [|c s IH]; intros i H.
  - rewrite Index_nil in H by assumption. discriminate.
  - cbn [Index] in H.
    destruct (HasPrefix (c :: s) sep) eqn:Hp.
    + injection H as <-. cbn. apply Index_nil. assumption.
    + destruct (Index s sep) as [j|] eqn:Hj; [|discriminate].
      injection H as <-. cbn [firstn Index].
      destruct (HasPrefix (c :: firstn j s) sep) eqn:Hq.
      * apply (HasPrefix_extend _ (skipn j s)) in Hq.
        cbn [app] in Hq. rewrite firstn_skipn in Hq. congruence.
      * rewrite (IH j eq_refl). reflexivity.
Qed.

(** [Index] finds every occurrence: when it answers -1 the string cannot be
    cut as [a ++ sep ++ b]. *)
Lemma Index_None_occurrence (s sep : gostring) :
  Index s sep = None -> forall a b, s <> a ++ sep ++ b.
Proof.
  intros H a. revert s H.
  induction a as [|c a IH]; intros s H b Heq; subst s.
  - cbn [app] in H. destruct (sep ++ b) as [|d t] eqn:E.
    + apply app_eq_nil in E. destruct E as [-> _]. discriminate.
    + cbn [Index] in H. rewrite <- E, HasPrefix_app in H. discriminate.
  - cbn [app Index] in H.
    destruct (HasPrefix (c :: a ++ sep ++ b) sep); [discriminate|].
    destruct (Index (a ++ sep ++ b) sep) eqn:E; [discriminate|].
    exact (IH _ E b eq_refl).
Qed.

Lemma dropWhileNl_suffix (r : gostring) : exists x, r = x ++ dropWhileNl r.
Proof.
  induction r as [|c r [x IH]]; [exists []; reflexivity|].
  cbn. destruct (Ascii.eqb c nl).
  - exists (c :: x). cbn. f_equal. exact IH.
  - exists []. reflexivity.
Qed.

Lemma TrimRightNl_prefix (s : gostring) : exists t, s = TrimRightNl s ++ t.
Proof.
  unfold TrimRightNl. destruct (dropWhileNl_suffix (rev s)) as [x Hx].
  exists (rev x). rewrite <- rev_app_distr, <- Hx, rev_involutive. reflexivity.
Qed.

End StrFacts.

(* ================================================================== *)
(** * Strip *)
(* ================================================================== *)

Section Strip.
Import GoStr Meta StrFacts.

Lemma delimiter_nonempty : queueMetadataDelimiter <> [].
Proof. discriminate. Qed.

Lemma Strip_no_delimiter (d : gostring) :
  Index (StripQueueMetadata d) queueMetadataDelimiter = None.
Proof.
  unfold StripQueueMetadata.
  destruct (Index d queueMetadataDelimiter) as [idx|] eqn:Hidx; [|exact Hidx].
  destruct (TrimRightNl_prefix (firstn idx d)) as [t Ht].
  apply Index_None_prefix with (t := t). rewrite <- Ht.
  apply Index_firstn; [exact delimiter_nonempty | exact Hidx].
Qed.

(** C10. A stripped description holds no occurrence of the delimiter: it
    cannot be cut as [a ++ delimiter ++ b], and [strings.Contains] says so;
    hence it parses to nil, and stripping it again changes nothing. *)
Theorem Strip_eliminates_block (d : gostring) :
  (forall a b, StripQueueMetadata d <> a ++ queueMetadataDelimiter ++ b)
  /\ Contains (StripQueueMetadata d) queueMetadataDelimiter = false
  /\ ParseQueueMetadata (StripQueueMetadata d) = None
  /\ StripQueueMetadata (StripQueueMetadata d) = StripQueueMetadata d.
Proof.
  pose proof (Strip_no_delimiter d) as H.
  split; [apply Index_None_occurrence; exact H|].
  repeat split.
  - unfold Contains. rewrite H. reflexivity.
  - unfold ParseQueueMetadata. rewrite H. reflexivity.
  - unfold StripQueueMetadata at 1. rewrite H. reflexivity.
Qed.

End Strip.

(* ================================================================== *)
(** * Usage-limit detection *)
(* ================================================================== *)

Section Detection.
Import GoStr UsageLimit.

(** C7 fails on the code: the table entries are tested with
    [strings.Contains], so ["status.*429"] is looked for letter by letter.
    The transcript ["status code: 429"] is reported limited, but with the
    reason of the later entry ["429"], whatever the reset extraction finds. *)
Theorem detectUsageLimit_status_429 (extractResetDuration : gostring -> Z) :
  Contains (ToLower (str "status code: 429")) (str "status.*429") = false
  /\ exists d reason,
       detectUsageLimit extractResetDuration (str "status code: 429")
       = (true, d, reason)
       /\ (reason = str "HTTP 429"
           \/ reason = str "HTTP 429 (default 1h reset)")
       /\ reason <> str "HTTP 429 Too Many Requests".
Proof.
  split; [vm_compute; reflexivity|].
  unfold detectUsageLimit.
  replace (firstPattern (ToLower (str "status code: 429")) usageLimitPatterns)
    with (Some (str "HTTP 429")) by (vm_compute; reflexivity).
  destruct (extractResetDuration (str "status code: 429") =? 0)%Z.
  - do 2 eexists. split; [reflexivity|]. split; [right; reflexivity|].
    vm_compute. discriminate.
  - do 2 eexists. split; [reflexivity|]. split; [left; reflexivity|].
    vm_compute. discriminate.
Qed.

End Detection.

(* ================================================================== *)
(** * Facts about [TrimSpace], [Split] and [Join] *)
(* ================================================================== *)

Module TrimFacts.
Import GoStr StrFacts Spec.

(** No code of 128 or more is the code of an ASCII byte. *)
Lemma byteIn_ascii (c : ascii) (codes : list nat) :
  asciiByte c = true ->
  forallb (fun n => 128 <=? n) codes = true ->
  byteIn c codes = false.
Proof.
  unfold asciiByte, byteIn. intros Hc.
  apply Nat.ltb_lt in Hc.
  induction codes as [|n codes IH]; intros Hall; [reflexivity|].
  cbn [forallb existsb] in *. apply andb_true_iff in Hall.
  destruct Hall as [Hn Hrest]. apply Nat.leb_le in Hn.
  rewrite (IH Hrest), orb_false_r.
  apply Nat.eqb_neq. lia.
Qed.

Ltac ascii_out H :=
  unfold space2, space3;
  rewrite !(byteIn_ascii _ _ H) by reflexivity;
  rewrite ?andb_false_r, ?andb_false_l; reflexivity.

Lemma space2_ascii_l (c b : ascii) : asciiByte c = true -> space2 c b = false.
Proof. intros H. ascii_out H. Qed.

Lemma space2_ascii_r (b c : ascii) : asciiByte c = true -> space2 b c = false.
Proof. intros H. ascii_out H. Qed.

Lemma space3_ascii_1 (c b2 b3 : ascii) :
  asciiByte c = true -> space3 c b2 b3 = false.
Proof. intros H. ascii_out H. Qed.

Lemma space3_ascii_2 (b1 c b3 : ascii) :
  asciiByte c = true -> space3 b1 c b3 = false.
Proof. intros H. ascii_out H. Qed.

Lemma space3_ascii_3 (b1 b2 c : ascii) :
  asciiByte c = true -> space3 b1 b2 c = false.
Proof. intros H. ascii_out H. Qed.

Lemma plain_ascii (c : ascii) : plain c = true -> asciiByte c = true.
Proof. unfold plain. intros H. apply andb_true_iff in H. tauto. Qed.

Lemma plain_not_space (c : ascii) : plain c = true -> space1 c = false.
Proof.
  unfold plain. intros H. apply andb_true_iff in H.
  destruct H as [_ H]. destruct (space1 c); [discriminate | reflexivity].
Qed.

(** ** Unfolding by the shape of the string *)

Lemma trimLeft_1 (b1 : ascii) :
  trimLeft [b1] = if space1 b1 then [] else [b1].
Proof. reflexivity. Qed.

Lemma trimLeft_2 (b1 b2 : ascii) :
  trimLeft [b1; b2]
  = if space1 b1 then trimLeft [b2]
    else if space2 b1 b2 then [] else [b1; b2].
Proof. reflexivity. Qed.

Lemma trimLeft_3 (b1 b2 b3 : ascii) (t : gostring) :
  trimLeft (b1 :: b2 :: b3 :: t)
  = if space1 b1 then trimLeft (b2 :: b3 :: t)
    else if space2 b1 b2 then trimLeft (b3 :: t)
    else if space3 b1 b2 b3 then trimLeft t
    else b1 :: b2 :: b3 :: t.
Proof. reflexivity. Qed.

Lemma trimLeftRev_1 (b1 : ascii) :
  trimLeftRev [b1] = if space1 b1 then [] else [b1].
Proof. reflexivity. Qed.

Lemma trimLeftRev_2 (b1 b2 : ascii) :
  trimLeftRev [b1; b2]
  = if space1 b1 then trimLeftRev [b2]
    else if space2 b2 b1 then [] else [b1; b2].
Proof. reflexivity. Qed.

Lemma trimLeftRev_3 (b1 b2 b3 : ascii) (t : gostring) :
  trimLeftRev (b1 :: b2 :: b3 :: t)
  = if space1 b1 then trimLeftRev (b2 :: b3 :: t)
    else if space2 b2 b1 then trimLeftRev (b3 :: t)
    else if space3 b3 b2 b1 then trimLeftRev t
    else b1 :: b2 :: b3 :: t.
Proof. reflexivity. Qed.

(** ** Lengths *)

Lemma trimLeft_length_le (n : nat) :
  forall s, List.length s <= n -> List.length (trimLeft s) <= List.length s.
Proof.
  induction n as [|n IH]; intros s Hn.
  - destruct s; [cbn; lia | cbn in Hn; lia].
  - destruct s as [|b1 [|b2 [|b3 t3]]].
    + cbn. lia.
    + rewrite trimLeft_1. destruct (space1 b1); cbn; lia.
    + rewrite trimLeft_2.
      pose proof (IH [b2] ltac:(cbn in *; lia)) as H1.
      destruct (space1 b1); [cbn in *; lia|].
      destruct (space2 b1 b2); cbn; lia.
    + rewrite trimLeft_3.
      pose proof (IH (b2 :: b3 :: t3) ltac:(cbn in *; lia)) as H1.
      pose proof (IH (b3 :: t3) ltac:(cbn in *; lia)) as H2.
      pose proof (IH t3 ltac:(cbn in *; lia)) as H3.
      cbn [List.length] in *.
      destruct (space1 b1); [lia|].
      destruct (space2 b1 b2); [lia|].
      destruct (space3 b1 b2 b3); [lia|].
      cbn [List.length]. lia.
Qed.

Lemma trimLeft_length (s : gostring) :
  List.length (trimLeft s) <= List.length s.
Proof. apply (trimLeft_length_le (List.length s)). lia. Qed.

Lemma trimLeftRev_length_le (n : nat) :
  forall s, List.length s <= n -> List.length (trimLeftRev s) <= List.length s.
Proof.
  induction n as [|n IH]; intros s Hn.
  - destruct s; [cbn; lia | cbn in Hn; lia].
  - destruct s as [|b1 [|b2 [|b3 t3]]].
    + cbn. lia.
    + rewrite trimLeftRev_1. destruct (space1 b1); cbn; lia.
    + rewrite trimLeftRev_2.
      pose proof (IH [b2] ltac:(cbn in *; lia)) as H1.
      destruct (space1 b1); [cbn in *; lia|].
      destruct (space2 b2 b1); cbn; lia.
    + rewrite trimLeftRev_3.
      pose proof (IH (b2 :: b3 :: t3) ltac:(cbn in *; lia)) as H1.
      pose proof (IH (b3 :: t3) ltac:(cbn in *; lia)) as H2.
      pose proof (IH t3 ltac:(cbn in *; lia)) as H3.
      cbn [List.length] in *.
      destruct (space1 b1); [lia|].
      destruct (space2 b2 b1); [lia|].
      destruct (space3 b3 b2 b1); [lia|].
      cbn [List.length]. lia.
Qed.

Lemma trimLeftRev_length (s : gostring) :
  List.length (trimLeftRev s) <= List.length s.
Proof. apply (trimLeftRev_length_le (List.length s)). lia. Qed.

Lemma trimRight_length (s : gostring) :
  List.length (trimRight s) <= List.length s.
Proof.
  unfold trimRight. rewrite length_rev.
  rewrite <- (length_rev s). apply trimLeftRev_length.
Qed.

(** What stays after trimming on the left is a suffix. *)
Lemma trimLeft_suffix_le (n : nat) :
  forall s, List.length s <= n -> exists p, s = p ++ trimLeft s.
Proof.
  induction n as [|n IH]; intros s Hn.
  - destruct s; [exists []; reflexivity | cbn in Hn; lia].
  - destruct s as [|b1 [|b2 [|b3 t3]]].
    + exists []. reflexivity.
    + rewrite trimLeft_1.
      destruct (space1 b1); [exists [b1] | exists []]; reflexivity.
    + rewrite trimLeft_2.
      destruct (IH [b2] ltac:(cbn in *; lia)) as [p1 Hp1].
      destruct (space1 b1).
      { exists (b1 :: p1). cbn [app]. f_equal. exact Hp1. }
      destruct (space2 b1 b2); [exists [b1; b2] | exists []]; reflexivity.
    + rewrite trimLeft_3.
      destruct (IH (b2 :: b3 :: t3) ltac:(cbn in *; lia)) as [p1 Hp1].
      destruct (IH (b3 :: t3) ltac:(cbn in *; lia)) as [p2 Hp2].
      destruct (IH t3 ltac:(cbn in *; lia)) as [p3 Hp3].
      destruct (space1 b1).
      { exists (b1 :: p1). cbn [app]. f_equal. exact Hp1. }
      destruct (space2 b1 b2).
      { exists (b1 :: b2 :: p2). cbn [app]. do 2 f_equal. exact Hp2. }
      destruct (space3 b1 b2 b3).
      { exists (b1 :: b2 :: b3 :: p3). cbn [app]. do 3 f_equal. exact Hp3. }
      exists []. reflexivity.
Qed.

(** A string [TrimSpace] keeps is kept by both of its halves. *)
Lemma TrimSpace_fixed (v : gostring) :
  TrimSpace v = v -> trimLeft v = v /\ trimLeftRev (rev v) = rev v.
Proof.
  intros H. unfold TrimSpace in H.
  assert (Hl : trimLeft v = v).
  { destruct (trimLeft_suffix_le (List.length v) v (le_n _)) as [p Hp].
    pose proof (trimRight_length (trimLeft v)) as H1.
    rewrite H in H1.
    apply (f_equal (@List.length ascii)) in Hp. rewrite length_app in Hp.
    destruct (trimLeft_suffix_le (List.length v) v (le_n _)) as [q Hq].
    destruct q as [|c q]; [symmetry; exact Hq|].
    apply (f_equal (@List.length ascii)) in Hq.
    rewrite length_app in Hq. cbn in Hq. lia. }
  split; [exact Hl|].
  rewrite Hl in H. unfold trimRight in H.
  rewrite <- H at 2. rewrite rev_involutive. reflexivity.
Qed.

(** ** Strings that start and end with plain bytes *)

Lemma trimLeft_plain (c : ascii) (s : gostring) :
  plain c = true -> trimLeft (c :: s) = c :: s.
Proof.
  intros H. cbn [trimLeft]. rewrite (plain_not_space _ H).
  destruct s as [|b2 [|b3 t3]]; [reflexivity| |];
    rewrite (space2_ascii_l _ _ (plain_ascii _ H)); [reflexivity|].
  rewrite (space3_ascii_1 _ _ _ (plain_ascii _ H)). reflexivity.
Qed.

Lemma trimLeftRev_plain (c : ascii) (s : gostring) :
  plain c = true -> trimLeftRev (c :: s) = c :: s.
Proof.
  intros H. cbn [trimLeftRev]. rewrite (plain_not_space _ H).
  destruct s as [|b2 [|b3 t3]]; [reflexivity| |];
    rewrite (space2_ascii_r _ _ (plain_ascii _ H)); [reflexivity|].
  rewrite (space3_ascii_3 _ _ _ (plain_ascii _ H)). reflexivity.
Qed.

Lemma TrimSpace_plain (s : gostring) :
  forallb plain s = true -> TrimSpace s = s.
Proof.
  intros H. destruct s as [|c s]; [reflexivity|].
  unfold TrimSpace. cbn [forallb] in H. apply andb_true_iff in H as Hc.
  rewrite (trimLeft_plain _ _ (proj1 Hc)).
  unfold trimRight.
  destruct (rev (c :: s)) as [|d r] eqn:Hr.
  - apply (f_equal (@List.length ascii)) in Hr. rewrite length_rev in Hr.
    discriminate.
  - assert (Hd : plain d = true).
    { assert (Hin : In d (c :: s))
        by (apply in_rev; rewrite Hr; left; reflexivity).
      change (forallb plain (c :: s) = true) in H.
      rewrite forallb_forall in H. apply H. exact Hin. }
    rewrite (trimLeftRev_plain _ _ Hd), <- Hr. apply rev_involutive.
Qed.

(** A trimmed, non-empty tail stays trimmed when an ASCII byte precedes it
    (on the reversed string: when one follows it). *)
Lemma trimLeftRev_app_ascii (x : gostring) (c : ascii) (y : gostring) :
  x <> [] -> trimLeftRev x = x -> asciiByte c = true ->
  trimLeftRev (x ++ c :: y) = x ++ c :: y.
Proof.
  intros Hne Hx Hc.
  destruct x as [|b1 [|b2 [|b3 t3]]]; [congruence| | |].
  - rewrite trimLeftRev_1 in Hx. cbn [app].
    destruct (space1 b1) eqn:H1; [discriminate|].
    destruct y as [|d y].
    + rewrite trimLeftRev_2, H1, (space2_ascii_l _ _ Hc). reflexivity.
    + rewrite trimLeftRev_3, H1, (space2_ascii_l _ _ Hc),
        (space3_ascii_2 _ _ _ Hc). reflexivity.
  - rewrite trimLeftRev_2 in Hx. cbn [app]. rewrite trimLeftRev_3.
    pose proof (trimLeftRev_length [b2]) as Hlen.
    destruct (space1 b1).
    { rewrite Hx in Hlen. cbn in Hlen. lia. }
    destruct (space2 b2 b1); [discriminate|].
    rewrite (space3_ascii_1 _ _ _ Hc). reflexivity.
  - rewrite trimLeftRev_3 in Hx. cbn [app]. rewrite trimLeftRev_3.
    pose proof (trimLeftRev_length (b2 :: b3 :: t3)) as Hlen1.
    pose proof (trimLeftRev_length (b3 :: t3)) as Hlen2.
    pose proof (trimLeftRev_length t3) as Hlen3.
    destruct (space1 b1).
    { rewrite Hx in Hlen1. cbn in Hlen1. lia. }
    destruct (space2 b2 b1).
    { rewrite Hx in Hlen2. cbn in Hlen2. lia. }
    destruct (space3 b3 b2 b1).
    { rewrite Hx in Hlen3. cbn in Hlen3. lia. }
    reflexivity.
Qed.

(** A line ["key: value"] is left as it is by [TrimSpace]. *)
Lemma TrimSpace_kv (k v : gostring) :
  keyOk k = true -> v <> [] -> TrimSpace v = v ->
  TrimSpace (k ++ str ": " ++ v) = k ++ str ": " ++ v.
Proof.
  intros Hk Hne Hv. destruct (TrimSpace_fixed _ Hv) as [_ Hr].
  destruct k as [|c k]; [discriminate|].
  unfold keyOk in Hk. apply andb_true_iff in Hk. destruct Hk as [_ Hall].
  cbn [forallb] in Hall. apply andb_true_iff in Hall.
  destruct Hall as [Hc _]. apply andb_true_iff in Hc. destruct Hc as [Hc _].
  unfold TrimSpace. cbn [app]. rewrite (trimLeft_plain _ _ Hc).
  unfold trimRight.
  assert (Hrev : rev (c :: k ++ str ": " ++ v)
                 = rev v ++ " "%char :: (":"%char :: rev (c :: k))).
  { change (c :: k ++ str ": " ++ v) with ((c :: k) ++ str ": " ++ v).
    rewrite !rev_app_distr. rewrite <- app_assoc. reflexivity. }
  rewrite Hrev.
  rewrite trimLeftRev_app_ascii; [| |exact Hr|reflexivity].
  - rewrite <- Hrev. apply rev_involutive.
  - intros Habs. apply (f_equal (@rev ascii)) in Habs.
    rewrite rev_involutive in Habs. cbn in Habs. congruence.
Qed.

End TrimFacts.

Module SplitFacts.
Import GoStr StrFacts Spec.

Lemma Split_nonempty (s : gostring) (c : ascii) : Split s c <> [].
Proof.
  destruct s as [|d s]; cbn; [discriminate|].
  destruct (Ascii.eqb d c); [discriminate|].
  destruct (Split s c); discriminate.
Qed.

(** A piece without the separator, then the separator. *)
Lemma Split_piece (x : gostring) (c : ascii) (s : gostring) :
  existsb (Ascii.eqb c) x = false ->
  Split (x ++ c :: s) c = x :: Split s c.
Proof.
  induction x as [|d x IH]; intros H; cbn [app Split].
  - rewrite Ascii.eqb_refl. reflexivity.
  - cbn [existsb] in H. apply orb_false_iff in H. destruct H as [Hd Hx].
    rewrite Ascii.eqb_sym, Hd. rewrite (IH Hx). reflexivity.
Qed.

Lemma Split_last (x : gostring) (c : ascii) :
  existsb (Ascii.eqb c) x = false -> Split x c = [x].
Proof.
  induction x as [|d x IH]; intros H; cbn [Split]; [reflexivity|].
  cbn [existsb] in H. apply orb_false_iff in H. destruct H as [Hd Hx].
  rewrite Ascii.eqb_sym, Hd. rewrite (IH Hx). reflexivity.
Qed.

(** Splitting what [Join] glued gives the pieces back. *)
Lemma Split_Join (L : list gostring) (c : ascii) :
  L <> [] ->
  forallb (fun l => negb (existsb (Ascii.eqb c) l)) L = true ->
  Split (Join L [c]) c = L.
Proof.
  induction L as [|l L IH]; intros Hne Hall; [congruence|].
  cbn [forallb] in Hall. apply andb_true_iff in Hall.
  destruct Hall as [Hl HL]. apply negb_true_iff in Hl.
  destruct L as [|l' L'].
  - cbn [Join]. apply Split_last. exact Hl.
  - change (Join (l :: l' :: L') [c]) with (l ++ c :: Join (l' :: L') [c]).
    rewrite (Split_piece _ _ _ Hl). f_equal. apply IH; [discriminate|exact HL].
Qed.

Lemma Split_no_sep (s : gostring) (c : ascii) :
  forallb (fun l => negb (existsb (Ascii.eqb c) l)) (Split s c) = true.
Proof.
  induction s as [|d s IH]; [reflexivity|].
  cbn [Split]. destruct (Ascii.eqb d c) eqn:Hd; [exact IH|].
  destruct (Split s c) as [|p ps]; cbn [forallb existsb] in *.
  - rewrite Ascii.eqb_sym, Hd. reflexivity.
  - rewrite Ascii.eqb_sym, Hd. exact IH.
Qed.

Lemma Join_Split (s : gostring) (c : ascii) : Join (Split s c) [c] = s.
Proof.
  induction s as [|d s IH]; [reflexivity|].
  cbn [Split]. destruct (Ascii.eqb_spec d c) as [->|Hd].
  - pose proof (Split_nonempty s c) as Hne.
    destruct (Split s c) as [|p ps]; [congruence|].
    change (Join ([] :: p :: ps) [c]) with (c :: Join (p :: ps) [c]).
    rewrite IH. reflexivity.
  - pose proof (Split_nonempty s c) as Hne.
    destruct (Split s c) as [|p ps]; [congruence|].
    destruct ps as [|q qs]; cbn [Join] in *; rewrite <- IH; reflexivity.
Qed.

Lemma Join_cons (x : gostring) (L : list gostring) (sep : gostring) :
  Join (x :: L) sep
  = x ++ match L with [] => [] | _ :: _ => sep ++ Join L sep end.
Proof. destruct L; cbn [Join]; [rewrite app_nil_r|]; reflexivity. Qed.

Lemma Index_prefix (p t : gostring) : p <> [] -> Index (p ++ t) p = Some 0.
Proof.
  intros Hp. destruct p as [|c p]; [congruence|].
  cbn [app Index].
  change (c :: p ++ t) with ((c :: p) ++ t). rewrite HasPrefix_app.
  reflexivity.
Qed.

(** The first ": " of ["key: value"] is the one after the key. *)
Lemma Index_kv (k v : gostring) :
  forallb (fun c => negb (Ascii.eqb c ":"%char)) k = true ->
  Index (k ++ str ": " ++ v) (str ": ") = Some (List.length k).
Proof.
  induction k as [|c k IH]; intros H.
  - reflexivity.
  - cbn [forallb] in H. apply andb_true_iff in H. destruct H as [Hc Hk].
    apply negb_true_iff in Hc.
    cbn [app Index List.length].
    replace (HasPrefix (c :: k ++ str ": " ++ v) (str ": ")) with false
      by (cbn; rewrite Hc; reflexivity).
    rewrite (IH Hk). reflexivity.
Qed.

Lemma SplitN2_kv (k v : gostring) :
  forallb (fun c => negb (Ascii.eqb c ":"%char)) k = true ->
  SplitN2 (k ++ str ": " ++ v) (str ": ") = [k; v].
Proof.
  intros H. unfold SplitN2. rewrite (Index_kv _ _ H).
  rewrite firstn_app, firstn_all, Nat.sub_diag. cbn [firstn].
  rewrite app_nil_r.
  rewrite app_assoc, skipn_app.
  replace (List.length k + List.length (str ": "))
    with (List.length (k ++ str ": ")) by apply length_app.
  rewrite skipn_all, Nat.sub_diag. reflexivity.
Qed.

End SplitFacts.

Module AtoiFacts.
Import GoStr StrFacts Spec.
Local Open Scope Z_scope.

Lemma digitVal_digitChar (d : Z) :
  0 <= d <= 9 -> digitVal (digitChar d) = Some d.
Proof.
  intros H.
  assert (Hd : d = 0 \/ d = 1 \/ d = 2 \/ d = 3 \/ d = 4 \/ d = 5 \/ d = 6
               \/ d = 7 \/ d = 8 \/ d = 9) by lia.
  repeat (destruct Hd as [->|Hd]; [reflexivity|]). subst d. reflexivity.
Qed.

Lemma digitChar_plain (d : Z) : 0 <= d <= 9 -> plain (digitChar d) = true.
Proof.
  intros H.
  assert (Hd : d = 0 \/ d = 1 \/ d = 2 \/ d = 3 \/ d = 4 \/ d = 5 \/ d = 6
               \/ d = 7 \/ d = 8 \/ d = 9) by lia.
  repeat (destruct Hd as [->|Hd]; [reflexivity|]). subst d. reflexivity.
Qed.

Lemma digitChar_not_nl (d : Z) :
  0 <= d <= 9 -> Ascii.eqb nl (digitChar d) = false.
Proof.
  intros H.
  assert (Hd : d = 0 \/ d = 1 \/ d = 2 \/ d = 3 \/ d = 4 \/ d = 5 \/ d = 6
               \/ d = 7 \/ d = 8 \/ d = 9) by lia.
  repeat (destruct Hd as [->|Hd]; [reflexivity|]). subst d. reflexivity.
Qed.

(** Reading the digits gives the number back. *)
Lemma parseDigits_digitsOf (fuel : nat) :
  forall n acc,
    0 <= n < 10 ^ Z.of_nat fuel ->
    parseDigits 0 (digitsOf fuel n acc) = parseDigits n acc.
Proof.
  induction fuel as [|f IH]; intros n acc Hn.
  - cbn in Hn. assert (n = 0) by lia. subst n. reflexivity.
  - cbn [digitsOf]. cbv zeta.
    assert (Hmod : 0 <= n mod 10 <= 9) by (pose proof (Z.mod_pos_bound n 10); lia).
    assert (Hdiv : n = 10 * (n / 10) + n mod 10) by (apply Z.div_mod; lia).
    destruct (Z.eqb_spec (n / 10) 0) as [Hz|Hz].
    + cbn [parseDigits]. rewrite (digitVal_digitChar _ Hmod).
      f_equal. lia.
    + rewrite IH.
      * cbn [parseDigits]. rewrite (digitVal_digitChar _ Hmod). f_equal. lia.
      * rewrite Nat2Z.inj_succ, Z.pow_succ_r in Hn by lia.
        split; [apply Z.div_pos; lia|].
        apply Z.div_lt_upper_bound; lia.
Qed.

Lemma digitsOf_chars (P : ascii -> bool) (fuel : nat) :
  (forall d, 0 <= d <= 9 -> P (digitChar d) = true) ->
  forall n acc,
    forallb P acc = true -> forallb P (digitsOf fuel n acc) = true.
Proof.
  intros HP. induction fuel as [|f IH]; intros n acc Hacc; [exact Hacc|].
  cbn [digitsOf]. cbv zeta.
  assert (Hmod : 0 <= n mod 10 <= 9) by (pose proof (Z.mod_pos_bound n 10); lia).
  assert (Hacc' : forallb P (digitChar (n mod 10) :: acc) = true)
    by (cbn [forallb]; rewrite (HP _ Hmod), Hacc; reflexivity).
  destruct (n / 10 =? 0); [exact Hacc' | apply IH; exact Hacc'].
Qed.

Lemma digitsOf_nonempty (fuel : nat) :
  forall n acc, digitsOf (S fuel) n acc <> [].
Proof.
  induction fuel as [|f IH]; intros n acc.
  - cbn. destruct (n / 10 =? 0); discriminate.
  - change (digitsOf (S (S f)) n acc)
      with (if n / 10 =? 0 then digitChar (n mod 10) :: acc
            else digitsOf (S f) (n / 10) (digitChar (n mod 10) :: acc)).
    destruct (n / 10 =? 0); [discriminate | apply IH].
Qed.

Lemma Itoa_pos (n : Z) : 0 < n -> Itoa n = digitsOf 20 n [].
Proof.
  intros H. unfold Itoa. destruct (Z.ltb_spec n 0); [lia | reflexivity].
Qed.

(** [Atoi] reads back what ["%d"] printed, for a positive [int]. *)
Lemma Atoi_Itoa (n : Z) : 0 < n <= maxInt64 -> Atoi (Itoa n) = Some n.
Proof.
  intros H. rewrite Itoa_pos by lia.
  pose proof (digitsOf_nonempty 19 n []) as Hne.
  pose proof (digitsOf_chars
                (fun c => negb (Ascii.eqb c "+"%char)
                          && negb (Ascii.eqb c "-"%char)) 20
                ltac:(intros d Hd;
                      assert (Hx : d = 0 \/ d = 1 \/ d = 2 \/ d = 3 \/ d = 4
                                   \/ d = 5 \/ d = 6 \/ d = 7 \/ d = 8 \/ d = 9)
                        by lia;
                      repeat (destruct Hx as [->|Hx]; [reflexivity|]);
                      subst d; reflexivity)
                n [] eq_refl) as Hsign.
  pose proof (parseDigits_digitsOf 20 n []) as Hp.
  destruct (digitsOf 20 n []) as [|c ds]; [congruence|].
  cbn [forallb] in Hsign. apply andb_true_iff in Hsign.
  destruct Hsign as [Hc _]. apply andb_true_iff in Hc.
  destruct Hc as [Hplus Hminus].
  apply negb_true_iff in Hplus, Hminus.
  unfold Atoi. rewrite Hplus, Hminus.
  assert (Hpow : 10 ^ Z.of_nat 20 = 100000000000000000000)
    by (vm_compute; reflexivity).
  rewrite Hp by (unfold maxInt64 in H; rewrite Hpow; lia).
  cbn [parseDigits]. unfold inRange64, minInt64.
  destruct (Z.leb_spec (- 2 ^ 63) n); [|lia].
  destruct (Z.leb_spec n maxInt64); [reflexivity | lia].
Qed.

Lemma Itoa_clean (n : Z) :
  0 < n -> Itoa n <> [] /\ TrimSpace (Itoa n) = Itoa n.
Proof.
  intros H. rewrite Itoa_pos by lia. split.
  - apply (digitsOf_nonempty 19).
  - apply TrimFacts.TrimSpace_plain.
    apply digitsOf_chars; [apply digitChar_plain | reflexivity].
Qed.

Lemma Itoa_no_nl (n : Z) :
  0 < n -> existsb (Ascii.eqb nl) (Itoa n) = false.
Proof.
  intros H. rewrite Itoa_pos by lia.
  pose proof (digitsOf_chars (fun c => negb (Ascii.eqb nl c)) 20
                ltac:(intros d Hd; cbv beta; rewrite (digitChar_not_nl _ Hd); reflexivity)
                n [] eq_refl) as Hall.
  induction (digitsOf 20 n []) as [|c s IH]; [reflexivity|].
  cbn [forallb existsb] in *. apply andb_true_iff in Hall.
  destruct Hall as [Hc Hs]. apply negb_true_iff in Hc.
  rewrite Hc. apply IH. exact Hs.
Qed.

End AtoiFacts.

(* ================================================================== *)
(** * Ready-set selection and the circuit breaker *)
(* ================================================================== *)

Module ReadyFacts.
Import GoStr Meta.

(** Only a [dispatch_failures] line with a value [Atoi] accepts touches the
    counter. *)
Lemma applyKey_failures (k v : gostring) (m : QueueMetadata)
    (vl : list gostring) :
  (streq k Spec.failuresKey = true -> Atoi v = None) ->
  DispatchFailures (fst (applyKey k v m vl)) = DispatchFailures m.
Proof.
  intros H. unfold applyKey.
  repeat match goal with
         | |- context [if streq k ?lit then _ else _] =>
             destruct (streq k lit) eqn:?; [try reflexivity|]
         end; [|reflexivity].
  rewrite H by assumption. reflexivity.
Qed.

Lemma parseLines_failures (lines : list gostring) :
  forallb Spec.lineHarmless lines = true ->
  forall m vl,
    DispatchFailures (fst (parseLines lines m vl)) = DispatchFailures m.
Proof.
  induction lines as [|raw rest IH]; intros Hall m vl; [reflexivity|].
  cbn [forallb] in Hall. apply andb_true_iff in Hall.
  destruct Hall as [Hraw Hrest]. specialize (IH Hrest).
  cbn [parseLines]. cbv zeta.
  destruct (isEmpty (TrimSpace raw)); [apply IH|].
  destruct (streq (TrimSpace raw) queueMetadataDelimiter); [reflexivity|].
  unfold Spec.lineHarmless, Spec.lineKV in Hraw.
  destruct (SplitN2 (TrimSpace raw) (str ": ")) as [|p0 [|p1 [|p2 ps]]];
    try apply IH.
  destruct (applyKey (TrimSpace p0) (TrimSpace p1) m vl) as [m' vl'] eqn:E.
  rewrite IH.
  change m' with (fst (m', vl')). rewrite <- E.
  apply applyKey_failures. intros Hk.
  rewrite Hk in Hraw.
  destruct (Atoi (TrimSpace p1)); [discriminate | reflexivity].
Qed.

(** Corrupted counter values leave the parsed counter at 0. *)
Lemma corrupted_counter_zero (d : gostring) (m : QueueMetadata) :
  Spec.counterCorrupted d = true ->
  ParseQueueMetadata d = Some m -> DispatchFailures m = 0%Z.
Proof.
  unfold Spec.counterCorrupted, Spec.blockLines, ParseQueueMetadata.
  destruct (Index d queueMetadataDelimiter) as [idx|]; [|discriminate].
  intros Hall. cbv zeta.
  pose proof (parseLines_failures _ Hall zeroMeta []) as Hf.
  destruct (parseLines _ zeroMeta []) as [m0 vl]. cbn [fst] in Hf.
  intros Hm. injection Hm as <-.
  destruct vl; exact Hf.
Qed.

Lemma readyLoop_filter (raw : list Dispatch.rawBead) :
  Dispatch.readyLoop raw
  = map Spec.toReady
      (filter (fun r => negb (Spec.breakerTripped (Dispatch.rawDescription r)))
         raw).
Proof.
  induction raw as [|r rest IH]; [reflexivity|].
  cbn [Dispatch.readyLoop filter]. unfold Spec.breakerTripped at 1.
  destruct (ParseQueueMetadata (Dispatch.rawDescription r)) as [meta|] eqn:E.
  - unfold Dispatch.maxDispatchFailures. rewrite Z.geb_leb.
    destruct (3 <=? DispatchFailures meta)%Z; cbn [negb map];
      rewrite IH; [reflexivity|].
    unfold Spec.toReady. rewrite E. reflexivity.
  - cbn [negb map]. rewrite IH. unfold Spec.toReady. rewrite E.
    reflexivity.
Qed.

End ReadyFacts.

Section ReadySet.
Import GoStr Meta Dispatch ReadyFacts.

(** C2. The ready set is the store's list without exactly the beads whose
    description parses to metadata with [dispatch_failures >= 3] (order
    kept); a bead whose [dispatch_failures] values do not parse as integers
    has counter 0, does not trip the breaker and is in the ready set. *)
Theorem ready_set_circuit_breaker (raw : list rawBead) :
  getReadyQueuedBeadsFrom (Some raw)
  = Some (map Spec.toReady
            (filter (fun r => negb (Spec.breakerTripped (rawDescription r)))
               raw))
  /\ forall r,
       In r raw ->
       Spec.counterCorrupted (rawDescription r) = true ->
       (forall m, ParseQueueMetadata (rawDescription r) = Some m ->
                  DispatchFailures m = 0%Z)
       /\ Spec.breakerTripped (rawDescription r) = false
       /\ In (Spec.toReady r) (readyLoop raw).
Proof.
  split; [cbn; f_equal; apply readyLoop_filter|].
  intros r Hin Hc.
  assert (Hz : forall m, ParseQueueMetadata (rawDescription r) = Some m ->
                         DispatchFailures m = 0%Z)
    by (intros m; apply corrupted_counter_zero; exact Hc).
  assert (Ht : Spec.breakerTripped (rawDescription r) = false).
  { unfold Spec.breakerTripped.
    destruct (ParseQueueMetadata (rawDescription r)) as [m|]; [|reflexivity].
    rewrite (Hz m eq_refl). reflexivity. }
  repeat split; [exact Hz | exact Ht |].
  rewrite readyLoop_filter. apply in_map. apply filter_In.
  split; [exact Hin | rewrite Ht; reflexivity].
Qed.

Lemma ready_set_circuit_breaker_witness :
  let corrupted := mkRaw (str "b1") (str "one") (str "---gt:queue:v1---
target_rig: rig1
dispatch_failures: not_a_number
enqueued_at: 2026-01-15T10:00:00Z") [str "gt:queued"] in
  let tripped := mkRaw (str "b2") (str "two") (str "task
---gt:queue:v1---
target_rig: rig1
dispatch_failures: 3
last_failure: sling failed") [str "gt:queued"] in
  Spec.breakerTripped (rawDescription tripped) = true
  /\ In (Spec.toReady corrupted) (readyLoop [tripped; corrupted]).
Proof.
  intros corrupted tripped. split; [vm_compute; reflexivity|].
  apply (proj2 (ready_set_circuit_breaker [tripped; corrupted]) corrupted).
  - right. left. reflexivity.
  - vm_compute. reflexivity.
Defined.

End ReadySet.

(* ================================================================== *)
(** * The enqueue protocol *)
(* ================================================================== *)

Module EnqueueFacts.
Import GoStr Enqueue StrFacts.

Lemma putBead_same (st : Store) (id : gostring) (b : Bead) :
  putBead st id b id = Some b.
Proof. unfold putBead. rewrite streq_refl. reflexivity. Qed.


Lemma log_grows_absurd {A} (l : list A) (x : A) (r : list A) :
  l = l ++ x :: r -> False.
Proof.
  intros H. apply (f_equal (@List.length A)) in H.
  rewrite length_app in H. cbn in H. lia.
Qed.

Ltac early H Hlog :=
  injection H as <- <-; exfalso; exact (log_grows_absurd _ _ _ Hlog).

End EnqueueFacts.

Section EnqueueProps.
Import GoStr Enqueue StrFacts EnqueueFacts.
Variable env : Env.


Lemma runBd_cases (u : BdUpdate) (w : World) :
  (exists st', applyUpdate u (store w) = Some st'
               /\ runBd env u w
                  = (Next true, mkWorld st' (bdLog w ++ [(u, true)])))
  \/ runBd env u w = (Next false, mkWorld (store w) (bdLog w ++ [(u, false)])).
Proof.
  unfold runBd.
  destruct (bdSucceeds env (List.length (bdLog w))); [|right; reflexivity].
  destruct (applyUpdate u (store w)) as [st'|]; [|right; reflexivity].
  left. exists st'. split; reflexivity.
Qed.

(** The convoy step only appends to the record of updates. *)
Lemma autoConvoy_log (beadID title : gostring) (opts : Opt.EnqueueOptions)
    (meta : Meta.QueueMetadata) (base : gostring) (w : World) :
  exists o w' extra,
    autoConvoy env beadID title opts meta base w = (o, w')
    /\ bdLog w' = bdLog w ++ extra.
Proof.
  unfold autoConvoy.
  destruct (negb (Opt.NoConvoy opts));
    [|exists (Next tt), w, []; rewrite app_nil_r; split; reflexivity].
  destruct (isEmpty (isTrackedByConvoy env beadID));
    [|exists (Next tt), w, []; rewrite app_nil_r; split; reflexivity].
  unfold createConvoy. cbv [bind ret].
  destruct (createAutoConvoy env beadID title (Opt.Owned opts)
              (Opt.Merge opts)) as [[convoyID record]|];
    [|exists (Next tt), w, []; rewrite app_nil_r; split; reflexivity].
  match goal with
  | |- context [runBd env ?u ?w1] =>
      destruct (runBd_cases u w1) as [[st' [_ Hr]]|Hr]; rewrite Hr
  end; do 3 eexists; split; reflexivity.
Qed.

(** The commit phase: description write, label add, rollback or convoy. *)
Lemma commit_phase (beadID title : gostring) (opts : Opt.EnqueueOptions)
    (meta : Meta.QueueMetadata) (w w' : World) (b : Bead)
    (e : option error) (newDesc : gostring)
    (rest : list (BdUpdate * bool)) :
  let baseDesc := Meta.StripQueueMetadata (Description b) in
  store w beadID = Some b ->
  (let (o, w1) :=
     (wrote <- runBd env
                 (SetDescription beadID
                    (appendBlock baseDesc (Meta.FormatQueueMetadata meta))) ;;
      guard wrote ErrWriteMetadata ;;;
      labelled <- runBd env (AddLabel beadID LabelQueued) ;;
      (if labelled then ret tt
       else runBd env (SetDescription beadID baseDesc) ;;;
            exit (Some ErrAddLabel)) ;;;
      autoConvoy env beadID title opts meta baseDesc ;;;
      @exit unit None) w in
   match o with
   | Return e => (e, w1)
   | Next _ => (None, w1)
   end) = (e, w') ->
  bdLog w' = bdLog w ++ (SetDescription beadID newDesc, true)
                     :: (AddLabel beadID LabelQueued, false) :: rest ->
  e = Some ErrAddLabel
  /\ exists (rolledBack : bool) (b' : Bead),
       rest = [(SetDescription beadID baseDesc, rolledBack)]
       /\ store w' beadID = Some b'
       /\ Labels b' = Labels b
       /\ Description b' = (if rolledBack then baseDesc else newDesc)
       /\ (rolledBack = true ->
           Contains (Description b) Meta.queueMetadataDelimiter = false ->
           Description b' = Description b).
Proof.
  intros baseDesc Hb H Hlog. subst baseDesc.
  cbv [bind ret exit guard] in H.
  set (base := Meta.StripQueueMetadata (Description b)) in *.
  set (desc1 := appendBlock base (Meta.FormatQueueMetadata meta)) in *.
  (* the description write *)
  destruct (runBd_cases (SetDescription beadID desc1) w)
    as [[st1 [Hap1 Hr1]]|Hr1]; rewrite Hr1 in H;
    [|injection H as <- <-; cbn [bdLog] in Hlog;
      apply app_inv_head in Hlog; discriminate].
  cbn [applyUpdate] in Hap1. rewrite Hb in Hap1. injection Hap1 as <-.
  set (b1 := mkBead (Status b) (Assignee b) (Labels b) desc1 (Title b)) in *.
  set (w1 := mkWorld (putBead (store w) beadID b1) _) in *.
  (* the label add *)
  destruct (runBd_cases (AddLabel beadID LabelQueued) w1)
    as [[st2 [Hap2 Hr2]]|Hr2]; rewrite Hr2 in H.
  { exfalso.
    destruct (autoConvoy_log beadID title opts meta base
                (mkWorld st2 (bdLog w1 ++ [(AddLabel beadID LabelQueued, true)])))
      as [o [w5 [extra [Hc Hl5]]]].
    rewrite Hc in H.
    assert (Hw' : bdLog w' = bdLog w5)
      by (destruct o; injection H as <- <-; reflexivity).
    rewrite Hw', Hl5 in Hlog. subst w1. cbn [bdLog] in Hlog.
    rewrite <- !app_assoc in Hlog. apply app_inv_head in Hlog.
    cbn in Hlog. injection Hlog as _ Habs. discriminate. }
  set (w2 := mkWorld (store w1) _) in *.
  (* the rollback *)
  destruct (runBd_cases (SetDescription beadID base) w2)
    as [[st3 [Hap3 Hr3]]|Hr3]; rewrite Hr3 in H; injection H as <- <-;
    (split; [reflexivity|]);
    subst w2 w1; cbn [bdLog store] in *;
    rewrite <- !app_assoc in Hlog; apply app_inv_head in Hlog;
    cbn in Hlog; injection Hlog as Hd Hrest; subst newDesc rest.
  - cbn [applyUpdate] in Hap3. rewrite putBead_same in Hap3.
    injection Hap3 as <-.
    exists true. eexists. split; [reflexivity|].
    split; [apply putBead_same|]. cbn [Labels Description].
    repeat split. intros _ Hno. subst base b1. cbn [Description].
    unfold Meta.StripQueueMetadata. unfold Contains in Hno.
    destruct (Index (Description b) Meta.queueMetadataDelimiter);
      [discriminate | reflexivity].
  - exists false, b1. split; [reflexivity|].
    split; [apply putBead_same|]. repeat split. intros Habs. discriminate.
Qed.

(** C8, amended. In every run in which the description write succeeds and
    the label add that follows fails, [enqueueBead] returns the label error
    and the bead's labels are as before (no [gt:queued] is added).  The
    rollback is one more description write, of the stripped pre-call
    description: when it succeeds the description is
    [StripQueueMetadata] of the pre-call value, which is the pre-call value
    itself when that held no delimiter. *)
Theorem enqueue_rollback (beadID rigName : gostring)
    (opts : Opt.EnqueueOptions) (w w' : World) (b : Bead)
    (e : option error) (newDesc : gostring)
    (rest : list (BdUpdate * bool)) :
  store w beadID = Some b ->
  enqueueBead env beadID rigName opts w = (e, w') ->
  bdLog w' = bdLog w ++ (SetDescription beadID newDesc, true)
                     :: (AddLabel beadID LabelQueued, false) :: rest ->
  e = Some ErrAddLabel
  /\ exists (rolledBack : bool) (b' : Bead),
       rest = [(SetDescription beadID
                  (Meta.StripQueueMetadata (Description b)), rolledBack)]
       /\ store w' beadID = Some b'
       /\ Labels b' = Labels b
       /\ Description b'
          = (if rolledBack then Meta.StripQueueMetadata (Description b)
             else newDesc)
       /\ (rolledBack = true ->
           Contains (Description b) Meta.queueMetadataDelimiter = false ->
           Description b' = Description b).
Proof.
  intros Hb H Hlog.
  unfold enqueueBead, enqueueBeadM in H.
  cbv [bind ret exit guard verifyBeadExists getBeadInfo] in H.
  destruct (findTownRoot env) as [root|]; [|early H Hlog].
  rewrite Hb in H.
  destruct (IsRigName env rigName); [|early H Hlog].
  destruct (negb (Opt.Force opts));
    [destruct (crossRigOk env beadID _ root); [|early H Hlog]|].
  all: rewrite Hb in H.
  all: destruct (existsb _ (Labels b) && streq (Status b) (str "open"));
    [early H Hlog|].
  all: destruct ((streq (Status b) (str "pinned")
                  || streq (Status b) (str "hooked")) && _);
    [early H Hlog|].
  all: destruct (negb (isEmpty (Opt.Formula opts)));
    [destruct (formulaExists env (Opt.Formula opts)); [|early H Hlog]|].
  all: destruct (Opt.DryRun opts); [early H Hlog|].
  all: try (destruct (cookOk env (Opt.Formula opts)); [|early H Hlog]).
  all: apply (commit_phase beadID (Title b) opts
                (buildMetadata env rigName opts)
                w w' b e newDesc rest Hb); [|exact Hlog].
  all: cbv [bind ret exit guard]; exact H.
Qed.

End EnqueueProps.

Section EnqueueCases.
Import GoStr Enqueue Scenario.



Lemma enqueue_rollback_witness :
  fst (enqueueBead town (str "b2") (str "rig1") plainOpts world0)
  = Some ErrAddLabel
  /\ option_map Description
       (store (snd (enqueueBead town (str "b2") (str "rig1") plainOpts world0))
          (str "b2"))
     = Some (str "Write the docs").
Proof.
  pose (run := enqueueBead town (str "b2") (str "rig1") plainOpts world0).
  destruct (enqueue_rollback town (str "b2") (str "rig1") plainOpts world0
              (snd run) fresh (fst run)
              (appendBlock (Meta.StripQueueMetadata (Description fresh))
                 (Meta.FormatQueueMetadata
                    (buildMetadata town (str "rig1") plainOpts)))
              [(SetDescription (str "b2")
                  (Meta.StripQueueMetadata (Description fresh)), true)]
              eq_refl (surjective_pairing run)
              ltac:(vm_compute; reflexivity))
    as [He [rolledBack [b' [Hrest [Hst [_ [Hd _]]]]]]].
  split; [exact He|].
  fold run. rewrite Hst. cbn [option_map]. rewrite Hd.
  injection Hrest as <-. vm_compute. reflexivity.
Defined.

(** C8, as stated, fails when the pre-call description already holds a
    metadata block: on the quarantined bead [b1] the description write
    succeeds, the label add fails, the rollback write succeeds, and the
    description is left without the block it had before the call. *)
Lemma enqueue_rollback_loses_old_block :
  let run := enqueueBead town (str "b1") (str "rig1") plainOpts world0 in
  (exists newDesc rollback,
      bdLog (snd run)
      = [(SetDescription (str "b1") newDesc, true);
         (AddLabel (str "b1") LabelQueued, false);
         (SetDescription (str "b1") rollback, true)])
  /\ fst run = Some ErrAddLabel
  /\ option_map Description (store (snd run) (str "b1"))
     = Some (str "Fix the parser")
  /\ option_map Description (store (snd run) (str "b1"))
     <> option_map Description (store world0 (str "b1")).
Proof.
  cbv zeta. split; [|split; [|split]].
  - do 2 eexists. vm_compute. reflexivity.
  - vm_compute. reflexivity.
  - vm_compute. reflexivity.
  - vm_compute. discriminate.
Qed.

End EnqueueCases.

(* ================================================================== *)
(** * The codec round trip *)
(* ================================================================== *)

Module CodecFacts.
Import GoStr Meta Spec StrFacts TrimFacts SplitFacts AtoiFacts.

Lemma keyOk_inv (k : gostring) :
  keyOk k = true ->
  exists c k', k = c :: k'
    /\ Ascii.eqb c "-"%char = false
    /\ forallb plain k = true
    /\ forallb (fun c => negb (Ascii.eqb c ":"%char)) k = true.
Proof.
  destruct k as [|c k']; [discriminate|]. unfold keyOk. intros H.
  apply andb_true_iff in H. destruct H as [Hd Hall].
  exists c, k'. split; [reflexivity|]. split; [apply negb_true_iff, Hd|].
  rewrite forallb_forall in Hall.
  split; apply forallb_forall; intros x Hx; specialize (Hall x Hx);
    apply andb_true_iff in Hall; tauto.
Qed.

(** One well-formed line of the block is one [applyKey]. *)
Lemma parseLines_kv (k v : gostring) (rest : list gostring)
    (m : QueueMetadata) (vl : list gostring) :
  keyOk k = true -> v <> [] -> TrimSpace v = v ->
  parseLines ((k ++ str ": " ++ v) :: rest) m vl
  = (let '(m', vl') := applyKey k v m vl in parseLines rest m' vl').
Proof.
  intros Hk Hne Hv.
  destruct (keyOk_inv _ Hk) as [c [k' [-> [Hdash [Hplain Hcolon]]]]].
  cbn [parseLines]. cbv zeta.
  rewrite (TrimSpace_kv _ _ Hk Hne Hv).
  replace (isEmpty ((c :: k') ++ str ": " ++ v)) with false by reflexivity.
  replace (streq ((c :: k') ++ str ": " ++ v) queueMetadataDelimiter)
    with false by (cbn; rewrite Hdash; reflexivity).
  rewrite (SplitN2_kv _ _ Hcolon).
  rewrite (TrimSpace_plain _ Hplain), Hv. reflexivity.
Qed.

Lemma parse_strLine (key : string) (v : gostring) (rest : list gostring)
    (m : QueueMetadata) (vl : list gostring)
    (set : gostring -> QueueMetadata -> QueueMetadata) :
  keyOk (str key) = true ->
  TrimSpace v = v ->
  applyKey (str key) v m vl = (set v m, vl) ->
  (v = [] -> set v m = m) ->
  parseLines (strLine key v ++ rest) m vl = parseLines rest (set v m) vl.
Proof.
  intros Hk Hv Happ Hnil. unfold strLine.
  destruct v as [|c v']; cbn [isEmpty app].
  - rewrite Hnil; reflexivity.
  - unfold kvLine. rewrite parseLines_kv by (assumption || discriminate).
    rewrite Happ. reflexivity.
Qed.

Lemma parse_boolLine (key : string) (b : bool) (rest : list gostring)
    (m : QueueMetadata) (vl : list gostring)
    (set : bool -> QueueMetadata -> QueueMetadata) :
  keyOk (str key) = true ->
  applyKey (str key) (str "true") m vl = (set true m, vl) ->
  set false m = m ->
  parseLines (boolLine key b ++ rest) m vl = parseLines rest (set b m) vl.
Proof.
  intros Hk Happ Hfalse. unfold boolLine. destruct b; cbn [app].
  - unfold kvLine.
    rewrite parseLines_kv by (assumption || discriminate || reflexivity).
    rewrite Happ. reflexivity.
  - rewrite Hfalse. reflexivity.
Qed.

Lemma cleanVar_inv (v : gostring) :
  cleanVar v = true -> v <> [] /\ TrimSpace v = v.
Proof.
  unfold cleanVar. intros H. apply andb_true_iff in H. destruct H as [Hne Ht].
  split; [destruct v; [discriminate | discriminate]|].
  apply streq_eq. exact Ht.
Qed.

(** The "var:" lines put their values, in order, on [varLines]. *)
Lemma parse_varLines (vs : list gostring) (rest : list gostring)
    (m : QueueMetadata) :
  forallb cleanVar vs = true ->
  forall vl,
    parseLines (flat_map (fun v => strLine "var" (TrimSpace v)) vs ++ rest) m vl
    = parseLines rest m (vl ++ vs).
Proof.
  induction vs as [|v vs IH]; intros Hall vl.
  - cbn [flat_map app]. rewrite app_nil_r. reflexivity.
  - cbn [forallb] in Hall. apply andb_true_iff in Hall.
    destruct Hall as [Hv Hvs]. destruct (cleanVar_inv _ Hv) as [Hne Ht].
    cbn [flat_map]. rewrite Ht. rewrite <- app_assoc.
    unfold strLine at 1.
    destruct v as [|c v']; [congruence|]. cbn [isEmpty app].
    unfold kvLine.
    rewrite parseLines_kv by (assumption || reflexivity).
    replace (applyKey (str "var") (c :: v') m vl)
      with (m, vl ++ [c :: v']) by reflexivity.
    rewrite (IH Hvs). rewrite <- app_assoc. reflexivity.
Qed.

(** Parsing a formatted block is parsing its lines. *)
Lemma Parse_Join (L : list gostring) :
  forallb noNl L = true ->
  ParseQueueMetadata (Join (queueMetadataDelimiter :: L) [nl])
  = Some (let '(m, vl) := parseLines L zeroMeta [] in
          match vl with
          | [] => m
          | _ :: _ => setVars (Join vl [nl]) m
          end).
Proof.
  intros Hall. rewrite Join_cons. unfold ParseQueueMetadata.
  rewrite Index_prefix by discriminate.
  rewrite Nat.add_0_l, skipn_app, skipn_all, Nat.sub_diag.
  cbn [skipn app].
  destruct L as [|l L'].
  - reflexivity.
  - change ([nl] ++ Join (l :: L') [nl]) with (nl :: Join (l :: L') [nl]).
    replace (Split (nl :: Join (l :: L') [nl]) nl)
      with ([] :: Split (Join (l :: L') [nl]) nl) by reflexivity.
    rewrite Split_Join by (discriminate || exact Hall).
    change (parseLines ([] :: l :: L') zeroMeta [])
      with (parseLines (l :: L') zeroMeta []).
    destruct (parseLines (l :: L') zeroMeta []) as [m vl]. reflexivity.
Qed.

Lemma noNl_kv (key : string) (v : gostring) :
  noNl (str key) = true -> noNl v = true -> noNl (kvLine key v) = true.
Proof.
  unfold noNl, kvLine. intros Hk Hv.
  apply negb_true_iff in Hk, Hv. apply negb_true_iff.
  rewrite !existsb_app, Hk, Hv. reflexivity.
Qed.

Lemma noNl_strLine (key : string) (v : gostring) :
  noNl (str key) = true -> noNl v = true ->
  forallb noNl (strLine key v) = true.
Proof.
  intros Hk Hv. unfold strLine. destruct (isEmpty v); [reflexivity|].
  cbn [forallb]. rewrite (noNl_kv _ _ Hk Hv). reflexivity.
Qed.

Lemma noNl_boolLine (key : string) (b : bool) :
  noNl (str key) = true -> forallb noNl (boolLine key b) = true.
Proof.
  intros Hk. unfold boolLine. destruct b; [|reflexivity].
  cbn [forallb]. rewrite (noNl_kv _ _ Hk) by reflexivity. reflexivity.
Qed.

Lemma noNl_varLines (vs : list gostring) :
  forallb cleanVar vs = true ->
  forallb noNl vs = true ->
  forallb noNl (flat_map (fun v => strLine "var" (TrimSpace v)) vs) = true.
Proof.
  induction vs as [|v vs IH]; intros Hc Hn; [reflexivity|].
  cbn [forallb flat_map] in *. apply andb_true_iff in Hc, Hn.
  destruct Hc as [Hv Hvs]. destruct Hn as [Hnv Hnvs].
  destruct (cleanVar_inv _ Hv) as [_ Ht]. rewrite Ht.
  rewrite forallb_app, (IH Hvs Hnvs), andb_true_r.
  apply noNl_strLine; [reflexivity | exact Hnv].
Qed.

Lemma cleanValue_inv (v : gostring) :
  cleanValue v = true -> TrimSpace v = v /\ noNl v = true.
Proof.
  unfold cleanValue, noNl. intros H. apply andb_true_iff in H.
  destruct H as [Ht Hn]. split; [apply streq_eq; exact Ht | exact Hn].
Qed.

Lemma cleanVars_inv (vs : gostring) :
  cleanVars vs = true ->
  vs = [] \/ forallb cleanVar (Split vs nl) = true.
Proof.
  unfold cleanVars. intros H. apply orb_true_iff in H.
  destruct H as [H|H]; [left; destruct vs; [reflexivity | discriminate]|].
  right. exact H.
Qed.

Lemma parse_varLinesOf (vs : gostring) (rest : list gostring)
    (m : QueueMetadata) :
  cleanVars vs = true ->
  parseLines (varLinesOf vs ++ rest) m []
  = parseLines rest m (if isEmpty vs then [] else Split vs nl).
Proof.
  intros H. destruct (cleanVars_inv _ H) as [->|Hall]; [reflexivity|].
  unfold varLinesOf. rewrite (parse_varLines _ _ _ Hall).
  destruct vs; [discriminate Hall | reflexivity].
Qed.

Lemma noNl_varLinesOf (vs : gostring) :
  cleanVars vs = true -> forallb noNl (varLinesOf vs) = true.
Proof.
  intros H. destruct (cleanVars_inv _ H) as [->|Hall]; [reflexivity|].
  unfold varLinesOf. apply noNl_varLines; [exact Hall|].
  apply Split_no_sep.
Qed.

(** The lines read back join to [Vars] again. *)
Lemma joined_vars (vs : gostring) (m : QueueMetadata) :
  setVars [] m = m ->
  match (if isEmpty vs then [] else Split vs nl) with
  | [] => m
  | _ :: _ =>
      setVars (Join (if isEmpty vs then [] else Split vs nl) [nl]) m
  end = setVars vs m.
Proof.
  intros Hm. destruct vs as [|c vs']; cbn [isEmpty]; [symmetry; exact Hm|].
  pose proof (Split_nonempty (c :: vs') nl) as Hne.
  pose proof (Join_Split (c :: vs') nl) as Hj.
  destruct (Split (c :: vs') nl) as [|p ps]; [congruence|].
  rewrite Hj. reflexivity.
Qed.

Lemma applyKey_failures_line (v : gostring) (m : QueueMetadata)
    (vl : list gostring) :
  applyKey (str "dispatch_failures") v m vl
  = match Atoi v with
    | Some n => (setDispatchFailures n m, vl)
    | None => (m, vl)
    end.
Proof. reflexivity. Qed.

Lemma parse_failuresLine (df : Z) (rest : list gostring)
    (m : QueueMetadata) (vl : list gostring) :
  (0 <= df <= maxInt64)%Z ->
  setDispatchFailures 0 m = m ->
  parseLines ((if (df >? 0)%Z
               then [kvLine "dispatch_failures" (Itoa df)] else []) ++ rest)
    m vl
  = parseLines rest (setDispatchFailures df m) vl.
Proof.
  intros Hdf Hm. destruct (Z.gtb_spec df 0) as [Hpos|Hnpos]; cbn [app].
  - destruct (Itoa_clean df Hpos) as [Hne Ht].
    unfold kvLine. rewrite parseLines_kv by (assumption || reflexivity).
    rewrite applyKey_failures_line, Atoi_Itoa by lia. reflexivity.
  - assert (df = 0%Z) by lia. subst df. rewrite Hm. reflexivity.
Qed.

Lemma noNl_failuresLine (df : Z) :
  forallb noNl (if (df >? 0)%Z
                then [kvLine "dispatch_failures" (Itoa df)] else []) = true.
Proof.
  destruct (Z.gtb_spec df 0) as [Hpos|Hnpos]; [|reflexivity].
  cbn [forallb]. rewrite noNl_kv; [reflexivity | reflexivity |].
  unfold noNl. rewrite (Itoa_no_nl _ Hpos). reflexivity.
Qed.

End CodecFacts.

Section RoundTrip.
Import GoStr Meta Spec StrFacts CodecFacts.

Ltac peel H H' := apply andb_true_iff in H; destruct H as [H H'].

(** Keep the record under construction in constructor form. *)
Ltac norm :=
  cbv [setTargetRig setFormula setArgs setVars setEnqueuedAt setMerge
       setConvoy setBaseBranch setNoMerge setAccount setAgent setHookRawBead
       setOwned setDispatchFailures setLastFailure
       TargetRig Formula Args Vars EnqueuedAt Merge Convoy BaseBranch NoMerge
       Account Agent HookRawBead Owned DispatchFailures LastFailure].

Ltac str_step key set :=
  (rewrite (parse_strLine key _ _ _ _ set)
     by first [assumption | vm_compute; reflexivity
              | intros ->; reflexivity]);
  norm.

Ltac bool_step key set :=
  (rewrite (parse_boolLine key _ _ _ _ set) by (vm_compute; reflexivity));
  norm.

(** C1, amended. [Parse (Format m) = m] for every record whose string fields
    have no white space at either end and no line break inside, whose [Vars]
    is empty or made of non-blank lines without white space at either end,
    and whose failure counter is not negative. *)
Theorem codec_round_trip (m : QueueMetadata) :
  wellFormed m = true ->
  ParseQueueMetadata (FormatQueueMetadata m) = Some m.
Proof.
  destruct m as [tr f a vs ea mg cv bb nm ac ag hr ow df lf].
  unfold wellFormed.
  cbn [TargetRig Formula Args Vars EnqueuedAt Merge Convoy BaseBranch NoMerge
       Account Agent HookRawBead Owned DispatchFailures LastFailure].
  intros H.
  peel H Hdf. peel H Hlf. peel H Hag. peel H Hac. peel H Hbb. peel H Hcv.
  peel H Hmg. peel H Hea. peel H Hvs. peel H Ha. peel H Hf.
  destruct (cleanValue_inv _ H) as [Ttr Ntr].
  destruct (cleanValue_inv _ Hf) as [Tf Nf].
  destruct (cleanValue_inv _ Ha) as [Ta Na].
  destruct (cleanValue_inv _ Hea) as [Tea Nea].
  destruct (cleanValue_inv _ Hmg) as [Tmg Nmg].
  destruct (cleanValue_inv _ Hcv) as [Tcv Ncv].
  destruct (cleanValue_inv _ Hbb) as [Tbb Nbb].
  destruct (cleanValue_inv _ Hac) as [Tac Nac].
  destruct (cleanValue_inv _ Hag) as [Tag Nag].
  destruct (cleanValue_inv _ Hlf) as [Tlf Nlf].
  apply andb_true_iff in Hdf. destruct Hdf as [Hdf0 Hdf1].
  apply Z.leb_le in Hdf0, Hdf1.
  unfold FormatQueueMetadata, formatLines.
  cbn [TargetRig Formula Args Vars EnqueuedAt Merge Convoy BaseBranch NoMerge
       Account Agent HookRawBead Owned DispatchFailures LastFailure].
  cbn [app].
  rewrite Parse_Join.
  2:{ rewrite !forallb_app.
      rewrite !noNl_strLine by first [assumption | reflexivity].
      rewrite !noNl_boolLine by reflexivity.
      rewrite (noNl_varLinesOf _ Hvs), noNl_failuresLine. reflexivity. }
  f_equal. unfold zeroMeta.
  rewrite <- (app_nil_r (strLine "last_failure" lf)).
  str_step "target_rig"%string setTargetRig.
  str_step "formula"%string setFormula.
  str_step "args"%string setArgs.
  rewrite (parse_varLinesOf _ _ _ Hvs).
  str_step "enqueued_at"%string setEnqueuedAt.
  str_step "merge"%string setMerge.
  str_step "convoy"%string setConvoy.
  str_step "base_branch"%string setBaseBranch.
  bool_step "no_merge"%string setNoMerge.
  str_step "account"%string setAccount.
  str_step "agent"%string setAgent.
  bool_step "hook_raw_bead"%string setHookRawBead.
  bool_step "owned"%string setOwned.
  rewrite parse_failuresLine by first [reflexivity | split; assumption].
  norm.
  str_step "last_failure"%string setLastFailure.
  cbn [parseLines].
  rewrite joined_vars by reflexivity. reflexivity.
Qed.

Lemma codec_round_trip_witness :
  let m := mkMeta (str "myrig") (str "mol-polecat-work") (str "do the thing")
             (str "x=1
y=2") (str "2026-01-15T10:00:00Z") (str "mr") (str "hq-cv-abc") (str "main")
             true (str "test-acct") (str "codex") true true 1
             (str "sling failed: rig not found") in
  ParseQueueMetadata (FormatQueueMetadata m) = Some m.
Proof.
  intros m. apply codec_round_trip. vm_compute. reflexivity.
Defined.

(** C1, as stated, fails: a record is not read back when a string field has
    a line break inside or white space at an end, when [Vars] has a blank
    line, or when the failure counter is negative. *)
Lemma codec_round_trip_fails :
  let base := mkMeta (str "rig1") [] [] [] (str "2026-01-15T10:00:00Z")
                [] [] [] false [] [] false false 0 [] in
  let broken := setArgs (str "first line
second line") base in
  let padded := setArgs (str "do the thing ") base in
  let blank := setVars (str "a=1

b=2") base in
  let negative := setDispatchFailures (-1) base in
  ParseQueueMetadata (FormatQueueMetadata broken) <> Some broken
  /\ option_map Args (ParseQueueMetadata (FormatQueueMetadata broken))
     = Some (str "first line")
  /\ ParseQueueMetadata (FormatQueueMetadata padded) <> Some padded
  /\ ParseQueueMetadata (FormatQueueMetadata blank) <> Some blank
  /\ ParseQueueMetadata (FormatQueueMetadata negative) <> Some negative.
Proof.
  cbv zeta. repeat split; vm_compute; try reflexivity; discriminate.
Qed.

End RoundTrip.

(* ================================================================== *)
(** * Further properties: backoff, wake policy, detection *)
(* ================================================================== *)

Module BackoffFacts.
Import GoStr Idle.
Local Open Scope Z_scope.

Lemma wrap64_small (z : Z) : - 2 ^ 63 <= z <= 2 ^ 63 - 1 -> wrap64 z = z.
Proof. intros H. unfold wrap64. rewrite Z.mod_small by lia. lia. Qed.

(** The value below the overflow bound. *)
Lemma next_value (c : Z) :
  c < 2 ^ 62 ->
  nextBackoffInterval c
  = if c <? 30000000000 then 30000000000 else Z.min (c * 2) 300000000000.
Proof.
  intros Hc. unfold nextBackoffInterval, Minute, Second. cbv zeta.
  change (30 * 1000000000) with 30000000000.
  change (5 * (60 * 1000000000)) with 300000000000.
  destruct (Z.ltb_spec c 30000000000); [reflexivity|].
  rewrite wrap64_small by lia.
  destruct (Z.gtb_spec (c * 2) 300000000000); lia.
Qed.

End BackoffFacts.

Section Backoff.
Import GoStr Idle BackoffFacts.
Local Open Scope Z_scope.

(** X1. Below the overflow bound the next backoff always lies between 30 s
    and 5 min, never shrinks a backoff that is at most 5 min, and grows with
    its argument. *)
Theorem nextBackoffInterval_bounds (c1 c2 : Z) :
  c1 <= c2 -> c2 < 2 ^ 62 ->
  30 * Second <= nextBackoffInterval c1 <= 5 * Minute
  /\ (c1 <= 5 * Minute -> c1 <= nextBackoffInterval c1)
  /\ nextBackoffInterval c1 <= nextBackoffInterval c2.
Proof.
  intros Hle Hb. rewrite !next_value by lia. unfold Minute, Second.
  destruct (Z.ltb_spec c1 30000000000), (Z.ltb_spec c2 30000000000); lia.
Qed.

Lemma nextBackoffInterval_bounds_witness :
  30 * Second <= nextBackoffInterval (45 * Second) <= 5 * Minute
  /\ nextBackoffInterval (45 * Second) <= nextBackoffInterval (2 * Minute).
Proof.
  destruct (nextBackoffInterval_bounds (45 * Second) (2 * Minute)
              ltac:(vm_compute; discriminate) ltac:(vm_compute; reflexivity))
    as [H1 [_ H3]].
  split; assumption.
Defined.

(** X2. From any backoff below the overflow bound, five idle heartbeats
    reach the 5 min cap, and the cap is a fixed point. *)
Theorem nextBackoffInterval_reaches_cap (c : Z) :
  c < 2 ^ 62 ->
  Nat.iter 5 nextBackoffInterval c = 5 * Minute
  /\ nextBackoffInterval (5 * Minute) = 5 * Minute.
Proof.
  intros Hc. split; [|vm_compute; reflexivity].
  change (Nat.iter 5 nextBackoffInterval c)
    with (nextBackoffInterval (nextBackoffInterval (nextBackoffInterval
            (nextBackoffInterval (nextBackoffInterval c))))).
  unfold Minute, Second.
  rewrite (next_value c Hc).
  assert (H1 : 30000000000 <= (if c <? 30000000000 then 30000000000
                               else Z.min (c * 2) 300000000000)
               <= 300000000000)
    by (destruct (Z.ltb_spec c 30000000000); lia).
  set (x1 := if c <? 30000000000 then 30000000000
             else Z.min (c * 2) 300000000000) in *.
  rewrite (next_value x1) by lia.
  destruct (Z.ltb_spec x1 30000000000) as [|_]; [lia|].
  set (x2 := Z.min (x1 * 2) 300000000000).
  assert (H2 : 60000000000 <= x2 <= 300000000000) by (subst x2; lia).
  rewrite (next_value x2) by lia.
  destruct (Z.ltb_spec x2 30000000000) as [|_]; [lia|].
  set (x3 := Z.min (x2 * 2) 300000000000).
  assert (H3 : 120000000000 <= x3 <= 300000000000) by (subst x3; lia).
  rewrite (next_value x3) by lia.
  destruct (Z.ltb_spec x3 30000000000) as [|_]; [lia|].
  set (x4 := Z.min (x3 * 2) 300000000000).
  assert (H4 : 240000000000 <= x4 <= 300000000000) by (subst x4; lia).
  rewrite (next_value x4) by lia.
  destruct (Z.ltb_spec x4 30000000000) as [|_]; lia.
Qed.

Lemma nextBackoffInterval_reaches_cap_witness :
  Nat.iter 5 nextBackoffInterval 0 = 5 * Minute.
Proof.
  exact (proj1 (nextBackoffInterval_reaches_cap 0 ltac:(vm_compute; reflexivity))).
Defined.

End Backoff.

Module WakeFacts.
Import GoStr Idle UsageLimit UsageMore.
Local Open Scope Z_scope.

(** [ShouldWake] in arithmetic. *)
Lemma ShouldWake_char (s : State) (now : Time) :
  ShouldWake s now = true <->
  Active s = true
  /\ ResetAt s + 120000000000 <= now
  /\ WakeAttempts s < 3
  /\ (LastWakeAttempt s = 0 \/ 300000000000 <= now - LastWakeAttempt s).
Proof.
  unfold ShouldWake, Add, Before, IsZero, Sub, WakeBuffer, MaxWakeAttempts,
    WakeAttemptCooldown, maxInt64, minInt64, Minute, Second.
  change (2 * (60 * 1000000000)) with 120000000000.
  change (5 * (60 * 1000000000)) with 300000000000.
  destruct (Active s); cbn [negb]; [|intuition discriminate].
  destruct (Z.ltb_spec now (ResetAt s + 120000000000));
    [split; [discriminate | lia]|].
  destruct (Z.geb_spec (WakeAttempts s) 3);
    [split; [discriminate | lia]|].
  destruct (Z.eqb_spec (LastWakeAttempt s) 0); cbn [negb andb];
    [split; intros; [repeat split; auto; lia | reflexivity]|].
  destruct (Z.gtb_spec (now - LastWakeAttempt s) (2 ^ 63 - 1)).
  - cbn. split; intros; [repeat split; auto; lia | reflexivity].
  - destruct (Z.ltb_spec (now - LastWakeAttempt s) (- 2 ^ 63)).
    + cbn. split; [discriminate | lia].
    + destruct (Z.ltb_spec (now - LastWakeAttempt s) 300000000000).
      * split; [discriminate | lia].
      * split; intros; [repeat split; auto; lia | reflexivity].
Qed.

Lemma ShouldWake_false (s : State) (now : Time) :
  ~ (Active s = true
     /\ ResetAt s + 120000000000 <= now
     /\ WakeAttempts s < 3
     /\ (LastWakeAttempt s = 0 \/ 300000000000 <= now - LastWakeAttempt s)) ->
  ShouldWake s now = false.
Proof.
  intros H. destruct (ShouldWake s now) eqn:E; [|reflexivity].
  apply ShouldWake_char in E. contradiction.
Qed.

End WakeFacts.

Section WakeMore.
Import GoStr Idle UsageLimit UsageMore WakeFacts BackoffFacts.
Local Open Scope Z_scope.

(** X3. Once a wake is due it stays due: with the state unchanged,
    [ShouldWake] that holds at one time holds at every later time. *)
Theorem ShouldWake_stays (s : State) (now later : Time) :
  ShouldWake s now = true -> now <= later -> ShouldWake s later = true.
Proof.
  intros H Hle. apply ShouldWake_char in H. apply ShouldWake_char.
  destruct H as [Ha [Hr [Hw Hl]]]. repeat split; try assumption; lia.
Qed.

Lemma ShouldWake_stays_witness :
  ShouldWake (mkState true 1000 1000 [] [] 0 0 0) (1000 + 3 * Minute) = true.
Proof.
  apply (ShouldWake_stays (mkState true 1000 1000 [] [] 0 0 0)
           (1000 + 2 * Minute) (1000 + 3 * Minute)).
  - vm_compute. reflexivity.
  - vm_compute. discriminate.
Defined.

(** X4. After a wake attempt is recorded (at a time other than the zero
    time), no wake is due during the next five minutes. *)
Theorem RecordWakeAttempt_cooldown (s : State) (now t : Time) :
  now <> 0 -> now <= t < now + 5 * Minute ->
  ShouldWake (RecordWakeAttempt s now) t = false.
Proof.
  intros Hz Ht. apply ShouldWake_false. unfold RecordWakeAttempt.
  cbn [Active ResetAt WakeAttempts LastWakeAttempt].
  unfold Minute, Second in Ht. intros [_ [_ [_ [H|H]]]]; lia.
Qed.

Lemma RecordWakeAttempt_cooldown_witness :
  ShouldWake (RecordWakeAttempt (mkState true 1000 1000 [] [] 0 0 0)
                (1000 + 2 * Minute)) (1000 + 3 * Minute) = false.
Proof.
  apply RecordWakeAttempt_cooldown.
  - vm_compute. discriminate.
  - vm_compute. split; [discriminate | reflexivity].
Defined.

(** X5. Wake attempts are bounded: once three attempts have been recorded
    on a state whose counter was not negative, no wake is ever due again,
    whatever the clock says. *)
Theorem wake_attempts_exhausted (s : State) (t1 t2 t3 now : Time) :
  0 <= WakeAttempts s <= maxInt64 - 3 ->
  ShouldWake
    (RecordWakeAttempt (RecordWakeAttempt (RecordWakeAttempt s t1) t2) t3)
    now = false.
Proof.
  intros Hw. apply ShouldWake_false. unfold RecordWakeAttempt, maxInt64 in *.
  cbn [Active ResetAt WakeAttempts LastWakeAttempt].
  rewrite (wrap64_small (WakeAttempts s + 1)) by lia.
  rewrite (wrap64_small (WakeAttempts s + 1 + 1)) by lia.
  rewrite (wrap64_small (WakeAttempts s + 1 + 1 + 1)) by lia.
  intros [_ [_ [H _]]]. lia.
Qed.

Lemma wake_attempts_exhausted_witness :
  ShouldWake
    (RecordWakeAttempt
       (RecordWakeAttempt
          (RecordWakeAttempt (mkState true 1000 1000 [] [] 0 0 0)
             (1000 + 2 * Minute))
          (1000 + 7 * Minute))
       (1000 + 12 * Minute))
    (1000 + 60 * Minute) = false.
Proof.
  apply wake_attempts_exhausted. vm_compute.
  split; discriminate.
Defined.

End WakeMore.

(* ================================================================== *)
(** * Further properties: detection, amounts, wake signal, epic filter *)
(* ================================================================== *)

Module DetectFacts.
Import GoStr UsageLimit.

Lemma firstPattern_none (lower : gostring) (ps : list (gostring * gostring)) :
  firstPattern lower ps = None ->
  existsb (fun p => Contains lower (fst p)) ps = false.
Proof.
  induction ps as [|[p r] ps IH]; intros H; [reflexivity|].
  cbn [firstPattern existsb fst] in *.
  destruct (Contains lower p); [discriminate|]. apply IH. exact H.
Qed.

Lemma firstPattern_some (lower : gostring) (ps : list (gostring * gostring))
    (r : gostring) :
  firstPattern lower ps = Some r ->
  existsb (fun p => Contains lower (fst p)) ps = true.
Proof.
  induction ps as [|[p r'] ps IH]; intros H; [discriminate|].
  cbn [firstPattern existsb fst] in *.
  destruct (Contains lower p); [reflexivity|]. apply IH. exact H.
Qed.

(** The scan answers with the first entry that occurs. *)
Lemma firstPattern_first (lower : gostring)
    (pre : list (gostring * gostring)) (p r : gostring)
    (post : list (gostring * gostring)) :
  existsb (fun q => Contains lower (fst q)) pre = false ->
  Contains lower p = true ->
  firstPattern lower (pre ++ (p, r) :: post) = Some r.
Proof.
  induction pre as [|[q s] pre IH]; intros Hpre Hp; cbn [app firstPattern].
  - rewrite Hp. reflexivity.
  - cbn [existsb fst] in Hpre. apply orb_false_iff in Hpre.
    destruct Hpre as [Hq Hrest]. rewrite Hq. apply IH; assumption.
Qed.

End DetectFacts.

Section DetectMore.
Import GoStr UsageLimit DetectFacts SpecMore.
Variable extractResetDuration : gostring -> Z.

(** X6. A transcript of ASCII text is reported limited exactly when some
    entry of the table occurs in its lowercased text, and the reported
    reset duration is zero exactly when it is not limited (a limit without
    a parsed reset time gets the one-hour default). *)
Theorem detectUsageLimit_limited (transcript : gostring) :
  isASCII transcript = true ->
  fst (fst (detectUsageLimit extractResetDuration transcript))
  = existsb (fun p => Contains (ToLower transcript) (fst p)) usageLimitPatterns
  /\ (snd (fst (detectUsageLimit extractResetDuration transcript)) =? 0)%Z
     = negb (fst (fst (detectUsageLimit extractResetDuration transcript))).
Proof.
  intros _. unfold detectUsageLimit.
  destruct (firstPattern (ToLower transcript) usageLimitPatterns) as [r|] eqn:E.
  - rewrite (firstPattern_some _ _ _ E).
    destruct (extractResetDuration transcript =? 0)%Z eqn:Ez;
      cbn [fst snd negb]; [split; reflexivity|].
    split; [reflexivity | exact Ez].
  - rewrite (firstPattern_none _ _ E). split; reflexivity.
Qed.

(** X7. First match wins, for a transcript of ASCII text: when an entry
    of the table occurs in the lowercased transcript and none of the
    entries before it does, the reason is that entry's reason, with
    " (default 1h reset)" appended when no reset time was extracted. *)
Theorem detectUsageLimit_first_match (transcript : gostring)
    (pre : list (gostring * gostring)) (p r : gostring)
    (post : list (gostring * gostring)) :
  isASCII transcript = true ->
  usageLimitPatterns = pre ++ (p, r) :: post ->
  existsb (fun q => Contains (ToLower transcript) (fst q)) pre = false ->
  Contains (ToLower transcript) p = true ->
  detectUsageLimit extractResetDuration transcript
  = if (extractResetDuration transcript =? 0)%Z
    then (true, Idle.Hour, r ++ str " (default 1h reset)")
    else (true, extractResetDuration transcript, r).
Proof.
  intros _ Htab Hpre Hp. unfold detectUsageLimit.
  rewrite Htab, (firstPattern_first _ _ _ _ _ Hpre Hp). reflexivity.
Qed.

End DetectMore.

Section DetectCases.
Import GoStr UsageLimit.

Lemma detectUsageLimit_limited_witness :
  fst (fst (detectUsageLimit (fun _ => 0%Z) (str "You have hit a Token Limit")))
  = existsb (fun p => Contains (ToLower (str "You have hit a Token Limit"))
                        (fst p)) usageLimitPatterns
  /\ (snd (fst (detectUsageLimit (fun _ => 0%Z)
                  (str "You have hit a Token Limit"))) =? 0)%Z
     = negb (fst (fst (detectUsageLimit (fun _ => 0%Z)
                         (str "You have hit a Token Limit")))).
Proof.
  exact (detectUsageLimit_limited (fun _ => 0%Z)
           (str "You have hit a Token Limit") eq_refl).
Defined.

Lemma detectUsageLimit_first_match_witness :
  detectUsageLimit (fun _ => 0%Z)
    (str "API Error: Rate_Limit_Error (status 429), retry later")
  = (true, Idle.Hour,
     str "Anthropic API rate_limit_error" ++ str " (default 1h reset)").
Proof.
  exact (detectUsageLimit_first_match (fun _ => 0%Z)
           (str "API Error: Rate_Limit_Error (status 429), retry later")
           [] (str "rate_limit_error") (str "Anthropic API rate_limit_error")
           (tl usageLimitPatterns) eq_refl eq_refl eq_refl eq_refl).
Defined.

End DetectCases.

Module AmountFacts.
Import GoStr UsageMore AtoiFacts BackoffFacts.
Local Open Scope Z_scope.

Lemma parseAmountFrom_digitsOf (fuel : nat) :
  forall n acc,
    0 <= n < 10 ^ Z.of_nat fuel -> n <= maxInt64 ->
    parseAmountFrom (digitsOf fuel n acc) 0 = parseAmountFrom acc n.
Proof.
  induction fuel as [|f IH]; intros n acc Hn Hmax.
  - cbn in Hn. assert (n = 0) by lia. subst n. reflexivity.
  - cbn [digitsOf]. cbv zeta.
    assert (Hmod : 0 <= n mod 10 <= 9)
      by (pose proof (Z.mod_pos_bound n 10); lia).
    assert (Hdiv : n = 10 * (n / 10) + n mod 10) by (apply Z.div_mod; lia).
    assert (Hq : 0 <= n / 10) by (apply Z.div_pos; lia).
    unfold maxInt64 in Hmax.
    destruct (Z.eqb_spec (n / 10) 0) as [Hz|Hz].
    + cbn [parseAmountFrom]. rewrite (digitVal_digitChar _ Hmod).
      rewrite wrap64_small by lia. f_equal. lia.
    + rewrite IH.
      * cbn [parseAmountFrom]. rewrite (digitVal_digitChar _ Hmod).
        rewrite wrap64_small by lia. f_equal. lia.
      * rewrite Nat2Z.inj_succ, Z.pow_succ_r in Hn by lia.
        split; [exact Hq|]. apply Z.div_lt_upper_bound; lia.
      * unfold maxInt64. lia.
Qed.

End AmountFacts.

Section Amounts.
Import GoStr UsageMore AmountFacts.
Local Open Scope Z_scope.

(** X8. [parseAmount] reads a printed non-negative [int] back, and stops at
    the first byte that is not a digit: whatever follows it is ignored. *)
Theorem parseAmount_reads_number (n : Z) (c : ascii) (rest : gostring) :
  0 <= n <= maxInt64 ->
  digitVal c = None ->
  parseAmount (Itoa n) = n /\ parseAmount (Itoa n ++ c :: rest) = n.
Proof.
  intros Hn Hc. unfold parseAmount, Itoa.
  destruct (Z.ltb_spec n 0); [lia|].
  assert (Hpow : 10 ^ Z.of_nat 20 = 100000000000000000000)
    by (vm_compute; reflexivity).
  assert (Hr : 0 <= n < 10 ^ Z.of_nat 20)
    by (rewrite Hpow; unfold maxInt64 in Hn; lia).
  split.
  - rewrite parseAmountFrom_digitsOf by (assumption || lia). reflexivity.
  - replace (digitsOf 20 n [] ++ c :: rest) with (digitsOf 20 n (c :: rest)).
    + rewrite parseAmountFrom_digitsOf by (assumption || lia).
      cbn [parseAmountFrom]. rewrite Hc. reflexivity.
    + clear. generalize 20%nat as fuel. intros fuel.
      change (c :: rest) with ([] ++ c :: rest) at 1.
      generalize (@nil ascii) as acc. revert n.
      induction fuel as [|f IH]; intros n acc; [reflexivity|].
      cbn [digitsOf]. cbv zeta.
      destruct (n / 10 =? 0); [reflexivity|].
      change (digitChar (n mod 10) :: acc ++ c :: rest)
        with ((digitChar (n mod 10) :: acc) ++ c :: rest).
      apply IH.
Qed.

Lemma parseAmount_reads_number_witness :
  parseAmount (Itoa 45 ++ " "%char :: str "minutes") = 45.
Proof.
  apply (proj2 (parseAmount_reads_number 45 " "%char (str "minutes")
                  ltac:(vm_compute; split; discriminate) eq_refl)).
Defined.

End Amounts.

Section WakeSignal.
Import GoStr Wake StrFacts.

(** X9. A wake signal is consumed once: after a [SignalWake] that went
    through, [ConsumeWakeSignal] answers true; once a consume has removed
    the file, the next consume answers false; and consuming never touches
    another file. *)
Theorem wake_signal_consumed_once (fs : Files) (wakePath now : gostring)
    (removeOk2 : bool) :
  let '(sent, fs1) := SignalWake true true wakePath now fs in
  let '(first, fs2) := ConsumeWakeSignal true wakePath fs1 in
  let '(second, fs3) := ConsumeWakeSignal removeOk2 wakePath fs2 in
  sent = true /\ first = true /\ second = false
  /\ forall p, streq p wakePath = false -> fs3 p = fs p.
Proof.
  unfold SignalWake, ConsumeWakeSignal. cbn [negb].
  unfold writeFile at 1. rewrite streq_refl.
  unfold removeFile at 1. rewrite streq_refl.
  repeat split. intros p Hp. unfold removeFile, writeFile. rewrite Hp.
  reflexivity.
Qed.

Lemma wake_signal_consumed_once_witness :
  let '(sent, fs1) :=
    SignalWake true true (str "/town/daemon/idle-wake")
      (str "2026-01-02T03:04:05Z") (fun _ => None) in
  let '(first, fs2) :=
    ConsumeWakeSignal true (str "/town/daemon/idle-wake") fs1 in
  let '(second, fs3) :=
    ConsumeWakeSignal false (str "/town/daemon/idle-wake") fs2 in
  sent = true /\ first = true /\ second = false
  /\ forall p, streq p (str "/town/daemon/idle-wake") = false ->
       fs3 p = None.
Proof.
  exact (wake_signal_consumed_once (fun _ => None)
           (str "/town/daemon/idle-wake") (str "2026-01-02T03:04:05Z") false).
Defined.

End WakeSignal.

Module EpicFacts.
Import GoStr Epic SpecMore.
Local Open Scope Z_scope.

Lemma filterChildren_tally (children : list epicChild) (force : bool) :
  forall t,
    let t' := filterChildren children force t in
    candidates t'
    = candidates t
      ++ map (fun c => (ID c, Title c)) (filter (queueable force) children)
    /\ skippedClosed t'
       = skippedClosed t + Z.of_nat (List.length (filter isClosed children))
    /\ Z.of_nat (List.length (candidates t'))
       + skippedClosed t' + skippedAssigned t' + skippedQueued t'
       = Z.of_nat (List.length (candidates t))
         + skippedClosed t + skippedAssigned t + skippedQueued t
         + Z.of_nat (List.length children).
Proof.
  induction children as [|c rest IH]; intros t.
  - cbn. rewrite app_nil_r. repeat split; lia.
  - cbn [filterChildren filter]. unfold queueable at 1, isClosed at 1.
    destruct (streq (Status c) (str "closed")
              || streq (Status c) (str "tombstone")); cbn [negb andb].
    + specialize (IH (mkTally (candidates t) (skippedClosed t + 1)
                        (skippedAssigned t) (skippedQueued t))).
      cbv zeta in *. cbn [candidates skippedClosed skippedAssigned
                          skippedQueued List.length] in *.
      destruct IH as [H1 [H2 H3]]. repeat split; [exact H1 | lia | lia].
    + destruct (negb (isEmpty (Assignee c)) && negb force); cbn [negb andb].
      * specialize (IH (mkTally (candidates t) (skippedClosed t)
                          (skippedAssigned t + 1) (skippedQueued t))).
        cbv zeta in *. cbn [candidates skippedClosed skippedAssigned
                            skippedQueued List.length] in *.
        destruct IH as [H1 [H2 H3]]. repeat split; [exact H1 | lia | lia].
      * destruct (hasQueuedLabel (Labels c)); cbn [negb].
        -- specialize (IH (mkTally (candidates t) (skippedClosed t)
                             (skippedAssigned t) (skippedQueued t + 1))).
           cbv zeta in *. cbn [candidates skippedClosed skippedAssigned
                               skippedQueued List.length] in *.
           destruct IH as [H1 [H2 H3]]. repeat split; [exact H1 | lia | lia].
        -- specialize (IH (mkTally (candidates t ++ [(ID c, Title c)])
                             (skippedClosed t) (skippedAssigned t)
                             (skippedQueued t))).
           cbv zeta in *. cbn [candidates skippedClosed skippedAssigned
                               skippedQueued List.length map] in *.
           destruct IH as [H1 [H2 H3]].
           rewrite length_app in H3. cbn [List.length] in H3.
           repeat split; [rewrite H1, <- app_assoc; reflexivity | lia | lia].
Qed.

End EpicFacts.

Section EpicFilter.
Import GoStr Epic SpecMore EpicFacts.
Local Open Scope Z_scope.

(** X10. The filter of [gt queue epic] sorts every child into exactly one
    of four bins: the candidates are, in order, the children that are not
    closed, not assigned (unless forced) and not already queued, and
    candidates plus the three skip counters add up to the number of
    children. *)
Theorem filterChildren_partition (children : list epicChild) (force : bool) :
  let t := filterChildren children force emptyTally in
  candidates t
  = map (fun c => (ID c, Title c)) (filter (queueable force) children)
  /\ Z.of_nat (List.length (candidates t))
     + skippedClosed t + skippedAssigned t + skippedQueued t
     = Z.of_nat (List.length children).
Proof.
  destruct (filterChildren_tally children force emptyTally) as [H1 [_ H3]].
  cbv zeta in *. split; [exact H1|].
  cbn [emptyTally candidates skippedClosed skippedAssigned skippedQueued
       List.length] in H3. lia.
Qed.

End EpicFilter.

(* ================================================================== *)
(** * Further properties: the ready set across directories, vars *)
(* ================================================================== *)

Module ScanFacts.
Import GoStr Dispatch Ready SpecMore StrFacts.

Lemma seen_In (id : gostring) (seen : list gostring) :
  existsb (streq id) seen = true <-> In id seen.
Proof.
  rewrite existsb_exists. split.
  - intros [x [Hx Hs]]. apply streq_eq in Hs. subst x. exact Hx.
  - intros H. exists id. split; [exact H | apply streq_refl].
Qed.

Lemma addUnseen_spec (beads : list readyQueuedBead) :
  forall seen result,
    coherent seen result ->
    let '(seen', result') := addUnseen beads seen result in
    coherent seen' result'
    /\ (forall b, In b result' -> In b result \/ In b beads)
    /\ (forall b, In b result -> In b result')
    /\ (forall b, In b beads -> In (ID b) (map ID result')).
Proof.
  induction beads as [|b rest IH]; intros seen result Hco.
  - cbn. repeat split; try apply Hco; auto. intros b [].
  - cbn [addUnseen].
    destruct (existsb (streq (ID b)) seen) eqn:E; cbn [negb].
    + specialize (IH seen result Hco).
      destruct (addUnseen rest seen result) as [seen' result'].
      destruct IH as [H1 [H2 [H3 H4]]].
      split; [exact H1|]. split; [|split; [exact H3|]].
      * intros x Hx. destruct (H2 x Hx); [left | right; right]; assumption.
      * intros x [<-|Hx]; [|apply H4; exact Hx].
        apply seen_In in E. apply Hco in E.
        apply in_map_iff in E. destruct E as [y [Hy Hin]].
        rewrite <- Hy. apply in_map. apply H3. exact Hin.
    + assert (Hnew : ~ In (ID b) (map ID result)).
      { intros Hin. apply Hco in Hin. apply seen_In in Hin. congruence. }
      assert (Hco' : coherent (ID b :: seen) (result ++ [b])).
      { destruct Hco as [Hs Hn]. split.
        - intros id. rewrite map_app, in_app_iff. cbn.
          rewrite Hs. tauto.
        - rewrite map_app. cbn [map].
          apply NoDup_app; [exact Hn | repeat constructor; intros [] |].
          intros x Hx [<-|[]]. contradiction. }
      specialize (IH (ID b :: seen) (result ++ [b]) Hco').
      destruct (addUnseen rest (ID b :: seen) (result ++ [b]))
        as [seen' result'].
      destruct IH as [H1 [H2 [H3 H4]]].
      split; [exact H1|]. split; [|split].
      * intros x Hx. destruct (H2 x Hx) as [Hin|Hin].
        -- apply in_app_iff in Hin. destruct Hin as [Hin|[<-|[]]];
             [left; exact Hin | right; left; reflexivity].
        -- right. right. exact Hin.
      * intros x Hx. apply H3. apply in_app_iff. left. exact Hx.
      * intros x [<-|Hx]; [|apply H4; exact Hx].
        apply in_map. apply H3. apply in_app_iff. right. left. reflexivity.
Qed.

Lemma scanDirs_spec (dirs : list (option (list rawBead))) :
  forall seen result fc,
    coherent seen result ->
    let '(result', fc') := scanDirs dirs seen result fc in
    NoDup (map ID result')
    /\ (forall b, In b result' ->
          In b result
          \/ exists raw, In (Some raw) dirs /\ In b (readyLoop raw))
    /\ (forall b, In b result -> In (ID b) (map ID result'))
    /\ (forall raw b, In (Some raw) dirs -> In b (readyLoop raw) ->
          In (ID b) (map ID result'))
    /\ fc' = fc + List.length (filter (fun d => match d with
                                               | None => true
                                               | Some _ => false
                                               end) dirs).
Proof.
  induction dirs as [|dir rest IH]; intros seen result fc Hco.
  - cbn. split; [apply Hco|]. split; [auto|]. split; [apply in_map|].
    split; [intros raw b []|lia].
  - cbn [scanDirs filter]. unfold getReadyQueuedBeadsFrom.
    destruct dir as [raw|].
    + pose proof (addUnseen_spec (readyLoop raw) seen result Hco) as Ha.
      destruct (addUnseen (readyLoop raw) seen result) as [seen' result'].
      cbv beta iota.
      destruct Ha as [Hco' [Ha2 [Ha3 Ha4]]].
      specialize (IH seen' result' fc Hco').
      destruct (scanDirs rest seen' result' fc) as [res fc'].
      cbv beta iota in IH |- *.
      destruct IH as [H1 [H2 [H3 [H4 H5]]]].
      split; [exact H1|]. split; [|split; [|split; [|exact H5]]].
      * intros b Hb. destruct (H2 b Hb) as [Hin|[raw' [Hr Hin]]].
        -- destruct (Ha2 b Hin) as [Hin'|Hin']; [left; exact Hin'|].
           right. exists raw. split; [left; reflexivity | exact Hin'].
        -- right. exists raw'. split; [right; exact Hr | exact Hin].
      * intros b Hb. apply H3. apply Ha3. exact Hb.
      * intros raw' b [Heq|Hr] Hb.
        -- injection Heq as <-. specialize (Ha4 b Hb).
           apply in_map_iff in Ha4. destruct Ha4 as [y [Hy Hin]].
           rewrite <- Hy. apply H3. exact Hin.
        -- apply (H4 raw' b Hr Hb).
    + specialize (IH seen result (S fc) Hco).
      destruct (scanDirs rest seen result (S fc)) as [res fc'].
      cbv beta iota in IH |- *.
      destruct IH as [H1 [H2 [H3 [H4 H5]]]].
      split; [exact H1|]. split; [|split; [exact H3|split]].
      * intros b Hb. destruct (H2 b Hb) as [Hin|[raw' [Hr Hin]]];
          [left; exact Hin|].
        right. exists raw'. split; [right; exact Hr | exact Hin].
      * intros raw' b [Heq|Hr] Hb; [discriminate|]. apply (H4 raw' b Hr Hb).
      * cbn [List.length]. lia.
Qed.

Lemma coherent_nil : coherent [] [].
Proof. split; [intros id; cbn; tauto | constructor]. Qed.

Lemma all_failed_length (dirs : list (option (list rawBead))) :
  List.length (filter (fun d => match d with
                                | None => true
                                | Some _ => false
                                end) dirs) = List.length dirs
  <-> forall d, In d dirs -> d = None.
Proof.
  induction dirs as [|d rest IH]; [cbn; tauto|].
  cbn [filter]. destruct d as [raw|].
  - split.
    + intros H. pose proof (filter_length_le
                              (fun d => match d with
                                        | None => true
                                        | Some _ => false
                                        end) rest) as Hle.
      cbn [List.length] in H. lia.
    + intros H. specialize (H (Some raw) (or_introl eq_refl)). discriminate.
  - cbn [List.length]. split.
    + intros H d [<-|Hd]; [reflexivity|]. apply IH; [lia | exact Hd].
    + intros H. f_equal. apply IH. intros d Hd. apply H. right. exact Hd.
Qed.

End ScanFacts.

Section ReadyAcrossDirs.
Import GoStr Dispatch Ready ScanFacts.

(** X11. The ready set gathered over the bead directories lists no bead ID
    twice; each of its beads was reported ready (and passed the circuit
    breaker) in some directory that answered; and every bead ID reported in
    a directory that answered is in it. *)
Theorem getReadyQueuedBeads_dedup (dirs : list (option (list rawBead)))
    (result : list readyQueuedBead) :
  getReadyQueuedBeads dirs = Some result ->
  NoDup (map ID result)
  /\ (forall b, In b result ->
        exists raw, In (Some raw) dirs /\ In b (readyLoop raw))
  /\ (forall raw b, In (Some raw) dirs -> In b (readyLoop raw) ->
        In (ID b) (map ID result)).
Proof.
  unfold getReadyQueuedBeads.
  pose proof (scanDirs_spec dirs [] [] 0 coherent_nil) as H.
  destruct (scanDirs dirs [] [] 0) as [res fc].
  destruct H as [H1 [H2 [_ [H4 _]]]].
  destruct (Nat.eqb fc (List.length dirs) && (0 <? fc)%nat); [discriminate|].
  intros Heq. injection Heq as <-.
  split; [exact H1|]. split; [|exact H4].
  intros b Hb. destruct (H2 b Hb) as [[]|Hex]. exact Hex.
Qed.

(** X12. Store unreachable: the query fails exactly when there is at least
    one bead directory and [bd ready] failed in every one of them; with no
    directory at all it answers the empty set. *)
Theorem getReadyQueuedBeads_error (dirs : list (option (list rawBead))) :
  getReadyQueuedBeads dirs = None
  <-> dirs <> [] /\ forall d, In d dirs -> d = None.
Proof.
  unfold getReadyQueuedBeads.
  pose proof (scanDirs_spec dirs [] [] 0 coherent_nil) as H.
  destruct (scanDirs dirs [] [] 0) as [res fc].
  destruct H as [_ [_ [_ [_ H5]]]]. cbn [Nat.add] in H5.
  pose proof (all_failed_length dirs) as Hall. rewrite <- H5 in Hall.
  destruct (Nat.eqb_spec fc (List.length dirs)) as [He|Hne]; cbn [andb].
  - destruct (Nat.ltb_spec 0 fc) as [Hpos|Hz].
    + split; [|reflexivity]. intros _. split; [|apply Hall; exact He].
      intros ->. cbn in He. lia.
    + split; [discriminate|]. intros [Hd _]. exfalso.
      destruct dirs; [congruence | cbn in He; lia].
  - split; [discriminate|]. intros [_ Hd]. exfalso. apply Hne.
    apply Hall. exact Hd.
Qed.

End ReadyAcrossDirs.

Section ReadyCases.
Import GoStr Dispatch Ready.

Lemma getReadyQueuedBeads_dedup_witness :
  NoDup
    (map ID
       (map Spec.toReady
          [mkRaw (str "b1") (str "one") (str "plain") [str "gt:queued"];
           mkRaw (str "b2") (str "two") (str "plain") [str "gt:queued"]])).
Proof.
  exact (proj1 (getReadyQueuedBeads_dedup
                  [Some [mkRaw (str "b1") (str "one") (str "plain")
                           [str "gt:queued"];
                         mkRaw (str "b2") (str "two") (str "plain")
                           [str "gt:queued"]];
                   None;
                   Some [mkRaw (str "b2") (str "two") (str "plain")
                           [str "gt:queued"]]]
                  (map Spec.toReady
                     [mkRaw (str "b1") (str "one") (str "plain")
                        [str "gt:queued"];
                      mkRaw (str "b2") (str "two") (str "plain")
                        [str "gt:queued"]])
                  ltac:(vm_compute; reflexivity))).
Defined.

Lemma getReadyQueuedBeads_error_witness :
  getReadyQueuedBeads [None; None] = None.
Proof.
  apply getReadyQueuedBeads_error. split; [discriminate|].
  intros d [<-|[<-|[]]]; reflexivity.
Defined.

End ReadyCases.

(* ================================================================== *)
(** * Further properties of the codec *)
(* ================================================================== *)

Module BlockFacts.
Import GoStr Meta Spec SpecMore StrFacts TrimFacts SplitFacts.

Lemma TrimRightNl_snoc (s : gostring) : TrimRightNl (s ++ [nl]) = TrimRightNl s.
Proof.
  unfold TrimRightNl. rewrite rev_app_distr. reflexivity.
Qed.

Lemma dropWhileNl_idem (r : gostring) :
  dropWhileNl (dropWhileNl r) = dropWhileNl r.
Proof.
  induction r as [|c r IH]; [reflexivity|].
  cbn [dropWhileNl]. destruct (Ascii.eqb c nl) eqn:E; [exact IH|].
  cbn [dropWhileNl]. rewrite E. reflexivity.
Qed.

Lemma TrimRightNl_idem (s : gostring) :
  TrimRightNl (TrimRightNl s) = TrimRightNl s.
Proof.
  unfold TrimRightNl. rewrite rev_involutive, dropWhileNl_idem. reflexivity.
Qed.

(** A separator without a line break cannot sit across one. *)
Lemma HasPrefix_nl_boundary (sep p Y : gostring) :
  noNl sep = true ->
  HasPrefix (p ++ nl :: Y) sep = true -> HasPrefix p sep = true.
Proof.
  unfold noNl. revert p.
  induction sep as [|c sep IH]; intros p Hn H; [reflexivity|].
  cbn [existsb] in Hn. apply negb_true_iff, orb_false_iff in Hn.
  destruct Hn as [Hc Hsep].
  destruct p as [|d p]; cbn [app HasPrefix] in *.
  - rewrite Hc in H. discriminate.
  - apply andb_true_iff in H. destruct H as [Hd Hr]. rewrite Hd.
    apply IH; [apply negb_true_iff; exact Hsep | exact Hr].
Qed.

Lemma Index_after_nl (sep base X : gostring) :
  noNl sep = true -> sep <> [] ->
  Index base sep = None ->
  Index (base ++ nl :: X) sep
  = match Index X sep with
    | Some i => Some (List.length base + 1 + i)
    | None => None
    end.
Proof.
  intros Hn Hne. induction base as [|c base IH]; intros Hb.
  - cbn [app Index List.length].
    replace (HasPrefix (nl :: X) sep) with false.
    + destruct (Index X sep); reflexivity.
    + symmetry. destruct (HasPrefix (nl :: X) sep) eqn:E; [|reflexivity].
      apply (HasPrefix_nl_boundary sep [] X Hn) in E.
      destruct sep; [congruence | discriminate].
  - cbn [Index] in Hb.
    destruct (HasPrefix (c :: base) sep) eqn:Hp; [discriminate|].
    destruct (Index base sep) eqn:Hi; [discriminate|].
    cbn [app Index List.length].
    replace (HasPrefix (c :: base ++ nl :: X) sep) with false.
    + rewrite (IH eq_refl). destruct (Index X sep); reflexivity.
    + symmetry.
      destruct (HasPrefix (c :: base ++ nl :: X) sep) eqn:E; [|reflexivity].
      apply (HasPrefix_nl_boundary sep (c :: base) X Hn) in E. congruence.
Qed.

Lemma skipn_past (base X : gostring) (k : nat) :
  skipn (List.length base + 1 + k) (base ++ nl :: X) = skipn k X.
Proof.
  rewrite <- Nat.add_assoc, skipn_app.
  rewrite skipn_all2 by lia.
  replace (List.length base + (1 + k) - List.length base) with (S k) by lia.
  reflexivity.
Qed.

Lemma firstn_base (base X : gostring) :
  firstn (List.length base + 1) (base ++ nl :: X) = base ++ [nl].
Proof.
  rewrite firstn_app. rewrite firstn_all2 by lia.
  replace (List.length base + 1 - List.length base) with 1 by lia.
  reflexivity.
Qed.

(** Text without a delimiter in front of a line break does not matter to
    the parser. *)
Lemma Parse_after_base (base X : gostring) :
  Index base queueMetadataDelimiter = None ->
  ParseQueueMetadata (base ++ nl :: X) = ParseQueueMetadata X.
Proof.
  intros Hb. unfold ParseQueueMetadata.
  rewrite (Index_after_nl queueMetadataDelimiter base X eq_refl delimiter_nonempty Hb).
  destruct (Index X queueMetadataDelimiter) as [i|]; [|reflexivity].
  rewrite <- (Nat.add_assoc (List.length base + 1)), skipn_past.
  reflexivity.
Qed.

Lemma Strip_after_base (base r : gostring) :
  Index base queueMetadataDelimiter = None ->
  StripQueueMetadata (base ++ nl :: queueMetadataDelimiter ++ r)
  = TrimRightNl base.
Proof.
  intros Hb. unfold StripQueueMetadata.
  rewrite (Index_after_nl queueMetadataDelimiter base _ eq_refl delimiter_nonempty Hb).
  rewrite Index_prefix by exact delimiter_nonempty.
  rewrite Nat.add_0_r, firstn_base. apply TrimRightNl_snoc.
Qed.

Lemma Format_starts (m : QueueMetadata) :
  exists r, FormatQueueMetadata m = queueMetadataDelimiter ++ r.
Proof.
  unfold FormatQueueMetadata, formatLines. cbn [app].
  rewrite Join_cons. eexists. reflexivity.
Qed.

(** [splitVars] and the "var:" lines of [Format] see the same entries. *)
Lemma varLines_map (L : list gostring) :
  flat_map (fun v => strLine "var" (TrimSpace v)) L
  = map (kvLine "var")
      (flat_map (fun line =>
                   let line := TrimSpace line in
                   if negb (isEmpty line) then [line] else []) L).
Proof.
  induction L as [|v L IH]; [reflexivity|].
  cbn [flat_map]. rewrite map_app, IH. f_equal.
  unfold strLine. cbv zeta. destruct (isEmpty (TrimSpace v)); reflexivity.
Qed.

Lemma Parse_append_block (d : gostring) (m : QueueMetadata) :
  ParseQueueMetadata
    (Enqueue.appendBlock (StripQueueMetadata d) (FormatQueueMetadata m))
  = ParseQueueMetadata (FormatQueueMetadata m).
Proof.
  unfold Enqueue.appendBlock.
  destruct (StripQueueMetadata d) as [|c base] eqn:E; cbn [isEmpty negb].
  - reflexivity.
  - rewrite <- app_assoc. cbn [app].
    change (c :: base ++ nl :: FormatQueueMetadata m)
      with ((c :: base) ++ nl :: FormatQueueMetadata m).
    apply Parse_after_base. rewrite <- E. apply Strip_no_delimiter.
Qed.

End BlockFacts.

Section CodecMore.
Import GoStr Meta Spec SpecMore StrFacts SplitFacts BlockFacts CodecFacts.

(** X13. Whatever the record, what [Format] prints starts with the
    delimiter and [Parse] finds a block in it: formatting never yields a
    description that parses to nil. *)
Theorem Format_always_parses (m : QueueMetadata) :
  HasPrefix (FormatQueueMetadata m) queueMetadataDelimiter = true
  /\ exists m', ParseQueueMetadata (FormatQueueMetadata m) = Some m'.
Proof.
  destruct (Format_starts m) as [r Hr]. rewrite Hr. split.
  - apply HasPrefix_app.
  - unfold ParseQueueMetadata.
    rewrite Index_prefix by exact delimiter_nonempty.
    destruct (parseLines _ zeroMeta []) as [m0 vl]. eexists. reflexivity.
Qed.

(** X14. The description an enqueue or a failure record writes parses like
    its block alone: the user's text in front (already stripped of any older
    block) never changes what the parser reads. *)
Theorem Parse_ignores_preamble (d : gostring) (m : QueueMetadata) :
  ParseQueueMetadata
    (Enqueue.appendBlock (StripQueueMetadata d) (FormatQueueMetadata m))
  = ParseQueueMetadata (FormatQueueMetadata m).
Proof. apply Parse_append_block. Qed.

(** X15. Stripping what an enqueue wrote gives back the stripped pre-call
    description without its trailing line breaks; it is the stripped
    pre-call description itself when the pre-call description held a
    block. *)
Theorem Strip_undoes_append (d : gostring) (m : QueueMetadata) :
  StripQueueMetadata
    (Enqueue.appendBlock (StripQueueMetadata d) (FormatQueueMetadata m))
  = TrimRightNl (StripQueueMetadata d)
  /\ (Contains d queueMetadataDelimiter = true ->
      StripQueueMetadata
        (Enqueue.appendBlock (StripQueueMetadata d) (FormatQueueMetadata m))
      = StripQueueMetadata d).
Proof.
  assert (H : StripQueueMetadata
                (Enqueue.appendBlock (StripQueueMetadata d)
                   (FormatQueueMetadata m))
              = TrimRightNl (StripQueueMetadata d)).
  { destruct (Format_starts m) as [r Hr]. rewrite Hr.
    unfold Enqueue.appendBlock.
    destruct (StripQueueMetadata d) as [|c base] eqn:E; cbn [isEmpty negb].
    - cbn [app]. unfold StripQueueMetadata.
      rewrite Index_prefix by exact delimiter_nonempty. reflexivity.
    - rewrite <- app_assoc. cbn [app].
      change (c :: base ++ nl :: queueMetadataDelimiter ++ r)
        with ((c :: base) ++ nl :: queueMetadataDelimiter ++ r).
      apply Strip_after_base. rewrite <- E. apply Strip_no_delimiter. }
  split; [exact H|].
  intros Hc. rewrite H. unfold StripQueueMetadata, Contains in *.
  destruct (Index d queueMetadataDelimiter); [|discriminate].
  apply TrimRightNl_idem.
Qed.

Lemma Strip_undoes_append_witness :
  StripQueueMetadata
    (Enqueue.appendBlock
       (StripQueueMetadata (Enqueue.Description Scenario.quarantined))
       (FormatQueueMetadata zeroMeta))
  = str "Fix the parser".
Proof.
  rewrite (proj2 (Strip_undoes_append
                    (Enqueue.Description Scenario.quarantined) zeroMeta)
             eq_refl).
  vm_compute. reflexivity.
Defined.

(** [Format] prints one "var:" line for each entry [splitVars] finds in
    [Vars], in the same order. *)
Lemma varLines_are_splitVars (vars : gostring) :
  varLinesOf vars = map (kvLine "var") (Ready.splitVars vars).
Proof.
  unfold varLinesOf, Ready.splitVars. destruct vars as [|c vars].
  - reflexivity.
  - cbn [isEmpty]. apply varLines_map.
Qed.

(** X16. Variables joined with line breaks at enqueue come back one by one
    at dispatch, when none of them is blank, is padded with white space or
    holds a line break. *)
Theorem splitVars_Join (vs : list gostring) :
  forallb cleanVar vs = true ->
  forallb noNl vs = true ->
  Ready.splitVars (Join vs [nl]) = vs.
Proof.
  intros Hc Hn. unfold Ready.splitVars.
  destruct vs as [|v vs]; [reflexivity|].
  assert (Hne : isEmpty (Join (v :: vs) [nl]) = false).
  { cbn [forallb] in Hc. apply andb_true_iff in Hc. destruct Hc as [Hv _].
    destruct (cleanVar_inv _ Hv) as [Hv0 _]. rewrite Join_cons.
    destruct v; [congruence | reflexivity]. }
  rewrite Hne. rewrite Split_Join by (discriminate || exact Hn).
  clear Hne Hn. revert Hc. generalize (v :: vs) as L. clear v vs.
  induction L as [|x L IH]; intros Hc; [reflexivity|].
  cbn [forallb] in Hc. apply andb_true_iff in Hc. destruct Hc as [Hx HL].
  destruct (cleanVar_inv _ Hx) as [Hx0 Hxt].
  cbn [flat_map]. cbv zeta. rewrite Hxt.
  destruct x; [congruence|]. cbn [isEmpty negb app]. f_equal. apply IH, HL.
Qed.

Lemma splitVars_Join_witness :
  Ready.splitVars (Join [str "a=1"; str "msg=hello world"] [nl])
  = [str "a=1"; str "msg=hello world"].
Proof.
  apply splitVars_Join; vm_compute; reflexivity.
Defined.

End CodecMore.

(* ================================================================== *)
(** * Further properties of the parser: later lines *)
(* ================================================================== *)

Module LineFacts.
Import GoStr Meta Spec SpecMore StrFacts SplitFacts BlockFacts.

(** The loop over a list of lines, cut in two. *)
Lemma parseLines_app (L1 L2 : list gostring) :
  forall m vl,
    parseLines (L1 ++ L2) m vl
    = if stops L1 then parseLines L1 m vl
      else let '(m', vl') := parseLines L1 m vl in parseLines L2 m' vl'.
Proof.
  induction L1 as [|raw L1 IH]; intros m vl; [reflexivity|].
  cbn [app parseLines stops existsb]. cbv zeta. fold (stops L1).
  destruct (isEmpty (TrimSpace raw)) eqn:He.
  - replace (streq (TrimSpace raw) queueMetadataDelimiter) with false
      by (destruct (TrimSpace raw); [reflexivity | discriminate]).
    cbn [orb]. apply IH.
  - destruct (streq (TrimSpace raw) queueMetadataDelimiter); cbn [orb];
      [reflexivity|].
    destruct (SplitN2 (TrimSpace raw) (str ": ")) as [|p0 [|p1 [|p2 ps]]];
      try apply IH.
    destruct (applyKey (TrimSpace p0) (TrimSpace p1) m vl) as [m' vl'].
    apply IH.
Qed.

Lemma HasPrefix_long (s t sep : gostring) :
  List.length sep <= List.length s ->
  HasPrefix (s ++ t) sep = HasPrefix s sep.
Proof.
  revert s. induction sep as [|c sep IH]; intros s Hlen; [reflexivity|].
  destruct s as [|d s]; [cbn in Hlen; lia|].
  cbn [app HasPrefix]. rewrite IH by (cbn in Hlen; lia). reflexivity.
Qed.

Lemma Index_bound (s sep : gostring) (i : nat) :
  Index s sep = Some i -> i + List.length sep <= List.length s.
Proof.
  revert i. induction s as [|c s IH]; intros i H.
  - cbn [Index] in H. destruct (HasPrefix [] sep) eqn:E; [|discriminate].
    injection H as <-. destruct sep; [cbn; lia | discriminate].
  - cbn [Index] in H. destruct (HasPrefix (c :: s) sep) eqn:E.
    + injection H as <-. destruct (HasPrefix_inv _ _ E) as [t Ht].
      rewrite Ht, length_app. lia.
    + destruct (Index s sep) as [j|] eqn:Ej; [|discriminate].
      injection H as <-. specialize (IH j eq_refl). cbn [List.length]. lia.
Qed.

(** Text appended to a string does not move its first occurrence. *)
Lemma Index_app_Some (s t sep : gostring) (i : nat) :
  Index s sep = Some i -> Index (s ++ t) sep = Some i.
Proof.
  revert i. induction s as [|c s IH]; intros i H.
  - cbn [Index] in H. destruct (HasPrefix [] sep) eqn:E; [|discriminate].
    injection H as <-. destruct sep; [|discriminate].
    destruct t; reflexivity.
  - pose proof (Index_bound _ _ _ H) as Hb.
    cbn [Index] in H. cbn [app Index].
    destruct (HasPrefix (c :: s) sep) eqn:E.
    + injection H as <-.
      change (c :: s ++ t) with ((c :: s) ++ t).
      rewrite (HasPrefix_extend _ t _ E). reflexivity.
    + destruct (Index s sep) as [j|] eqn:Ej; [|discriminate].
      injection H as <-.
      change (c :: s ++ t) with ((c :: s) ++ t).
      rewrite HasPrefix_long by lia. rewrite E, (IH j eq_refl). reflexivity.
Qed.

Lemma Split_app_sep (s Y : gostring) (c : ascii) :
  Split (s ++ c :: Y) c = Split s c ++ Split Y c.
Proof.
  induction s as [|d s IH].
  - cbn [app Split]. rewrite Ascii.eqb_refl. reflexivity.
  - cbn [app Split]. rewrite IH.
    pose proof (Split_nonempty s c) as Hne.
    destruct (Ascii.eqb d c); [reflexivity|].
    destruct (Split s c) as [|p ps]; [congruence | reflexivity].
Qed.

(** The lines of a description that holds a block, with more text after a
    line break. *)
Lemma Parse_appended (d Y : gostring) (idx : nat) :
  Index d queueMetadataDelimiter = Some idx ->
  ParseQueueMetadata (d ++ nl :: Y)
  = (let '(m, varLines) :=
       parseLines
         (Split (skipn (idx + List.length queueMetadataDelimiter) d) nl
          ++ Split Y nl) zeroMeta [] in
     Some (match varLines with
           | [] => m
           | _ :: _ => setVars (Join varLines [nl]) m
           end)).
Proof.
  intros Hi. unfold ParseQueueMetadata.
  rewrite (Index_app_Some _ (nl :: Y) _ _ Hi).
  pose proof (Index_bound _ _ _ Hi) as Hb. cbv zeta.
  rewrite skipn_app.
  replace (idx + List.length queueMetadataDelimiter - List.length d)
    with 0 by lia.
  cbn [skipn]. rewrite Split_app_sep. reflexivity.
Qed.

Lemma applyKey_unknown (k v : gostring) (m : QueueMetadata)
    (vl : list gostring) :
  unknownKey k = true -> applyKey k v m vl = (m, vl).
Proof.
  unfold unknownKey, recognizedKeys. cbn [map forallb]. intros H.
  repeat (apply andb_true_iff in H; destruct H as [?H H]).
  repeat match goal with
         | Hk : negb (streq k _) = true |- _ =>
             apply negb_true_iff in Hk
         end.
  unfold applyKey.
  repeat match goal with
         | Hk : streq k ?lit = false |- context [streq k ?lit] =>
             rewrite Hk
         end.
  reflexivity.
Qed.

End LineFacts.

Section LaterLines.
Import GoStr Meta Spec SpecMore StrFacts SplitFacts BlockFacts LineFacts.

(** X17. A second delimiter ends the block: whatever follows a later line
    that is just the delimiter does not change what is parsed. *)
Theorem Parse_stops_at_second_delimiter (d tail : gostring) :
  Contains d queueMetadataDelimiter = true ->
  ParseQueueMetadata (d ++ nl :: queueMetadataDelimiter)
  = ParseQueueMetadata d
  /\ ParseQueueMetadata (d ++ nl :: queueMetadataDelimiter ++ nl :: tail)
     = ParseQueueMetadata d.
Proof.
  unfold Contains. intros Hc.
  destruct (Index d queueMetadataDelimiter) as [idx|] eqn:Hi; [|discriminate].
  assert (Hd : ParseQueueMetadata d
               = (let '(m, varLines) :=
                    parseLines (Split (skipn (idx + List.length
                                   queueMetadataDelimiter) d) nl)
                      zeroMeta [] in
                  Some (match varLines with
                        | [] => m
                        | _ :: _ => setVars (Join varLines [nl]) m
                        end)))
    by (unfold ParseQueueMetadata; rewrite Hi; reflexivity).
  split; rewrite (Parse_appended _ _ _ Hi), Hd.
  - rewrite (Split_last queueMetadataDelimiter nl eq_refl).
    rewrite parseLines_app.
    destruct (stops _); [reflexivity|].
    destruct (parseLines _ zeroMeta []) as [m vl]. reflexivity.
  - rewrite (Split_piece queueMetadataDelimiter nl tail eq_refl).
    rewrite parseLines_app.
    destruct (stops _); [reflexivity|].
    destruct (parseLines _ zeroMeta []) as [m vl]. reflexivity.
Qed.

Lemma Parse_stops_at_second_delimiter_witness :
  ParseQueueMetadata
    (str "---gt:queue:v1---
target_rig: rig1" ++ nl :: queueMetadataDelimiter ++ nl
       :: str "target_rig: should-be-ignored")
  = ParseQueueMetadata (str "---gt:queue:v1---
target_rig: rig1").
Proof.
  apply (proj2 (Parse_stops_at_second_delimiter
                  (str "---gt:queue:v1---
target_rig: rig1") (str "target_rig: should-be-ignored") eq_refl)).
Defined.

(** X18. Unknown keys are skipped: a further line ["key: value"] whose key
    is none of the recognized ones leaves the parsed record as it was. *)
Theorem Parse_ignores_unknown_key (d line k v : gostring) :
  Contains d queueMetadataDelimiter = true ->
  noNl line = true ->
  lineKV line = Some (k, v) ->
  unknownKey k = true ->
  ParseQueueMetadata (d ++ nl :: line) = ParseQueueMetadata d.
Proof.
  unfold Contains. intros Hc Hn Hkv Hk.
  destruct (Index d queueMetadataDelimiter) as [idx|] eqn:Hi; [|discriminate].
  rewrite (Parse_appended _ _ _ Hi).
  unfold ParseQueueMetadata. rewrite Hi. cbv zeta.
  rewrite (Split_last line nl (proj1 (negb_true_iff _) Hn)).
  rewrite parseLines_app.
  destruct (stops _); [reflexivity|].
  destruct (parseLines _ zeroMeta []) as [m vl].
  cbn [parseLines]. cbv zeta. unfold lineKV in Hkv.
  destruct (isEmpty (TrimSpace line)); [reflexivity|].
  destruct (streq (TrimSpace line) queueMetadataDelimiter); [reflexivity|].
  destruct (SplitN2 (TrimSpace line) (str ": ")) as [|p0 [|p1 [|p2 ps]]];
    try reflexivity.
  injection Hkv as <- <-. rewrite (applyKey_unknown _ _ _ _ Hk). reflexivity.
Qed.

Lemma Parse_ignores_unknown_key_witness :
  ParseQueueMetadata
    (str "---gt:queue:v1---
target_rig: rig1" ++ nl :: str "future_field: xyz")
  = ParseQueueMetadata (str "---gt:queue:v1---
target_rig: rig1").
Proof.
  apply (Parse_ignores_unknown_key
           (str "---gt:queue:v1---
target_rig: rig1") (str "future_field: xyz") (str "future_field") (str "xyz"));
    vm_compute; reflexivity.
Defined.

End LaterLines.

(* ================================================================== *)
(** * Further properties of the enqueue protocol *)
(* ================================================================== *)

Module FrameFacts.
Import GoStr Enqueue SpecMore StrFacts EnqueueFacts.

Section WithEnv.
Variable env : Env.
Variable opts : Opt.EnqueueOptions.
Variable id : gostring.
Variable title : gostring.

















End WithEnv.

End FrameFacts.

Section EnqueueMore.
Import GoStr Enqueue SpecMore StrFacts EnqueueFacts FrameFacts.
Variable env : Env.


(** X20. A dry run writes nothing: with [DryRun] set the store and the
    record of [bd update] runs are left untouched, whatever the result. *)
Theorem enqueue_dry_run_is_pure (beadID rigName : gostring)
    (opts : Opt.EnqueueOptions) (w : World) :
  Opt.DryRun opts = true ->
  snd (enqueueBead env beadID rigName opts w) = w.
Proof.
  intros Hdry. unfold enqueueBead, enqueueBeadM.
  cbv [bind ret exit guard verifyBeadExists getBeadInfo].
  rewrite Hdry.
  destruct (findTownRoot env) as [root|]; [|reflexivity].
  destruct (store w beadID) as [b|] eqn:Hb; [|reflexivity].
  destruct (IsRigName env rigName); [|reflexivity].
  destruct (negb (Opt.Force opts));
    [destruct (crossRigOk env beadID _ root); [|reflexivity]|].
  all: rewrite Hb.
  all: destruct (existsb _ (Labels b) && streq (Status b) (str "open"));
    [reflexivity|].
  all: destruct ((streq (Status b) (str "pinned")
                  || streq (Status b) (str "hooked")) && _);
    [reflexivity|].
  all: destruct (negb (isEmpty (Opt.Formula opts)));
    [destruct (formulaExists env (Opt.Formula opts))|]; reflexivity.
Qed.

End EnqueueMore.

Section EnqueueMoreCases.
Import GoStr Enqueue SpecMore Scenario Scenario2.


Lemma enqueue_dry_run_is_pure_witness :
  snd (enqueueBead town (str "b2") (str "rig1")
         (Opt.mk [] [] [] [] [] true false true false false [] [] false)
         world0)
  = world0.
Proof.
  apply enqueue_dry_run_is_pure. reflexivity.
Defined.

End EnqueueMoreCases.

(* ================================================================== *)
(** * Further properties: what an enqueue leaves behind *)
(* ================================================================== *)

Section CleanRecords.
Import GoStr Meta Spec StrFacts CodecFacts.

Ltac peel H H' := apply andb_true_iff in H; destruct H as [H H'].

(** Keep the record under construction in constructor form. *)
Ltac norm :=
  cbv [setTargetRig setFormula setArgs setVars setEnqueuedAt setMerge
       setConvoy setBaseBranch setNoMerge setAccount setAgent setHookRawBead
       setOwned setDispatchFailures setLastFailure
       TargetRig Formula Args Vars EnqueuedAt Merge Convoy BaseBranch NoMerge
       Account Agent HookRawBead Owned DispatchFailures LastFailure].

Ltac str_step key set :=
  (rewrite (parse_strLine key _ _ _ _ set)
     by first [assumption | vm_compute; reflexivity
              | intros ->; reflexivity]);
  norm.

Ltac bool_step key set :=
  (rewrite (parse_boolLine key _ _ _ _ set) by (vm_compute; reflexivity));
  norm.

(** A record with clean fields is read back as it is. *)
Lemma parse_format_clean (m : QueueMetadata) :
  wellFormed m = true ->
  ParseQueueMetadata (FormatQueueMetadata m) = Some m.
Proof.
  destruct m as [tr f a vs ea mg cv bb nm ac ag hr ow df lf].
  unfold wellFormed.
  cbn [TargetRig Formula Args Vars EnqueuedAt Merge Convoy BaseBranch NoMerge
       Account Agent HookRawBead Owned DispatchFailures LastFailure].
  intros H.
  peel H Hdf. peel H Hlf. peel H Hag. peel H Hac. peel H Hbb. peel H Hcv.
  peel H Hmg. peel H Hea. peel H Hvs. peel H Ha. peel H Hf.
  destruct (cleanValue_inv _ H) as [Ttr Ntr].
  destruct (cleanValue_inv _ Hf) as [Tf Nf].
  destruct (cleanValue_inv _ Ha) as [Ta Na].
  destruct (cleanValue_inv _ Hea) as [Tea Nea].
  destruct (cleanValue_inv _ Hmg) as [Tmg Nmg].
  destruct (cleanValue_inv _ Hcv) as [Tcv Ncv].
  destruct (cleanValue_inv _ Hbb) as [Tbb Nbb].
  destruct (cleanValue_inv _ Hac) as [Tac Nac].
  destruct (cleanValue_inv _ Hag) as [Tag Nag].
  destruct (cleanValue_inv _ Hlf) as [Tlf Nlf].
  apply andb_true_iff in Hdf. destruct Hdf as [Hdf0 Hdf1].
  apply Z.leb_le in Hdf0, Hdf1.
  unfold FormatQueueMetadata, formatLines.
  cbn [TargetRig Formula Args Vars EnqueuedAt Merge Convoy BaseBranch NoMerge
       Account Agent HookRawBead Owned DispatchFailures LastFailure].
  cbn [app].
  rewrite Parse_Join.
  2:{ rewrite !forallb_app.
      rewrite !noNl_strLine by first [assumption | reflexivity].
      rewrite !noNl_boolLine by reflexivity.
      rewrite (noNl_varLinesOf _ Hvs), noNl_failuresLine. reflexivity. }
  f_equal. unfold zeroMeta.
  rewrite <- (app_nil_r (strLine "last_failure" lf)).
  str_step "target_rig"%string setTargetRig.
  str_step "formula"%string setFormula.
  str_step "args"%string setArgs.
  rewrite (parse_varLinesOf _ _ _ Hvs).
  str_step "enqueued_at"%string setEnqueuedAt.
  str_step "merge"%string setMerge.
  str_step "convoy"%string setConvoy.
  str_step "base_branch"%string setBaseBranch.
  bool_step "no_merge"%string setNoMerge.
  str_step "account"%string setAccount.
  str_step "agent"%string setAgent.
  bool_step "hook_raw_bead"%string setHookRawBead.
  bool_step "owned"%string setOwned.
  rewrite parse_failuresLine by first [reflexivity | split; assumption].
  norm.
  str_step "last_failure"%string setLastFailure.
  cbn [parseLines].
  rewrite joined_vars by reflexivity. reflexivity.
Qed.

Lemma wellFormed_setConvoy (c : gostring) (m : QueueMetadata) :
  wellFormed m = true -> cleanValue c = true ->
  wellFormed (setConvoy c m) = true.
Proof.
  unfold wellFormed.
  cbn [setConvoy TargetRig Formula Args Vars EnqueuedAt Merge Convoy
       BaseBranch NoMerge Account Agent HookRawBead Owned DispatchFailures
       LastFailure].
  intros H Hc. rewrite !andb_true_iff in *. tauto.
Qed.

End CleanRecords.

Section Coherence.
Import GoStr Enqueue Meta Spec SpecMore StrFacts EnqueueFacts.
Variable env : Env.

Lemma buildMetadata_rig (rigName : gostring) (opts : Opt.EnqueueOptions) :
  TargetRig (buildMetadata env rigName opts) = rigName.
Proof.
  unfold buildMetadata.
  repeat match goal with
         | |- context [if ?c then _ else _] => destruct c
         end; reflexivity.
Qed.

(** A [bd update --description] on a bead that exists goes through
    exactly when nothing outside makes it fail. *)
Lemma runBd_setDescription (beadID desc : gostring) (w : World) (b : Bead) :
  store w beadID = Some b ->
  runBd env (SetDescription beadID desc) w
  = if bdSucceeds env (List.length (bdLog w))
    then (Next true,
          mkWorld (putBead (store w) beadID
                     (mkBead (Status b) (Assignee b) (Labels b) desc
                        (Title b)))
            (bdLog w ++ [(SetDescription beadID desc, true)]))
    else (Next false,
          mkWorld (store w)
            (bdLog w ++ [(SetDescription beadID desc, false)])).
Proof.
  intros Hb. unfold runBd, applyUpdate. rewrite Hb.
  destruct (bdSucceeds env (List.length (bdLog w))); reflexivity.
Qed.

(** A commit phase that returns nil has written the block and the label,
    and the convoy step has done what [convoyCreated] says. *)
Lemma commit_success (beadID title : gostring) (opts : Opt.EnqueueOptions)
    (meta : QueueMetadata) (w w' : World) (b : Bead) :
  let baseDesc := StripQueueMetadata (Description b) in
  store w beadID = Some b ->
  (forall c r, convoyCreated env opts beadID title = Some (c, r) ->
               streq c beadID = false) ->
  (let (o, w1) :=
     (wrote <- runBd env
                 (SetDescription beadID
                    (appendBlock baseDesc (FormatQueueMetadata meta))) ;;
      guard wrote ErrWriteMetadata ;;;
      labelled <- runBd env (AddLabel beadID LabelQueued) ;;
      (if labelled then ret tt
       else runBd env (SetDescription beadID baseDesc) ;;;
            exit (Some ErrAddLabel)) ;;;
      autoConvoy env beadID title opts meta baseDesc ;;;
      @exit unit None) w in
   match o with
   | Return e => (e, w1)
   | Next _ => (None, w1)
   end) = (None, w') ->
  exists b',
    store w' beadID = Some b'
    /\ In LabelQueued (Labels b')
    /\ match convoyCreated env opts beadID title with
       | None =>
           Description b' = appendBlock baseDesc (FormatQueueMetadata meta)
       | Some (c, r) =>
           store w' c = Some r
           /\ Description b'
              = appendBlock baseDesc
                  (FormatQueueMetadata
                     (if bdSucceeds env (List.length (bdLog w) + 2)
                      then setConvoy c meta else meta))
       end.
Proof.
  intros baseDesc Hb Hnew H. subst baseDesc.
  cbv [bind ret exit guard] in H.
  set (base := StripQueueMetadata (Description b)) in *.
  set (desc1 := appendBlock base (FormatQueueMetadata meta)) in *.
  destruct (runBd_cases env (SetDescription beadID desc1) w)
    as [[st1 [Hap1 Hr1]]|Hr1]; rewrite Hr1 in H; [|discriminate].
  unfold applyUpdate in Hap1. rewrite Hb in Hap1. injection Hap1 as <-.
  set (b1 := mkBead (Status b) (Assignee b) (Labels b) desc1 (Title b)) in *.
  set (w1 := mkWorld (putBead (store w) beadID b1) _) in *.
  destruct (runBd_cases env (AddLabel beadID LabelQueued) w1)
    as [[st2 [Hap2 Hr2]]|Hr2]; rewrite Hr2 in H.
  2:{ destruct (runBd_cases env (SetDescription beadID base)
                  (mkWorld (store w1)
                     (bdLog w1 ++ [(AddLabel beadID LabelQueued, false)])))
        as [[st3 [_ Hr3]]|Hr3]; rewrite Hr3 in H; discriminate. }
  unfold applyUpdate in Hap2. subst w1. cbn [store] in Hap2.
  rewrite putBead_same in Hap2. injection Hap2 as <-.
  cbn [Status Assignee Labels Description Title] in H.
  set (labels2 := if existsb (streq LabelQueued) (Labels b) then Labels b
                  else Labels b ++ [LabelQueued]) in *.
  assert (Hl : In LabelQueued labels2).
  { subst labels2.
    destruct (existsb (streq LabelQueued) (Labels b)) eqn:E.
    - apply existsb_exists in E. destruct E as [x [Hx Hs]].
      apply streq_eq in Hs. subst x. exact Hx.
    - apply in_app_iff. right. left. reflexivity. }
  set (b2 := mkBead (Status b) (Assignee b) labels2 desc1 (Title b)) in *.
  unfold autoConvoy in H. unfold convoyCreated in Hnew |- *.
  destruct (negb (Opt.NoConvoy opts)); cbn [andb].
  2:{ injection H as <-. cbn [store]. exists b2.
      split; [apply putBead_same|]. split; [exact Hl | reflexivity]. }
  destruct (isEmpty (isTrackedByConvoy env beadID)).
  2:{ injection H as <-. cbn [store]. exists b2.
      split; [apply putBead_same|]. split; [exact Hl | reflexivity]. }
  cbn [andb] in Hnew. unfold createConvoy in H. cbv [bind ret] in H.
  destruct (createAutoConvoy env beadID title (Opt.Owned opts)
              (Opt.Merge opts)) as [[c r]|] eqn:Ec.
  2:{ injection H as <-. cbn [store]. exists b2.
      split; [apply putBead_same|]. split; [exact Hl | reflexivity]. }
  specialize (Hnew c r eq_refl).
  assert (Hbc : streq beadID c = false).
  { destruct (streq beadID c) eqn:E; [|reflexivity].
    apply streq_eq in E. subst c. rewrite streq_refl in Hnew.
    discriminate. }
  cbn [store bdLog] in H.
  rewrite (runBd_setDescription beadID _ _ b2) in H.
  2:{ cbn [store]. unfold putBead at 1. rewrite Hbc. apply putBead_same. }
  cbn [bdLog store] in H.
  assert (Hlen : List.length
                   ((bdLog w ++ [(SetDescription beadID desc1, true)])
                    ++ [(AddLabel beadID LabelQueued, true)])
                 = List.length (bdLog w) + 2).
  { rewrite !length_app. cbn [List.length]. lia. }
  rewrite Hlen in H.
  destruct (bdSucceeds env (List.length (bdLog w) + 2));
    injection H as <-; cbn [store].
  - eexists. split; [apply putBead_same|]. cbn [Labels Description].
    split; [exact Hl|]. split; [|reflexivity].
    unfold putBead at 1. rewrite Hnew. apply putBead_same.
  - exists b2. split.
    + unfold putBead at 1. rewrite Hbc. apply putBead_same.
    + split; [exact Hl|]. split; [apply putBead_same | reflexivity].
Qed.

(** X21. The label is the commit: when an enqueue returns nil on a bead
    that was not already queued and open, and it was no dry run, the bead
    carries [gt:queued] and its description parses to metadata whose
    [target_rig] is the rig of the call.  Without a convoy created by this
    call ([NoConvoy], bead tracked already, or creation failed) that is the
    metadata built for the call.  With one, the store holds the convoy's
    record under the ID the creation returned, and the metadata has that ID
    as its [convoy] when the third [bd update] of the call (the re-persist)
    went through, and is the metadata built for the call when it did not.
    This needs the built record and the convoy ID to be clean (no white
    space at the ends, no line break inside) and the convoy ID to differ
    from the bead's. *)
Theorem enqueue_success_coherent (beadID rigName : gostring)
    (opts : Opt.EnqueueOptions) (w w' : World) (b : Bead) :
  store w beadID = Some b ->
  ~ (In LabelQueued (Labels b) /\ Status b = str "open") ->
  Opt.DryRun opts = false ->
  wellFormed (buildMetadata env rigName opts) = true ->
  (forall c r, convoyCreated env opts beadID (Title b) = Some (c, r) ->
               cleanValue c = true /\ streq c beadID = false) ->
  enqueueBead env beadID rigName opts w = (None, w') ->
  exists b' m,
    store w' beadID = Some b'
    /\ In LabelQueued (Labels b')
    /\ ParseQueueMetadata (Description b') = Some m
    /\ TargetRig m = rigName
    /\ match convoyCreated env opts beadID (Title b) with
       | None => m = buildMetadata env rigName opts
       | Some (c, r) =>
           store w' c = Some r
           /\ m = (if bdSucceeds env (List.length (bdLog w) + 2)
                   then setConvoy c (buildMetadata env rigName opts)
                   else buildMetadata env rigName opts)
       end.
Proof.
  intros Hb Hnq Hdry Hwf Hcv H.
  assert (Hq : existsb (fun label => streq label LabelQueued) (Labels b)
               && streq (Status b) (str "open") = false).
  { destruct (existsb _ (Labels b)) eqn:E1; [|reflexivity].
    destruct (streq (Status b) (str "open")) eqn:E2; [|reflexivity].
    exfalso. apply Hnq. split; [|apply streq_eq; exact E2].
    apply existsb_exists in E1. destruct E1 as [x [Hx Hs]].
    apply streq_eq in Hs. subst x. exact Hx. }
  unfold enqueueBead, enqueueBeadM in H.
  cbv [bind ret exit guard verifyBeadExists getBeadInfo] in H.
  rewrite Hdry in H.
  destruct (findTownRoot env) as [root|]; [|discriminate].
  rewrite Hb in H.
  destruct (IsRigName env rigName); [|discriminate].
  destruct (negb (Opt.Force opts));
    [destruct (crossRigOk env beadID _ root); [|discriminate]|].
  all: rewrite Hb, Hq in H.
  all: destruct ((streq (Status b) (str "pinned")
                  || streq (Status b) (str "hooked")) && _);
    [discriminate|].
  all: destruct (negb (isEmpty (Opt.Formula opts)));
    [destruct (formulaExists env (Opt.Formula opts)); [|discriminate]|].
  all: try (destruct (cookOk env (Opt.Formula opts)); [|discriminate]).
  all: destruct (commit_success beadID (Title b) opts
                   (buildMetadata env rigName opts) w w' b Hb
                   (fun c r Hc => proj2 (Hcv c r Hc))
                   ltac:(cbv [bind ret exit guard]; exact H))
         as [b' [Hs [Hl Hd]]].
  all: exists b'.
  all: destruct (convoyCreated env opts beadID (Title b)) as [[c r]|].
  all: match type of Hd with
       | _ /\ _ =>
           destruct Hd as [Hc Hd];
           destruct (Hcv c r eq_refl) as [Hclean _];
           destruct (bdSucceeds env (List.length (bdLog w) + 2))
       | _ => idtac
       end;
    rewrite Hd, BlockFacts.Parse_append_block.
  all: try (exists (setConvoy c (buildMetadata env rigName opts));
            split; [exact Hs|]; split; [exact Hl|];
            split; [apply parse_format_clean, wellFormed_setConvoy;
                      assumption|];
            split; [apply buildMetadata_rig|];
            split; [exact Hc | reflexivity]).
  all: exists (buildMetadata env rigName opts);
    (split; [exact Hs|]); (split; [exact Hl|]);
    (split; [apply parse_format_clean; exact Hwf|]);
    (split; [apply buildMetadata_rig|]);
    first [reflexivity | split; [exact Hc | reflexivity]].
Qed.

End Coherence.

Section CoherenceCases.
Import GoStr Enqueue Meta SpecMore Scenario Scenario2.

Lemma enqueue_success_coherent_witness :
  exists b' m,
    store (snd (enqueueBead calmTown (str "b2") (str "rig1") workOpts world0))
      (str "b2") = Some b'
    /\ In LabelQueued (Labels b')
    /\ ParseQueueMetadata (Description b') = Some m
    /\ TargetRig m = str "rig1"
    /\ match convoyCreated calmTown workOpts (str "b2") (Title fresh) with
       | None => m = buildMetadata calmTown (str "rig1") workOpts
       | Some (c, r) =>
           store (snd (enqueueBead calmTown (str "b2") (str "rig1") workOpts
                         world0)) c = Some r
           /\ m = (if bdSucceeds calmTown (List.length (bdLog world0) + 2)
                   then setConvoy c
                          (buildMetadata calmTown (str "rig1") workOpts)
                   else buildMetadata calmTown (str "rig1") workOpts)
       end.
Proof.
  apply (enqueue_success_coherent calmTown (str "b2") (str "rig1")
           workOpts world0
           (snd (enqueueBead calmTown (str "b2") (str "rig1") workOpts
                   world0)) fresh).
  - reflexivity.
  - intros [[] _].
  - reflexivity.
  - vm_compute; reflexivity.
  - intros c r Hc. vm_compute in Hc. injection Hc as Hc _. subst c.
    split; vm_compute; reflexivity.
  - vm_compute; reflexivity.
Defined.

End CoherenceCases.

(* ================================================================== *)
(** * Further properties: the dispatch of one bead *)
(* ================================================================== *)

Module TraceFacts.
Import GoStr Run SpecRun.

Lemma slings_app (a b : Trace) : slings (a ++ b) = slings a ++ slings b.
Proof. apply flat_map_app. Qed.

Lemma okSlings_app (a b : Trace) : okSlings (a ++ b) = okSlings a ++ okSlings b.
Proof. apply flat_map_app. Qed.

Lemma descriptions_app (a b : Trace) :
  descriptions (a ++ b) = descriptions a ++ descriptions b.
Proof. apply flat_map_app. Qed.

Lemma swaps_app (a b : Trace) : swaps (a ++ b) = swaps a ++ swaps b.
Proof. apply flat_map_app. Qed.

Lemma woken_app (a b : Trace) : woken (a ++ b) = woken a ++ woken b.
Proof. apply flat_map_app. Qed.

Lemma saved_app (a b : Trace) : saved (a ++ b) = saved a ++ saved b.
Proof. apply flat_map_app. Qed.

End TraceFacts.

Section OneBead.
Import GoStr Dispatch Meta Spec Run SpecRun StrFacts BlockFacts TraceFacts.
Local Open Scope Z_scope.
Variable env : Run.Env.

(** A description that parses holds the delimiter, so stripping changes
    it. *)
Lemma Strip_changes_parsed (d : gostring) (meta : QueueMetadata) :
  ParseQueueMetadata d = Some meta ->
  streq (StripQueueMetadata d) d = false.
Proof.
  intros Hp. destruct (streq (StripQueueMetadata d) d) eqn:E; [|reflexivity].
  apply streq_eq in E. pose proof (Strip_no_delimiter d) as Hn.
  rewrite E in Hn. unfold ParseQueueMetadata in Hp. rewrite Hn in Hp.
  discriminate.
Qed.

Lemma Parse_no_delimiter (d : gostring) :
  Index d queueMetadataDelimiter = None -> ParseQueueMetadata d = None.
Proof. intros H. unfold ParseQueueMetadata. rewrite H. reflexivity. Qed.

Lemma wellFormed_bump (m : QueueMetadata) (err : gostring) :
  wellFormed m = true -> cleanValue err = true ->
  DispatchFailures m < maxInt64 ->
  wellFormed
    (setLastFailure err (setDispatchFailures (DispatchFailures m + 1) m))
  = true.
Proof.
  unfold wellFormed.
  cbn [setLastFailure setDispatchFailures Meta.TargetRig Formula Args Vars
       EnqueuedAt Merge Convoy BaseBranch NoMerge Account Agent HookRawBead
       Owned DispatchFailures LastFailure].
  intros H He Hd. rewrite !andb_true_iff in *.
  rewrite !Z.leb_le in *. intuition lia.
Qed.

Lemma bumpFailure_parsed (d err : gostring) (meta : QueueMetadata) :
  ParseQueueMetadata d = Some meta ->
  - 2 ^ 63 <= DispatchFailures meta < maxInt64 ->
  bumpFailure d err
  = setLastFailure err
      (setDispatchFailures (DispatchFailures meta + 1) meta).
Proof.
  intros Hp Hd. unfold bumpFailure. rewrite Hp.
  rewrite BackoffFacts.wrap64_small; [reflexivity|].
  unfold maxInt64 in Hd. lia.
Qed.

(** What the failure record writes reads back as the bumped record. *)
Lemma failure_record_reads_back (d err : gostring) (meta : QueueMetadata) :
  ParseQueueMetadata d = Some meta ->
  wellFormed meta = true -> cleanValue err = true ->
  DispatchFailures meta < maxInt64 ->
  bumpFailure d err
  = setLastFailure err
      (setDispatchFailures (DispatchFailures meta + 1) meta)
  /\ ParseQueueMetadata
       (Enqueue.appendBlock (StripQueueMetadata d)
          (FormatQueueMetadata (bumpFailure d err)))
     = Some (bumpFailure d err).
Proof.
  intros Hp Hwf He Hd.
  assert (H0 : 0 <= DispatchFailures meta).
  { unfold wellFormed in Hwf. rewrite !andb_true_iff in Hwf.
    destruct Hwf as [_ [H0 _]]. apply Z.leb_le in H0. exact H0. }
  assert (Hb : bumpFailure d err
               = setLastFailure err
                   (setDispatchFailures (DispatchFailures meta + 1) meta)).
  { apply bumpFailure_parsed; [exact Hp | lia]. }
  split; [exact Hb|].
  rewrite Parse_append_block. apply parse_format_clean.
  rewrite Hb. apply wellFormed_bump; assumption.
Qed.

(** X22. A bead of the ready set without a target rig (no metadata block,
    or a block that names no rig) is never handed to the executor and its
    description is not rewritten: the dispatch fails and the only action is
    the swap of [gt:queued] for [gt:dispatch-failed].  A bead with a target
    rig is handed to the executor once, for that rig. *)
Theorem dispatch_needs_target_rig (raw : rawBead) (townRoot : gostring)
    (tr : Trace) :
  (Dispatch.TargetRig (toReady raw) = [] ->
   dispatchSingleBead env (toReady raw) townRoot tr
   = (Some (str "missing queue metadata or target_rig"),
      tr ++ [(BdSwapLabels (rawID raw) dispatchFailedLabel
                Enqueue.LabelQueued,
              bdOk env (List.length tr))]))
  /\ (Dispatch.TargetRig (toReady raw) <> [] ->
      exists p,
        slings (snd (dispatchSingleBead env (toReady raw) townRoot tr))
        = slings tr ++ [p]
        /\ Run.BeadID p = rawID raw
        /\ Run.RigName p = Dispatch.TargetRig (toReady raw)).
Proof.
  unfold dispatchSingleBead, toReady.
  cbn [ID Dispatch.TargetRig Dispatch.Description].
  destruct (ParseQueueMetadata (rawDescription raw)) as [meta|] eqn:Hp.
  2:{ split; [reflexivity | congruence]. }
  destruct (Meta.TargetRig meta) as [|c rig] eqn:Hr; cbn [isEmpty].
  { split; [reflexivity | congruence]. }
  split; [discriminate|]. intros _.
  set (p := slingParams env _ meta townRoot).
  exists p.
  assert (Hid : Run.BeadID p = rawID raw) by reflexivity.
  assert (Hrig : Run.RigName p = c :: rig).
  { subst p. unfold slingParams.
    cbn [Run.RigName Dispatch.TargetRig isEmpty]. reflexivity. }
  split; [|split; [exact Hid | exact Hrig]].
  destruct (executeSling env p) as [err|res]; cbn [snd].
  - unfold recordDispatchFailure, runBd.
    destruct (_ >=? maxDispatchFailures);
      rewrite ?slings_app; cbn; rewrite ?app_nil_r; reflexivity.
  - unfold runBd.
    destruct (negb _); rewrite ?slings_app; cbn; rewrite ?app_nil_r;
      reflexivity.
Qed.

(** X23. When the dispatch of a bead returns nil, the executor was called
    once for that bead and went through, and the post-dispatch cleanup was
    issued in full: the description is rewritten to the text in front of
    the block, which holds no metadata any more, then [gt:queued] is
    swapped for [gt:queue-dispatched], the swap being issued whether or not
    the rewrite went through. *)
Theorem dispatch_success_cleanup (b : readyQueuedBead) (townRoot : gostring)
    (tr tr' : Trace) :
  dispatchSingleBead env b townRoot tr = (None, tr') ->
  exists p polecat ok1 ok2,
    executeSling env p = inr polecat
    /\ Run.BeadID p = ID b
    /\ tr' = tr ++ [(Sling p, true);
                    (BdSetDescription (ID b)
                       (StripQueueMetadata (Description b)), ok1);
                    (BdSwapLabels (ID b) dispatchedLabel
                       Enqueue.LabelQueued, ok2)]
    /\ ParseQueueMetadata (StripQueueMetadata (Description b)) = None.
Proof.
  unfold dispatchSingleBead.
  destruct (ParseQueueMetadata (Description b)) as [meta|] eqn:Hp;
    [|discriminate].
  destruct (isEmpty (Meta.TargetRig meta)); [discriminate|].
  set (p := slingParams env b meta townRoot).
  destruct (executeSling env p) as [err|res] eqn:He; [discriminate|].
  rewrite (Strip_changes_parsed _ _ Hp). cbn [negb]. unfold runBd.
  intros H. injection H as <-.
  exists p, res. eexists. eexists.
  split; [exact He|]. split; [reflexivity|].
  split; [rewrite <- !app_assoc; cbn [app]; reflexivity|].
  apply Parse_no_delimiter, Strip_no_delimiter.
Qed.

(** X24. When the executor refuses a bead whose metadata is clean (no
    white space at the ends of a value, no line break inside, a counter
    that is not negative), with an error text that is clean too, the
    dispatch returns "sling failed: ..." and
    rewrites the description so that it reads back as the same metadata
    with [dispatch_failures] one higher and [last_failure] set to the
    executor's error text. *)
Theorem dispatch_failure_recorded (b : readyQueuedBead)
    (townRoot err : gostring) (tr : Trace) (meta : QueueMetadata) :
  ParseQueueMetadata (Description b) = Some meta ->
  Meta.TargetRig meta <> [] ->
  executeSling env (slingParams env b meta townRoot) = inl err ->
  wellFormed meta = true ->
  cleanValue err = true ->
  DispatchFailures meta < maxInt64 ->
  exists newDesc rest,
    dispatchSingleBead env b townRoot tr
    = (Some (str "sling failed: " ++ err),
       tr ++ (Sling (slingParams env b meta townRoot), false)
          :: (BdSetDescription (ID b) newDesc,
              bdOk env (List.length tr + 1))
          :: rest)
    /\ descriptions rest = []
    /\ ParseQueueMetadata newDesc
       = Some (setLastFailure err
                 (setDispatchFailures (DispatchFailures meta + 1) meta)).
Proof.
  intros Hp Hr He Hwf Hc Hd.
  destruct (failure_record_reads_back _ err _ Hp Hwf Hc Hd) as [Hb Hrd].
  unfold dispatchSingleBead. rewrite Hp.
  destruct (Meta.TargetRig meta) as [|c rig] eqn:Hrig; [congruence|].
  cbn [isEmpty]. rewrite He.
  unfold recordDispatchFailure, runBd.
  exists (Enqueue.appendBlock (StripQueueMetadata (Description b))
            (FormatQueueMetadata (bumpFailure (Description b) err))).
  rewrite Hrd, Hb.
  destruct (_ >=? maxDispatchFailures).
  - eexists. split; [|split; [|reflexivity]].
    + rewrite <- !app_assoc. cbn [app]. rewrite length_app. cbn [List.length].
      reflexivity.
    + reflexivity.
  - exists []. split; [|split; reflexivity].
    rewrite <- !app_assoc. cbn [app]. rewrite length_app. cbn [List.length].
    reflexivity.
Qed.

(** X25. The two thresholds agree: for a bead with clean metadata (no
    white space at the ends of a value, no line break inside, a counter
    that is not negative and below the largest [int]) and an error text
    that is clean too (no white space at its ends, no line break inside),
    [recordDispatchFailure] swaps [gt:queued] for
    [gt:dispatch-failed] exactly when the failure count it writes reaches 3,
    and that is exactly when the next ready query, reading the description
    it wrote, leaves the bead out; below 3 the query returns the bead again
    with the same target rig. *)
Theorem failure_record_trips_breaker (b : readyQueuedBead) (err : gostring)
    (meta : QueueMetadata) (title : gostring) (labels : list gostring) :
  ParseQueueMetadata (Description b) = Some meta ->
  wellFormed meta = true ->
  cleanValue err = true ->
  DispatchFailures meta < maxInt64 ->
  exists newDesc,
    descriptions (recordDispatchFailure env b err []) = [(ID b, newDesc)]
    /\ swaps (recordDispatchFailure env b err [])
       = (if DispatchFailures meta + 1 >=? 3
          then [(ID b, dispatchFailedLabel, Enqueue.LabelQueued)]
          else [])
    /\ getReadyQueuedBeadsFrom (Some [mkRaw (ID b) title newDesc labels])
       = Some (if DispatchFailures meta + 1 >=? 3
               then []
               else [mkReady (ID b) title (Meta.TargetRig meta) newDesc
                       labels]).
Proof.
  intros Hp Hwf Hc Hd.
  destruct (failure_record_reads_back _ err _ Hp Hwf Hc Hd) as [Hb Hrd].
  exists (Enqueue.appendBlock (StripQueueMetadata (Description b))
            (FormatQueueMetadata (bumpFailure (Description b) err))).
  unfold recordDispatchFailure, runBd, getReadyQueuedBeadsFrom.
  cbn [readyLoop rawDescription rawID rawTitle rawLabels].
  rewrite Hrd, Hb.
  cbn [setLastFailure setDispatchFailures DispatchFailures Meta.TargetRig].
  unfold maxDispatchFailures.
  destruct (DispatchFailures meta + 1 >=? 3); repeat split; reflexivity.
Qed.

End OneBead.

Section OneBeadCases.
Import GoStr Dispatch Meta Spec Run SpecRun Scenario3.
Local Open Scope Z_scope.

Lemma dispatch_needs_target_rig_witness :
  dispatchSingleBead depot (toReady bare) root []
  = (Some (str "missing queue metadata or target_rig"),
     [(BdSwapLabels (str "gt-bare") dispatchFailedLabel Enqueue.LabelQueued,
       true)])
  /\ exists p,
       slings (snd (dispatchSingleBead depot (toReady good) root []))
       = [p]
       /\ Run.BeadID p = str "gt-good"
       /\ Run.RigName p = Dispatch.TargetRig (toReady good).
Proof.
  split.
  - exact (proj1 (dispatch_needs_target_rig depot bare root [])
             ltac:(vm_compute; reflexivity)).
  - exact (proj2 (dispatch_needs_target_rig depot good root [])
             ltac:(vm_compute; discriminate)).
Defined.

Lemma dispatch_success_cleanup_witness :
  exists p polecat ok1 ok2,
    executeSling depot p = inr polecat
    /\ Run.BeadID p = str "gt-good"
    /\ snd (dispatchSingleBead depot (toReady good) root [])
       = [(Sling p, true);
          (BdSetDescription (str "gt-good") (str "Fix it"), ok1);
          (BdSwapLabels (str "gt-good") dispatchedLabel Enqueue.LabelQueued,
           ok2)]
    /\ ParseQueueMetadata (str "Fix it") = None.
Proof.
  exact (dispatch_success_cleanup depot (toReady good) root []
           (snd (dispatchSingleBead depot (toReady good) root []))
           ltac:(vm_compute; reflexivity)).
Defined.

Lemma dispatch_failure_recorded_witness :
  exists newDesc rest,
    dispatchSingleBead depot (toReady hooked) root []
    = (Some (str "sling failed: bead already hooked"),
       (Sling (slingParams depot (toReady hooked) (metaFor "depot" 2) root),
        false)
       :: (BdSetDescription (str "gt-hooked") newDesc, true) :: rest)
    /\ descriptions rest = []
    /\ ParseQueueMetadata newDesc
       = Some (setLastFailure (str "bead already hooked")
                 (metaFor "depot" 3)).
Proof.
  apply (dispatch_failure_recorded depot (toReady hooked) root
           (str "bead already hooked") [] (metaFor "depot" 2)).
  - vm_compute; reflexivity.
  - vm_compute; discriminate.
  - vm_compute; reflexivity.
  - vm_compute; reflexivity.
  - vm_compute; reflexivity.
  - vm_compute; reflexivity.
Defined.

Lemma failure_record_trips_breaker_witness :
  exists newDesc,
    descriptions
      (recordDispatchFailure depot (toReady hooked)
         (str "bead already hooked") [])
    = [(str "gt-hooked", newDesc)]
    /\ swaps
         (recordDispatchFailure depot (toReady hooked)
            (str "bead already hooked") [])
       = [(str "gt-hooked", dispatchFailedLabel, Enqueue.LabelQueued)]
    /\ getReadyQueuedBeadsFrom
         (Some [mkRaw (str "gt-hooked") (str "Hooked") newDesc
                  [str "gt:queued"]])
       = Some [].
Proof.
  apply (failure_record_trips_breaker depot (toReady hooked)
           (str "bead already hooked") (metaFor "depot" 2) (str "Hooked")
           [str "gt:queued"]).
  - vm_compute; reflexivity.
  - vm_compute; reflexivity.
  - vm_compute; reflexivity.
  - vm_compute; reflexivity.
Defined.

End OneBeadCases.

(* ================================================================== *)
(** * Further properties: a dispatch cycle *)
(* ================================================================== *)

Section CycleFacts.
Import GoStr Dispatch Run SpecRun StrFacts TraceFacts.
Local Open Scope Z_scope.
Variable env : Run.Env.

(** What the dispatch of one bead adds to the trace. *)
Lemma dispatchSingleBead_ext (b : readyQueuedBead) (townRoot : gostring)
    (tr : Trace) :
  exists ext,
    snd (dispatchSingleBead env b townRoot tr) = tr ++ ext
    /\ woken ext = [] /\ saved ext = []
    /\ map Run.BeadID (slings ext) = (if hasTarget b then [ID b] else [])
    /\ Forall queueParams (slings ext)
    /\ okSlings ext
       = match fst (dispatchSingleBead env b townRoot tr) with
         | None => slings ext
         | Some _ => []
         end
    /\ (consistent b ->
        Forall (fun p => Run.BeadID p = ID b
                         /\ Run.RigName p = Dispatch.TargetRig b)
          (slings ext))
    /\ (fst (dispatchSingleBead env b townRoot tr) = None ->
        hasTarget b = true).
Proof.
  unfold dispatchSingleBead, hasTarget, consistent.
  destruct (Meta.ParseQueueMetadata (Description b)) as [meta|] eqn:Hp.
  2:{ eexists. split; [reflexivity|]. cbn.
      repeat split; try constructor; discriminate. }
  destruct (Meta.TargetRig meta) as [|c rig] eqn:Hr; cbn [isEmpty negb].
  { eexists. split; [reflexivity|]. cbn.
    repeat split; try constructor; discriminate. }
  set (p := slingParams env b meta townRoot).
  assert (Hq : queueParams p).
  { subst p. unfold queueParams, slingParams.
    cbn [Run.RigName FormulaFailFatal NoConvoy NoBoot CallerContext].
    repeat split. destruct (Dispatch.TargetRig b); cbn [isEmpty];
      [rewrite Hr|]; discriminate. }
  assert (Hrig : Dispatch.TargetRig b = c :: rig ->
                 Run.RigName p = Dispatch.TargetRig b).
  { intros H. subst p. unfold slingParams. cbn [Run.RigName].
    rewrite H. reflexivity. }
  destruct (executeSling env p) as [err|res]; cbn [fst snd].
  - unfold recordDispatchFailure, runBd.
    destruct (_ >=? maxDispatchFailures).
    + eexists. split; [rewrite <- !app_assoc; reflexivity|].
      cbn. repeat split; try (constructor; [|constructor]); auto.
    + eexists. split; [rewrite <- !app_assoc; reflexivity|].
      cbn. repeat split; try (constructor; [|constructor]); auto.
  - unfold runBd. destruct (negb _).
    + eexists. split; [rewrite <- !app_assoc; reflexivity|].
      cbn. repeat split; try (constructor; [|constructor]); auto.
    + eexists. split; [rewrite <- !app_assoc; reflexivity|].
      cbn. repeat split; try (constructor; [|constructor]); auto.
Qed.

(** What the loop over the visited beads adds to the trace. *)
Lemma dispatchLoop_spec (beads : list readyQueuedBead) (townRoot : gostring)
    (spawnDelay : Z) :
  forall (dispatched : Z) (rigs : list gostring) (tr : Trace),
    let r := dispatchLoop env beads townRoot spawnDelay dispatched rigs tr in
    exists ext,
      snd r = tr ++ ext
      /\ woken ext = [] /\ saved ext = []
      /\ map Run.BeadID (slings ext) = map ID (filter hasTarget beads)
      /\ Forall queueParams (slings ext)
      /\ fst (fst r) = dispatched + Z.of_nat (List.length (okSlings ext))
      /\ (Forall consistent beads ->
          (NoDup rigs -> NoDup (snd (fst r)))
          /\ (forall x, In x (snd (fst r)) <->
                In x rigs
                \/ exists p, In p (okSlings ext) /\ Run.RigName p = x)
          /\ Forall (fun p => exists b, In b beads
                                /\ Run.BeadID p = ID b
                                /\ Run.RigName p = Dispatch.TargetRig b)
               (slings ext)).
Proof.
  induction beads as [|b rest IH]; intros dispatched rigs tr r.
  - exists []. subst r. cbn. rewrite app_nil_r.
    repeat split; try constructor; auto; try lia.
    intros [Hx|[p [[] _]]]. exact Hx.
  - subst r. cbn [dispatchLoop filter].
    destruct (dispatchSingleBead_ext b townRoot tr)
      as [e1 [He1 [Hw1 [Hs1 [Hid1 [Hq1 [Hok1 [Hrig1 Hsucc]]]]]]]].
    destruct (dispatchSingleBead env b townRoot tr) as [[msg|] tr1];
      cbn [fst snd] in He1, Hok1, Hsucc; subst tr1.
    + (* the bead failed *)
      destruct (IH dispatched rigs (tr ++ e1))
        as [e2 [He2 [Hw2 [Hs2 [Hid2 [Hq2 [Hn2 Hc2]]]]]]].
      exists (e1 ++ e2). rewrite app_assoc.
      split; [exact He2|].
      rewrite woken_app, saved_app, slings_app, okSlings_app, Hw1, Hw2, Hs1,
        Hs2, Hok1, map_app, Hid1, Hid2.
      split; [reflexivity|]. split; [reflexivity|].
      split; [destruct (hasTarget b); reflexivity|].
      split; [apply Forall_app; split; assumption|].
      split; [exact Hn2|].
      intros Hcons. inversion Hcons as [|? ? Hb Hrest]; subst.
      destruct (Hc2 Hrest) as [Hnd [Hin Hfrom]].
      split; [exact Hnd|]. split; [exact Hin|].
      apply Forall_app. split.
      * eapply Forall_impl; [|apply (Hrig1 Hb)].
        intros p [Hp1 Hp2]. exists b. split; [left; reflexivity|].
        split; assumption.
      * eapply Forall_impl; [|exact Hfrom].
        intros p [b' [Hb' Hp]]. exists b'. split; [right; exact Hb'|exact Hp].
    + (* the bead was slung *)
      set (rigs' := if negb (isEmpty (Dispatch.TargetRig b))
                       && negb (existsb (streq (Dispatch.TargetRig b)) rigs)
                    then rigs ++ [Dispatch.TargetRig b] else rigs).
      set (e1' := if negb (Nat.eqb (List.length rest) 0) && (spawnDelay >? 0)
                  then e1 ++ [(Sleep spawnDelay, true)] else e1).
      assert (Htr : (if negb (Nat.eqb (List.length rest) 0)
                        && (spawnDelay >? 0)
                     then (tr ++ e1) ++ [(Sleep spawnDelay, true)]
                     else tr ++ e1) = tr ++ e1').
      { subst e1'.
        destruct (negb (Nat.eqb (List.length rest) 0) && (spawnDelay >? 0));
          [rewrite <- app_assoc|]; reflexivity. }
      rewrite Htr.
      assert (Hsl : slings e1' = slings e1 /\ okSlings e1' = okSlings e1
                    /\ woken e1' = [] /\ saved e1' = []).
      { subst e1'.
        destruct (negb (Nat.eqb (List.length rest) 0) && (spawnDelay >? 0));
          rewrite ?slings_app, ?okSlings_app, ?woken_app, ?saved_app, ?Hw1,
            ?Hs1; cbn; rewrite ?app_nil_r; auto. }
      destruct Hsl as [Hsl [Hokl [Hwl Hsvl]]].
      destruct (IH (dispatched + 1) rigs' (tr ++ e1'))
        as [e2 [He2 [Hw2 [Hs2 [Hid2 [Hq2 [Hn2 Hc2]]]]]]].
      exists (e1' ++ e2). rewrite app_assoc.
      split; [exact He2|].
      rewrite woken_app, saved_app, slings_app, okSlings_app, Hwl, Hw2, Hsvl,
        Hs2, Hsl, Hokl, Hok1, map_app, Hid1, Hid2.
      split; [reflexivity|]. split; [reflexivity|].
      split; [destruct (hasTarget b); reflexivity|].
      split; [apply Forall_app; split; assumption|].
      rewrite (Hsucc eq_refl) in Hid1.
      assert (Hone : exists p, slings e1 = [p] /\ Run.BeadID p = ID b).
      { destruct (slings e1) as [|p [|q l]]; try discriminate Hid1.
        exists p. split; [reflexivity|]. cbn in Hid1. congruence. }
      destruct Hone as [p [Hp Hpid]]. rewrite Hp in *.
      split.
      { rewrite Hn2, length_app. cbn [List.length]. lia. }
      intros Hcons. inversion Hcons as [|? ? Hb Hrest]; subst.
      destruct (Hc2 Hrest) as [Hnd [Hin Hfrom]].
      specialize (Hrig1 Hb). inversion Hrig1 as [|? ? [_ Hprig] _]; subst.
      inversion Hq1 as [|? ? [Hne _] _]; subst.
      assert (Hrigs' : forall x, In x rigs' <->
                                 In x rigs \/ x = Dispatch.TargetRig b).
      { intros x. subst rigs'. rewrite <- Hprig.
        destruct (Run.RigName p) as [|c rg] eqn:E; [congruence|].
        cbn [isEmpty negb andb].
        destruct (existsb (streq (c :: rg)) rigs) eqn:Hex; cbn [negb].
        - apply ScanFacts.seen_In in Hex. split; [auto|].
          intros [Hx| ->]; assumption.
        - rewrite in_app_iff. cbn [In]. split.
          + intros [Hx|[Hx|[]]]; auto.
          + intros [Hx|Hx]; auto. }
      split; [|split].
      * intros Hnr. apply Hnd. subst rigs'.
        destruct (negb (isEmpty (Dispatch.TargetRig b))); cbn [andb];
          [|exact Hnr].
        destruct (existsb (streq (Dispatch.TargetRig b)) rigs) eqn:Hex;
          cbn [negb]; [exact Hnr|].
        apply NoDup_app; [exact Hnr | repeat constructor; intros [] |].
        intros x Hx [<-|[]].
        apply ScanFacts.seen_In in Hx. congruence.
      * intros x. rewrite Hin, Hrigs'. split.
        -- intros [[Hx| ->]|[q [Hq Hqr]]].
           ++ left. exact Hx.
           ++ right. exists p. split; [left; reflexivity | exact Hprig].
           ++ right. exists q. split; [right; exact Hq | exact Hqr].
        -- intros [Hx|[q [[<-|Hq] Hqr]]].
           ++ left. left. exact Hx.
           ++ left. right. rewrite <- Hqr. exact Hprig.
           ++ right. exists q. split; assumption.
      * constructor.
        -- exists b. split; [left; reflexivity|]. split; assumption.
        -- eapply Forall_impl; [|exact Hfrom].
           intros q [b' [Hb' Hq]]. exists b'.
           split; [right; exact Hb' | exact Hq].
Qed.

Lemma okSlings_le (tr : Trace) :
  (List.length (okSlings tr) <= List.length (slings tr))%nat.
Proof.
  induction tr as [|[a ok] tr IH]; [apply Nat.le_refl|].
  unfold okSlings, slings in *. cbn [flat_map fst].
  destruct a; cbn [app]; try exact IH.
  destruct ok; cbn [app List.length]; lia.
Qed.

Lemma wakes_projections (rigs : list gostring) :
  let w := map (fun rig => (WakeRig rig, true)) rigs in
  slings w = [] /\ okSlings w = [] /\ saved w = [] /\ woken w = rigs
  /\ descriptions w = [] /\ swaps w = [].
Proof.
  induction rigs as [|r rigs IH]; [cbn; auto 6|].
  cbn in *. destruct IH as [H1 [H2 [H3 [H4 [H5 H6]]]]].
  repeat split; try assumption. f_equal. exact H4.
Qed.

(** The tail of the trace that records the dispatch in the queue state. *)
Lemma cycle_cases (townRoot : gostring) (batchOverride maxPolOverride : Z)
    (dryRun : bool) :
  (exists e,
      dispatchQueuedWork env townRoot batchOverride maxPolOverride dryRun
      = (0, e, []))
  \/ exists cfg ready qs,
       dryRun = false
       /\ tryLock env = Some true
       /\ firstLoad env = Some qs /\ QState.Paused qs = false
       /\ queueCfgOf env = Some cfg
       /\ (Enabled cfg = false -> daemonDispatch env = false)
       /\ Ready.getReadyQueuedBeads (readyDirs env) = Some ready
       /\ (effectiveMax env maxPolOverride > 0 ->
           wrap64 (effectiveMax env maxPolOverride - activePolecats env) > 0)
       /\ let capacity :=
            if effectiveMax env maxPolOverride >? 0
            then wrap64 (effectiveMax env maxPolOverride - activePolecats env)
            else 0 in
          let beads :=
            firstn (Z.to_nat
                      (computeDispatchCount capacity
                         (effectiveBatch env batchOverride)
                         (Z.of_nat (List.length ready)))) ready in
          let r := dispatchLoop env beads townRoot (SpawnDelay cfg) 0 [] [] in
          dispatchQueuedWork env townRoot batchOverride maxPolOverride dryRun
          = (fst (fst r), None,
             (snd r ++ map (fun rig => (WakeRig rig, true)) (snd (fst r)))
             ++ (if fst (fst r) >? 0
                 then match reload env with
                      | None => []
                      | Some freshState =>
                          [(SaveState
                              (QState.RecordDispatch (fst (fst r))
                                 (nowRFC3339 env) freshState),
                            saveOk env)]
                      end
                 else [])).
Proof.
  unfold dispatchQueuedWork, effectiveMax, effectiveBatch, queueCfgOf.
  destruct (tryLock env) as [[|]|]; try (left; eexists; reflexivity).
  destruct (firstLoad env) as [qs|]; try (left; eexists; reflexivity).
  destruct (QState.Paused qs) eqn:Hpaused; try (left; eexists; reflexivity).
  destruct (townSettings env) as [queue|]; try (left; eexists; reflexivity).
  set (cfg := match queue with Some c => c | None => defaultCfg env end).
  assert (Hcfg : match queue with
                 | Some c => Some c
                 | None => Some (defaultCfg env)
                 end = Some cfg) by (destruct queue; reflexivity).
  rewrite Hcfg.
  destruct (negb (Enabled cfg) && negb dryRun && daemonDispatch env) eqn:Hen;
    try (left; eexists; reflexivity).
  set (maxP := if maxPolOverride >? 0 then maxPolOverride
               else MaxPolecats cfg).
  set (batch := if batchOverride >? 0 then batchOverride else BatchSize cfg).
  set (capacity := if maxP >? 0 then wrap64 (maxP - activePolecats env)
                   else 0).
  destruct ((maxP >? 0) && (capacity <=? 0)) eqn:Hcap;
    try (left; eexists; reflexivity).
  destruct (Ready.getReadyQueuedBeads (readyDirs env)) as [ready|];
    try (left; eexists; reflexivity).
  destruct (Nat.eqb (List.length ready) 0);
    try (left; eexists; reflexivity).
  destruct dryRun; try (left; eexists; reflexivity).
  right. exists cfg, ready, qs.
  do 3 (split; [reflexivity|]).
  split; [exact Hpaused|].
  split; [reflexivity|].
  split.
  { intros He. rewrite He in Hen. cbn in Hen. exact Hen. }
  split; [reflexivity|].
  split.
  { intros Hpos.
    assert (Hb : (maxP >? 0) = true) by (apply Z.gtb_lt; lia).
    rewrite Hb in Hcap. cbn [andb] in Hcap. apply Z.leb_gt in Hcap.
    subst capacity. rewrite Hb in Hcap. lia. }
  cbv zeta.
  destruct (dispatchLoop env _ townRoot (SpawnDelay cfg) 0 [] [])
    as [[d rigs] tr].
  cbn [fst snd].
  destruct (d >? 0); [|rewrite app_nil_r; reflexivity].
  destruct (reload env); [reflexivity | rewrite app_nil_r; reflexivity].
Qed.

(** The ready set holds each bead ID once, and its beads are as the query
    of one directory builds them. *)
Lemma ready_set_sound (dirs : list (option (list rawBead)))
    (ready : list readyQueuedBead) :
  Ready.getReadyQueuedBeads dirs = Some ready ->
  NoDup (map ID ready) /\ Forall consistent ready.
Proof.
  unfold Ready.getReadyQueuedBeads.
  pose proof (ScanFacts.scanDirs_spec dirs [] [] 0 ScanFacts.coherent_nil)
    as H.
  destruct (Ready.scanDirs dirs [] [] 0) as [res fc].
  destruct H as [H1 [H2 _]].
  destruct (Nat.eqb fc (List.length dirs) && (0 <? fc)%nat); [discriminate|].
  intros Heq. injection Heq as <-.
  split; [exact H1|]. apply Forall_forall. intros b Hb.
  destruct (H2 b Hb) as [[]|[raw [_ Hin]]].
  rewrite ReadyFacts.readyLoop_filter in Hin. apply in_map_iff in Hin.
  destruct Hin as [r [<- _]]. unfold consistent, Spec.toReady.
  reflexivity.
Qed.

Lemma NoDup_map_filter {A B : Type} (f : A -> B) (g : A -> bool)
    (l : list A) :
  NoDup (map f l) -> NoDup (map f (filter g l)).
Proof.
  induction l as [|a l IH]; intros H; [constructor|].
  cbn [map] in H. inversion H as [|? ? Hn Hr]; subst.
  cbn [filter]. destruct (g a); [|apply IH; exact Hr].
  cbn [map]. constructor; [|apply IH; exact Hr].
  intros Hin. apply Hn. apply in_map_iff in Hin.
  destruct Hin as [x [Hx Hf]]. apply filter_In in Hf.
  rewrite <- Hx. apply in_map. apply Hf.
Qed.

Lemma In_firstn {A : Type} (k : nat) (l : list A) (x : A) :
  In x (firstn k l) -> In x l.
Proof.
  intros H. rewrite <- (firstn_skipn k l). apply in_or_app. left. exact H.
Qed.

Lemma NoDup_map_firstn {A B : Type} (f : A -> B) (k : nat) (l : list A) :
  NoDup (map f l) -> NoDup (map f (firstn k l)).
Proof.
  revert k. induction l as [|a l IH]; intros k H;
    [rewrite firstn_nil; constructor|].
  destruct k as [|k]; [constructor|].
  cbn [map] in H. inversion H as [|? ? Hn Hr]; subst.
  cbn [firstn map]. constructor; [|apply IH; exact Hr].
  intros Hin. apply Hn. apply in_map_iff in Hin.
  destruct Hin as [x [Hx Hf]]. rewrite <- Hx. apply in_map.
  apply (In_firstn k l). exact Hf.
Qed.

Lemma Forall_firstn {A : Type} (P : A -> Prop) (k : nat) (l : list A) :
  Forall P l -> Forall P (firstn k l).
Proof.
  intros H. apply Forall_forall. intros x Hx.
  apply (proj1 (Forall_forall P l) H). apply (In_firstn k l). exact Hx.
Qed.

Lemma computeDispatchCount_le (capacity batchSize readyCount : Z) :
  computeDispatchCount capacity batchSize readyCount <= batchSize
  /\ computeDispatchCount capacity batchSize readyCount <= readyCount
  /\ (0 < capacity ->
      computeDispatchCount capacity batchSize readyCount <= capacity).
Proof.
  unfold computeDispatchCount.
  destruct (capacity >? 0) eqn:E1; destruct (capacity <? batchSize) eqn:E2;
    cbn [andb];
    match goal with
    | |- context [readyCount <? ?x] => destruct (readyCount <? x) eqn:E3
    end; lia.
Qed.

(** The whole trace of a cycle, by parts. *)
Lemma cycle_projections (townRoot : gostring)
    (batchOverride maxPolOverride : Z) (dryRun : bool) :
  let r :=
    dispatchQueuedWork env townRoot batchOverride maxPolOverride dryRun in
  (r = (0, snd (fst r), []))
  \/ exists cfg ready beads ext,
       Ready.getReadyQueuedBeads (readyDirs env) = Some ready
       /\ queueCfgOf env = Some cfg
       /\ beads
          = firstn (Z.to_nat
                      (computeDispatchCount
                         (if effectiveMax env maxPolOverride >? 0
                          then wrap64 (effectiveMax env maxPolOverride
                                       - activePolecats env)
                          else 0)
                         (effectiveBatch env batchOverride)
                         (Z.of_nat (List.length ready)))) ready
       /\ (effectiveMax env maxPolOverride > 0 ->
           wrap64 (effectiveMax env maxPolOverride - activePolecats env) > 0)
       /\ slings (snd r) = slings ext
       /\ okSlings (snd r) = okSlings ext
       /\ woken (snd r)
          = snd (fst (dispatchLoop env beads townRoot (SpawnDelay cfg) 0 []
                        []))
       /\ saved (snd r)
          = (if fst (fst r) >? 0
             then match reload env with
                  | None => []
                  | Some freshState =>
                      [QState.RecordDispatch (fst (fst r)) (nowRFC3339 env)
                         freshState]
                  end
             else [])
       /\ snd (dispatchLoop env beads townRoot (SpawnDelay cfg) 0 [] [])
          = ext
       /\ fst (fst r)
          = fst (fst (dispatchLoop env beads townRoot (SpawnDelay cfg) 0 []
                        [])).
Proof.
  intros r.
  destruct (cycle_cases townRoot batchOverride maxPolOverride dryRun)
    as [[e He]|[cfg [ready [qs [Hdry [Hlock [Hload [Hp [Hcfg [Hen [Hready
         [Hcap Hrun]]]]]]]]]]]].
  - left. subst r. rewrite He. reflexivity.
  - right. cbv zeta in Hrun. exists cfg, ready.
    set (beads := firstn _ ready) in *.
    destruct (dispatchLoop_spec beads townRoot (SpawnDelay cfg) 0 [] [])
      as [ext [Hext [Hw [Hs _]]]].
    cbn [app] in Hext.
    exists beads, ext. subst r. rewrite Hrun. cbn [fst snd].
    rewrite Hext.
    destruct (wakes_projections
                (snd (fst (dispatchLoop env beads townRoot (SpawnDelay cfg)
                             0 [] []))))
      as [W1 [W2 [W3 [W4 _]]]].
    split; [exact Hready|]. split; [exact Hcfg|]. split; [reflexivity|].
    split; [exact Hcap|].
    rewrite !slings_app, !okSlings_app, !woken_app, !saved_app, W1, W2, W3,
      W4, Hw, Hs.
    destruct (fst (fst (dispatchLoop env beads townRoot (SpawnDelay cfg) 0
                          [] [])) >? 0);
      [destruct (reload env)|]; cbn; rewrite ?app_nil_r;
      repeat split; reflexivity.
Qed.

End CycleFacts.

Section Cycle.
Import GoStr Dispatch Run SpecRun StrFacts TraceFacts.
Local Open Scope Z_scope.
Variable env : Run.Env.

(** X26. The count a cycle returns is the number of executor calls that
    went through, and the number of executor calls is bounded by the batch
    size in force (override or configuration) and, when a polecat ceiling is
    in force, by the free slots under it. *)
Theorem dispatch_respects_limits (townRoot : gostring)
    (batchOverride maxPolOverride : Z) (dryRun : bool) :
  let r :=
    dispatchQueuedWork env townRoot batchOverride maxPolOverride dryRun in
  0 <= activePolecats env <= maxInt64 ->
  effectiveMax env maxPolOverride <= maxInt64 ->
  fst (fst r) = Z.of_nat (List.length (okSlings (snd r)))
  /\ (List.length (okSlings (snd r)) <= List.length (slings (snd r)))%nat
  /\ Z.of_nat (List.length (slings (snd r)))
     <= Z.max 0 (effectiveBatch env batchOverride)
  /\ (0 < effectiveMax env maxPolOverride ->
      Z.of_nat (List.length (slings (snd r)))
      <= Z.max 0 (effectiveMax env maxPolOverride - activePolecats env)).
Proof.
  intros r Hact Hmax.
  split; [|split; [apply okSlings_le|]].
  - destruct (cycle_projections env townRoot batchOverride maxPolOverride
                dryRun)
      as [H0|[cfg [ready [beads [ext [_ [_ [_ [_ [_ [Hok [_ [_ [Hext Hn]]]]]]]]]]]]]].
    + fold r in H0. rewrite H0. reflexivity.
    + fold r in Hok, Hn. rewrite Hok, Hn.
      destruct (dispatchLoop_spec env beads townRoot (SpawnDelay cfg) 0 [] [])
        as [e [He [_ [_ [_ [_ [Hcount _]]]]]]].
      cbn [app] in He. rewrite Hext in He. subst e. rewrite Hcount. lia.
  - destruct (cycle_projections env townRoot batchOverride maxPolOverride
                dryRun)
      as [H0|[cfg [ready [beads [ext [_ [_ [Hb [Hcap [Hsl [_ [_ [_ [Hext _]]]]]]]]]]]]]].
    + fold r in H0. rewrite H0. cbn. split; [|intros _]; lia.
    + fold r in Hsl. rewrite Hsl.
      destruct (dispatchLoop_spec env beads townRoot (SpawnDelay cfg) 0 [] [])
        as [e [He [_ [_ [Hid _]]]]].
      cbn [app] in He. rewrite Hext in He. subst e.
      assert (Hlen : (List.length (slings ext) <= List.length beads)%nat).
      { rewrite <- (length_map Run.BeadID), Hid, length_map.
        apply filter_length_le. }
      set (capacity := if effectiveMax env maxPolOverride >? 0
                       then wrap64 (effectiveMax env maxPolOverride
                                    - activePolecats env)
                       else 0) in Hb.
      pose proof (computeDispatchCount_le capacity
                    (effectiveBatch env batchOverride)
                    (Z.of_nat (List.length ready))) as [Hc1 [Hc2 Hc3]].
      assert (Hbeads : Z.of_nat (List.length beads)
                       <= Z.max 0 (computeDispatchCount capacity
                                     (effectiveBatch env batchOverride)
                                     (Z.of_nat (List.length ready)))).
      { rewrite Hb, length_firstn. lia. }
      split; [lia|]. intros Hpos.
      assert (Hw : capacity
                   = effectiveMax env maxPolOverride - activePolecats env).
      { subst capacity.
        assert (Hg : (effectiveMax env maxPolOverride >? 0) = true)
          by (apply Z.gtb_lt; lia).
        rewrite Hg. apply BackoffFacts.wrap64_small.
        unfold maxInt64 in *. lia. }
      assert (Hcpos : 0 < capacity).
      { rewrite Hw. specialize (Hcap ltac:(lia)).
        rewrite BackoffFacts.wrap64_small in Hcap;
          [lia | unfold maxInt64 in *; lia]. }
      specialize (Hc3 Hcpos). lia.
Qed.

(** X27. The queue state is saved only after a cycle that dispatched
    something, at most once, and never from the state loaded before the
    batch: what is saved is the state read again after the batch, with its
    pause fields as they were read (a pause set meanwhile is kept), the
    count of this cycle and the time of the save. *)
Theorem dispatch_saves_fresh_state (townRoot : gostring)
    (batchOverride maxPolOverride : Z) (dryRun : bool) :
  let r :=
    dispatchQueuedWork env townRoot batchOverride maxPolOverride dryRun in
  (List.length (saved (snd r)) <= 1)%nat
  /\ forall s, In s (saved (snd r)) ->
       0 < fst (fst r)
       /\ QState.LastDispatchCount s = fst (fst r)
       /\ QState.LastDispatchAt s = nowRFC3339 env
       /\ exists freshState,
            reload env = Some freshState
            /\ QState.Paused s = QState.Paused freshState
            /\ QState.PausedBy s = QState.PausedBy freshState
            /\ QState.PausedAt s = QState.PausedAt freshState.
Proof.
  intros r.
  destruct (cycle_projections env townRoot batchOverride maxPolOverride
              dryRun)
    as [H0|[cfg [ready [beads [ext [_ [_ [_ [_ [_ [_ [_ [Hsv _]]]]]]]]]]]]].
  - fold r in H0. rewrite H0. cbn. split; [lia | intros s []].
  - fold r in Hsv. rewrite Hsv.
    destruct (fst (fst r) >? 0) eqn:Hpos;
      [|cbn; split; [lia | intros s []]].
    apply Z.gtb_lt in Hpos.
    destruct (reload env) as [fresh|]; [|cbn; split; [lia | intros s []]].
    cbn [List.length]. split; [lia|].
    intros s [<-|[]]. split; [exact Hpos|].
    split; [reflexivity|]. split; [reflexivity|].
    exists fresh. repeat split; reflexivity.
Qed.

(** X28. After the batch a rig is woken exactly when some bead was slung
    to it successfully in this cycle, and no rig is woken twice. *)
Theorem dispatch_wakes_successful_rigs (townRoot : gostring)
    (batchOverride maxPolOverride : Z) (dryRun : bool) :
  let r :=
    dispatchQueuedWork env townRoot batchOverride maxPolOverride dryRun in
  NoDup (woken (snd r))
  /\ forall rig, In rig (woken (snd r)) <->
       exists p, In p (okSlings (snd r)) /\ Run.RigName p = rig.
Proof.
  intros r.
  destruct (cycle_projections env townRoot batchOverride maxPolOverride
              dryRun)
    as [H0|[cfg [ready [beads [ext [Hready [_ [Hb [_ [_ [Hok [Hwk [_ [Hext _]]]]]]]]]]]]]].
  - fold r in H0. rewrite H0. cbn. split; [constructor|].
    intros rig. split; [intros [] | intros [p [[] _]]].
  - fold r in Hok, Hwk. rewrite Hok, Hwk.
    destruct (dispatchLoop_spec env beads townRoot (SpawnDelay cfg) 0 [] [])
      as [e [He [_ [_ [_ [_ [_ Hc]]]]]]].
    cbn [app] in He. rewrite Hext in He. subst e.
    destruct (ready_set_sound _ _ Hready) as [_ Hcons].
    assert (Hcb : Forall consistent beads)
      by (rewrite Hb; apply Forall_firstn; exact Hcons).
    destruct (Hc Hcb) as [Hnd [Hin _]].
    split; [apply Hnd; constructor|].
    intros rig. rewrite Hin. split.
    + intros [[]|H]. exact H.
    + intros H. right. exact H.
Qed.

(** X29. Each executor call of a cycle is for a bead of the ready set, to
    the rig the ready set gives for it, which is not empty; no bead is
    slung twice in one cycle; and every call asks for rollback on a formula
    failure, no new convoy and no boot. *)
Theorem dispatch_slings_ready_beads (townRoot : gostring)
    (batchOverride maxPolOverride : Z) (dryRun : bool) :
  let r :=
    dispatchQueuedWork env townRoot batchOverride maxPolOverride dryRun in
  NoDup (map Run.BeadID (slings (snd r)))
  /\ Forall queueParams (slings (snd r))
  /\ forall p, In p (slings (snd r)) ->
       exists ready b,
         Ready.getReadyQueuedBeads (readyDirs env) = Some ready
         /\ In b ready
         /\ Run.BeadID p = ID b
         /\ Run.RigName p = Dispatch.TargetRig b.
Proof.
  intros r.
  destruct (cycle_projections env townRoot batchOverride maxPolOverride
              dryRun)
    as [H0|[cfg [ready [beads [ext [Hready [_ [Hb [_ [Hsl [_ [_ [_ [Hext _]]]]]]]]]]]]]].
  - fold r in H0. rewrite H0. cbn.
    split; [constructor|]. split; [constructor | intros p []].
  - fold r in Hsl. rewrite Hsl.
    destruct (dispatchLoop_spec env beads townRoot (SpawnDelay cfg) 0 [] [])
      as [e [He [_ [_ [Hid [Hq [_ Hc]]]]]]].
    cbn [app] in He. rewrite Hext in He. subst e.
    destruct (ready_set_sound _ _ Hready) as [Hnd Hcons].
    assert (Hcb : Forall consistent beads)
      by (rewrite Hb; apply Forall_firstn; exact Hcons).
    destruct (Hc Hcb) as [_ [_ Hfrom]].
    split; [|split; [exact Hq|]].
    + rewrite Hid. apply NoDup_map_filter. rewrite Hb.
      apply NoDup_map_firstn. exact Hnd.
    + intros p Hp.
      destruct (proj1 (Forall_forall _ _) Hfrom p Hp) as [b [Hin [H1 H2]]].
      exists ready, b. split; [exact Hready|].
      split; [|split; assumption].
      rewrite Hb in Hin. apply (In_firstn _ _ _ Hin).
Qed.

(** X30. A cycle does nothing at all (no executor call, no [bd update], no
    wake, no save) and returns 0 when it is a dry run, when another
    dispatch holds the lock, when the queue is paused, or when the daemon
    runs it while the queue is not enabled. *)
Theorem dispatch_noop (townRoot : gostring)
    (batchOverride maxPolOverride : Z) (dryRun : bool) :
  dryRun = true
  \/ tryLock env = Some false
  \/ (exists qs, firstLoad env = Some qs /\ QState.Paused qs = true)
  \/ (daemonDispatch env = true
      /\ exists cfg, queueCfgOf env = Some cfg /\ Enabled cfg = false) ->
  exists e,
    dispatchQueuedWork env townRoot batchOverride maxPolOverride dryRun
    = (0, e, []).
Proof.
  intros H.
  destruct (cycle_cases env townRoot batchOverride maxPolOverride dryRun)
    as [H0|[cfg [ready [qs [Hdry [Hlock [Hload [Hp [Hcfg [Hen _]]]]]]]]]];
    [exact H0|].
  exfalso.
  destruct H as [H|[H|[[qs' [H1 H2]]|[H1 [cfg' [H2 H3]]]]]]; try congruence.
  rewrite Hcfg in H2. injection H2 as <-. specialize (Hen H3). congruence.
Qed.

End Cycle.

Section CycleCases.
Import GoStr Dispatch Run SpecRun Scenario3.
Local Open Scope Z_scope.

Lemma dispatch_respects_limits_witness :
  fst (fst (dispatchQueuedWork depot root 0 0 false))
  = Z.of_nat
      (List.length (okSlings (snd (dispatchQueuedWork depot root 0 0 false))))
  /\ (List.length (okSlings (snd (dispatchQueuedWork depot root 0 0 false)))
      <= List.length (slings (snd (dispatchQueuedWork depot root 0 0 false))))%nat
  /\ Z.of_nat
       (List.length (slings (snd (dispatchQueuedWork depot root 0 0 false))))
     <= Z.max 0 (effectiveBatch depot 0)
  /\ (0 < effectiveMax depot 0 ->
      Z.of_nat
        (List.length (slings (snd (dispatchQueuedWork depot root 0 0 false))))
      <= Z.max 0 (effectiveMax depot 0 - activePolecats depot)).
Proof.
  exact (dispatch_respects_limits depot root 0 0 false
           ltac:(vm_compute; split; discriminate)
           ltac:(vm_compute; discriminate)).
Defined.

Lemma dispatch_saves_fresh_state_witness :
  (List.length (saved (snd (dispatchQueuedWork depot root 0 0 false))) <= 1)%nat.
Proof.
  exact (proj1 (dispatch_saves_fresh_state depot root 0 0 false)).
Defined.

Lemma dispatch_wakes_successful_rigs_witness :
  NoDup (woken (snd (dispatchQueuedWork depot root 0 0 false))).
Proof.
  exact (proj1 (dispatch_wakes_successful_rigs depot root 0 0 false)).
Defined.

Lemma dispatch_slings_ready_beads_witness :
  NoDup
    (map Run.BeadID (slings (snd (dispatchQueuedWork depot root 0 0 false)))).
Proof.
  exact (proj1 (dispatch_slings_ready_beads depot root 0 0 false)).
Defined.

Lemma dispatch_noop_witness :
  exists e, dispatchQueuedWork depot root 0 2 true = (0, e, []).
Proof.
  exact (dispatch_noop depot root 0 2 true (or_introl eq_refl)).
Defined.

End CycleCases.
